(** * SCAPIS publications dashboard: collector and renderer

    A shallow embedding of [scripts/fetch_publications.py] (the collector)
    and of the [main] function of [scripts/generate_dashboard.py] (the
    renderer), followed by the properties of the merge, classification,
    sorting, parsing, retry and rendering steps.

    Modelling conventions.
    - A Python [str] is a [string]: a sequence of 8-bit characters.  On
      ASCII text this is the Python string itself; [lower], [strip] and
      slicing act on ASCII letters, ASCII white space and characters.
    - A publication dict is the record [pub]; a key that is absent from the
      dict is the default that every [p.get(key, default)] of the source
      supplies (the empty string, the empty list, 0).
    - The insertion-ordered dict [merged] is an association list with
      in-place update ([Dict.set]).
    - An [xml.etree] element is the tree type [element].
    - The network, the clock and the standard error stream of [fetch_url]
      are an explicit [World], threaded by a state-and-exception monad.
    - [fetch_pubmed_details] runs on a [Run]: that world and the pauses
      made between batches.  [ET.fromstring], [json.loads] and [str] of a
      list or a dict are library functions taken as parameters.
    - A value returned by [json.loads] is a [json]; what is written to
      standard output is left out. *)

From Stdlib Require Import List String Ascii Bool Arith Lia.
From Stdlib Require Import Permutation Sorted.
From Stdlib Require Import ZArith.
Import ListNotations.

#[local] Set Warnings "-register-all".
Local Open Scope list_scope.
Local Open Scope string_scope.

(* ================================================================== *)
(** * Python string primitives                                          *)
(* ================================================================== *)

Module PyStr.

(** Truthiness of a [str]: [bool(s)]. *)
Definition truthy (s : string) : bool :=
match s with
| EmptyString => false
| String _ _ => true
end.

(** [a or b] on strings. *)
Definition por (a b : string) : string :=
if truthy a then a else b.

(** [c.lower()] on one character: A-Z go to a-z, all else is kept. *)
Definition lower_ascii (c : ascii) : ascii :=
let n := nat_of_ascii c in
if ((65 <=? n) && (n <=? 90))%nat then ascii_of_nat (n + 32) else c.

(** [s.lower()]. *)
Fixpoint lower (s : string) : string :=
match s with
| EmptyString => EmptyString
| String c r => String (lower_ascii c) (lower r)
end.

(** [c.isspace()] on the ASCII range: TAB, LF, VT, FF, CR, FS, GS, RS, US
    and the space. *)
Definition is_space (c : ascii) : bool :=
let n := nat_of_ascii c in
(((9 <=? n) && (n <=? 13)) || ((28 <=? n) && (n <=? 32)))%nat.

(** [s.lstrip()]. *)
Fixpoint lstrip (s : string) : string :=
match s with
| EmptyString => EmptyString
| String c r => if is_space c then lstrip r else s
end.

(** [s.rstrip()]. *)
Fixpoint rstrip (s : string) : string :=
match s with
| EmptyString => EmptyString
| String c r =>
    match rstrip r with
    | EmptyString => if is_space c then EmptyString else String c EmptyString
    | String d t => String c (String d t)
    end
end.

(** [s.strip()]. *)
Definition strip (s : string) : string := rstrip (lstrip s).

(** [s[:n]]. *)
Fixpoint take (n : nat) (s : string) : string :=
match n, s with
| 0, _ => EmptyString
| _, EmptyString => EmptyString
| S k, String c r => String c (take k r)
end.

(** [s.startswith(p)]. *)
Fixpoint starts_with (p s : string) : bool :=
match p, s with
| EmptyString, _ => true
| String _ _, EmptyString => false
| String a p', String b s' => Ascii.eqb a b && starts_with p' s'
end.

(** [kw in s]: [kw] occurs in [s] as a contiguous substring. *)
Fixpoint contains (kw s : string) : bool :=
starts_with kw s ||
match s with
| EmptyString => false
| String _ r => contains kw r
end.

(** [sep.join(parts)]. *)
Fixpoint join (sep : string) (parts : list string) : string :=
match parts with
| [] => EmptyString
| [x] => x
| x :: rest => x ++ sep ++ join sep rest
end.

(** The scan of [s.replace(old, new)] for a non-empty [old]: [skip] counts
    the characters of a match just replaced that are still to be passed
    over, so that matches are taken left to right without overlap. *)
Fixpoint replace_from (old new : string) (skip : nat) (s : string) : string :=
match s with
| EmptyString => EmptyString
| String c r =>
    match skip with
    | S k => replace_from old new k r
    | 0 =>
        if starts_with old s
        then new ++ replace_from old new (String.length old - 1) r
        else String c (replace_from old new 0 r)
    end
end.

(** [s.replace("", new)]: [new] before every character and at the end. *)
Fixpoint intersperse (new s : string) : string :=
match s with
| EmptyString => new
| String c r => new ++ String c (intersperse new r)
end.

(** [s.replace(old, new)]. *)
Definition replace (old new s : string) : string :=
match old with
| EmptyString => intersperse new s
| String _ _ => replace_from old new 0 s
end.

(** [a < b] on characters (by code). *)
Definition ascii_ltb (a b : ascii) : bool :=
(nat_of_ascii a <? nat_of_ascii b)%nat.

(** [s <= t] on strings: the lexicographic order on character codes. *)
Fixpoint le (s t : string) : bool :=
match s, t with
| EmptyString, _ => true
| String _ _, EmptyString => false
| String a s', String b t' =>
    if ascii_ltb a b then true
    else if ascii_ltb b a then false
    else le s' t'
end.

(** [s < t] on strings. *)
Definition lt (s t : string) : bool := negb (le t s).

(** [str(n)] for a non-negative integer: its decimal digits. *)
Fixpoint digits_fuel (fuel n : nat) (acc : string) : string :=
match fuel with
| 0 => acc
| S f =>
    let acc' := String (ascii_of_nat (48 + n mod 10)) acc in
    if (n <? 10)%nat then acc' else digits_fuel f (n / 10) acc'
end.

Definition of_nat (n : nat) : string := digits_fuel (S n) n EmptyString.

End PyStr.

(* ================================================================== *)
(** * Insertion-ordered dictionaries                                    *)
(* ================================================================== *)

Module Dict.

Section Ops.
Context {V : Type}.

(** [key in d]. *)
Fixpoint mem (key : string) (d : list (string * V)) : bool :=
match d with
| [] => false
| (k, _) :: r => String.eqb k key || mem key r
end.

(** [d[key] = v]: a key already present keeps its position and takes the
    new value, a new key goes to the end. *)
Fixpoint set (key : string) (v : V) (d : list (string * V)) : list (string * V) :=
match d with
| [] => [(key, v)]
| (k, w) :: r => if String.eqb k key then (k, v) :: r else (k, w) :: set key v r
end.

(** [d.get(key)]. *)
Fixpoint get (key : string) (d : list (string * V)) : option V :=
match d with
| [] => None
| (k, w) :: r => if String.eqb k key then Some w else get key r
end.

(** Iteration over the dict: its keys in insertion order. *)
Definition keys (d : list (string * V)) : list string := map fst d.

(** [d.values()]. *)
Definition values (d : list (string * V)) : list V := map snd d.

End Ops.

End Dict.

(* ================================================================== *)
(** * Publication records                                               *)
(* ================================================================== *)

(** The dict built by [parse_pubmed_article] and [try_scapis_website]. *)
Record pub : Type := mkPub {
  pmid : string;
  title : string;
  journal : string;
  journal_abbr : string;
  year : string;
  authors : list string;
  first_author : string;
  author_count : nat;
  doi : string;
  keywords : list string;
  mesh_terms : list string;
  abstract : string
}.

(** The dict appended to [dashboard_pubs] by [build_dashboard_data]. *)
Record dashboard_pub : Type := mkDash {
  d_title : string;
  d_year : string;
  d_journal : string;
  d_firstAuthor : string;
  d_authorCount : nat;
  d_authors : string;
  d_topics : list string;
  d_doi : string;
  d_pmid : string;
  d_abstract : string
}.

(* ================================================================== *)
(** * The collector: classification, merge, output                      *)
(* ================================================================== *)

Module Collector.

Import PyStr.

(** [TOPIC_KEYWORDS], in the order of the dict literal. *)
Definition TOPIC_KEYWORDS : list (string * list string) :=
[ ("Cardiovascular",
   ["cardiovascular"; "cardiac"; "heart"; "coronary"; "atrial"; "aortic";
    "atherosclerosis"; "myocardial"; "echocardiograph"; "vascular";
    "artery"; "arterial"; "carotid"; "plaque"; "stroke"; "hypertension";
    "blood pressure"; "fibrillation"; "cardiometabolic"]);
  ("Respiratory",
   ["pulmonary"; "lung"; "respiratory"; "airway"; "copd"; "asthma";
    "bronch"; "emphysema"; "spirometr"; "airflow"; "ventilat"]);
  ("Imaging",
   ["imaging"; "ct "; "computed tomography"; "mri"; "magnetic resonance";
    "ccta"; "scan"; "radiograph"; "angiograph"; "ultrasound";
    "echocardiograph"; "densitometr"]);
  ("Metabolic",
   ["metabol"; "diabetes"; "insulin"; "glucose"; "lipid"; "cholesterol";
    "triglyceride"; "adipos"; "obesity"; "bmi"; "body mass";
    "fatty liver"; "hepatic steatosis"; "nafld"]);
  ("Risk Factors",
   ["risk factor"; "smoking"; "alcohol"; "physical activity"; "exercise";
    "sedentary"; "diet"; "sleep"; "socioeconomic"; "education";
    "lifestyle"; "occupation"]);
  ("Biomarkers",
   ["biomarker"; "proteom"; "genom"; "genetic"; "snp"; "gwas";
    "polygenic"; "mendelian"; "transcriptom"; "metabolom";
    "troponin"; "nt-probnp"; "crp"; "interleukin"; "cytokine"]);
  ("Mental Health",
   ["mental"; "depression"; "anxiety"; "psychiatric"; "psychological";
    "stress"; "wellbeing"; "well-being"; "insomnia"; "cogniti"]) ].

(** The text scanned by [classify_topics]:
    [(title + " " + abstract).lower()]. *)
Definition classify_text (p : pub) : string :=
lower (title p ++ " " ++ abstract p).

(** [any(kw in text for kw in keywords)]. *)
Definition any_keyword (text : string) (kws : list string) : bool :=
existsb (fun kw => contains kw text) kws.

(** The loop of [classify_topics] over a rule table. *)
Fixpoint classify_loop (text : string) (table : list (string * list string))
  : list string :=
match table with
| [] => []
| (topic, kws) :: rest =>
    if any_keyword text kws
    then topic :: classify_loop text rest
    else classify_loop text rest
end.

(** [classify_topics]: the topics found, or ["Other"] when there is
    none. *)
Definition classify_topics (p : pub) : list string :=
let topics := classify_loop (classify_text p) TOPIC_KEYWORDS in
match topics with
| [] => ["Other"]
| _ :: _ => topics
end.

(** The key under which the first loop of [merge_publications] stores a
    PubMed record. *)
Definition primary_key (p : pub) : string :=
por (strip (lower (doi p))) (strip (lower (title p))).

(** One iteration of the first loop. *)
Definition add_primary (merged : list (string * pub)) (p : pub)
  : list (string * pub) :=
let key := primary_key p in
if truthy key then Dict.set key p merged else merged.

(** [doi_key] of the second loop: [(p.get("doi", "") or "").lower().strip()]. *)
Definition doi_key (p : pub) : string := strip (lower (por (doi p) "")).

(** [title_key] of the second loop. *)
Definition title_key (p : pub) : string := strip (lower (por (title p) "")).

(** The condition tested on each key by the fuzzy loop. *)
Definition fuzzy_match (title_key existing_key : string) : bool :=
truthy title_key && truthy existing_key &&
(String.eqb (take 50 title_key) (take 50 existing_key) ||
 String.eqb (take 50 existing_key) (take 50 title_key)).

(** The fuzzy loop: [is_dup] after [for existing_key in merged: ...]. *)
Fixpoint fuzzy_loop (title_key : string) (existing : list string) : bool :=
match existing with
| [] => false
| existing_key :: rest =>
    if fuzzy_match title_key existing_key then true
    else fuzzy_loop title_key rest
end.

(** One iteration of the second loop, on the pair [(merged, added)]. *)
Definition add_secondary (st : list (string * pub) * nat) (p : pub)
  : list (string * pub) * nat :=
let (merged, added) := st in
let dk := doi_key p in
let tk := title_key p in
if truthy dk && Dict.mem dk merged then st
else if truthy tk && Dict.mem tk merged then st
else
  let is_dup := fuzzy_loop tk (Dict.keys merged) in
  if negb is_dup && truthy (por dk tk)
  then (Dict.set (por dk tk) p merged, S added)
  else st.

(** The dict [merged] and the counter [added] when both loops are done. *)
Definition merge_state (pubmed_pubs scapis_pubs : list pub)
  : list (string * pub) * nat :=
fold_left add_secondary scapis_pubs (fold_left add_primary pubmed_pubs [], 0).

(** [merge_publications]: [list(merged.values())]. *)
Definition merge_publications (pubmed_pubs scapis_pubs : list pub) : list pub :=
Dict.values (fst (merge_state pubmed_pubs scapis_pubs)).

(** The body of the loop of [build_dashboard_data]; [authors] is a list in
    every record, so the branch for another type is not taken. *)
Definition to_dashboard (p : pub) : dashboard_pub :=
let authors_list := authors p in
let authors_str := join ", " authors_list in
let first_author :=
  match authors_list with
  | a :: _ => a
  | [] => first_author p
  end in
let author_count :=
  match authors_list with
  | _ :: _ => List.length authors_list
  | [] => author_count p
  end in
mkDash (title p) (year p) (journal p) first_author author_count authors_str
       (classify_topics p) (doi p) (pmid p) (abstract p).

(** The sort key [(x["year"], x["title"])]. *)
Definition sort_key (x : dashboard_pub) : string * string := (d_year x, d_title x).

(** [a <= b] on pairs of strings (tuple comparison). *)
Definition key_le (a b : string * string) : bool :=
if lt (fst a) (fst b) then true
else if lt (fst b) (fst a) then false
else le (snd a) (snd b).

(** [a < b] on pairs of strings. *)
Definition key_lt (a b : string * string) : bool := negb (key_le b a).

(** Insertion of [x] in front of a list already in descending order: [x]
    passes the records with a strictly greater key and stops in front of
    the first one whose key is not greater, so equal keys keep their
    original order. *)
Fixpoint insert_desc (x : dashboard_pub) (l : list dashboard_pub)
  : list dashboard_pub :=
match l with
| [] => [x]
| y :: r =>
    if key_lt (sort_key x) (sort_key y) then y :: insert_desc x r
    else x :: l
end.

(** [l.sort(key=..., reverse=True)]: the stable descending sort. *)
Fixpoint sort_desc (l : list dashboard_pub) : list dashboard_pub :=
match l with
| [] => []
| x :: r => insert_desc x (sort_desc r)
end.

(** The value under ["publications"] in the result. *)
Definition build_dashboard_data (publications : list pub) : list dashboard_pub :=
sort_desc (map to_dashboard publications).

End Collector.

(* ================================================================== *)
(** * XML elements and the PubMed parser                                *)
(* ================================================================== *)

Module Xml.

(** An [xml.etree.ElementTree.Element]: tag, attributes, text before the
    first child, children, and the text that follows the end tag. *)
Inductive element : Type :=
| Element (tag : string) (attrib : list (string * string))
          (text : option string) (children : list element)
          (tail : option string).

Definition tag_of (e : element) : string :=
match e with Element t _ _ _ _ => t end.

Definition attrib_of (e : element) : list (string * string) :=
match e with Element _ a _ _ _ => a end.

Definition text_of (e : element) : option string :=
match e with Element _ _ t _ _ => t end.

Definition children_of (e : element) : list element :=
match e with Element _ _ _ c _ => c end.

Definition tail_of (e : element) : option string :=
match e with Element _ _ _ _ t => t end.

(** [x or ""] for a text that may be [None]. *)
Definition text_or_empty (t : option string) : string :=
match t with
| Some s => s
| None => EmptyString
end.

(** [e.get(name)]. *)
Definition get_attr (name : string) (e : element) : option string :=
Dict.get name (attrib_of e).

(** [e.get(name, default)]. *)
Definition get_attr_default (name default : string) (e : element) : string :=
match get_attr name e with
| Some v => v
| None => default
end.

Definition has_tag (name : string) (e : element) : bool :=
String.eqb (tag_of e) name.

(** [e.findall(name)]: the children with that tag, in document order. *)
Definition findall (name : string) (e : element) : list element :=
filter (has_tag name) (children_of e).

(** [e.find(name)]. *)
Definition find (name : string) (e : element) : option element :=
hd_error (findall name e).

(** [e.findtext(name, default)]: the text of the first such child, the
    empty string when that child has no text, [default] when there is no
    such child. *)
Definition findtext (name default : string) (e : element) : string :=
match find name e with
| Some c => text_or_empty (text_of c)
| None => default
end.

(** [e.findtext(name)], whose default is [None]. *)
Definition findtext_opt (name : string) (e : element) : option string :=
match find name e with
| Some c => Some (text_or_empty (text_of c))
| None => None
end.

(** The proper descendants of an element, in document order. *)
Fixpoint descendants (e : element) : list element :=
match e with
| Element _ _ _ cs _ =>
    (fix walk (l : list element) : list element :=
       match l with
       | [] => []
       | c :: r => c :: (descendants c ++ walk r)%list
       end) cs
end.

(** [e.findall(".//name")]. *)
Definition findall_desc (name : string) (e : element) : list element :=
filter (has_tag name) (descendants e).

(** [e.find(".//name")]. *)
Definition find_desc (name : string) (e : element) : option element :=
hd_error (findall_desc name e).

(** A text yielded by [itertext]: only when it is neither [None] nor
    empty. *)
Definition yield_text (t : option string) : list string :=
match t with
| Some s => if PyStr.truthy s then [s] else []
| None => []
end.

(** [list(e.itertext())]. *)
Fixpoint itertext (e : element) : list string :=
match e with
| Element _ _ t cs _ =>
    (yield_text t ++
     (fix walk (l : list element) : list string :=
        match l with
        | [] => []
        | c :: r => (itertext c ++ yield_text (tail_of c) ++ walk r)%list
        end) cs)%list
end.

End Xml.

Module Parser.

Import PyStr Xml.

Definition is_digit (c : ascii) : bool :=
let n := nat_of_ascii c in ((48 <=? n) && (n <=? 57))%nat.

(** The pattern [20\d{2}] matched at the head of [s]. *)
Definition year_at (s : string) : bool :=
match s with
| String "2" (String "0" (String a (String b _))) => is_digit a && is_digit b
| _ => false
end.

(** [re.search(r"(20\d{2})", s)] followed by [m.group(1)]. *)
Fixpoint search_year (s : string) : option string :=
match s with
| EmptyString => None
| String _ r => if year_at s then Some (take 4 s) else search_year r
end.

(** The [# Year] block. *)
Definition parse_year (art : element) : string :=
match find_desc "PubDate" art with
| None => EmptyString
| Some pub_date =>
    let year := findtext "Year" "" pub_date in
    if truthy year then year
    else
      let medline_date := findtext "MedlineDate" "" pub_date in
      if truthy medline_date then
        match search_year medline_date with
        | Some y => y
        | None => year
        end
      else year
end.

(** One iteration of the author loop. *)
Definition add_author (authors : list string) (auth : element) : list string :=
let last := findtext "LastName" "" auth in
let init := findtext "Initials" "" auth in
if truthy last then (authors ++ [strip (last ++ " " ++ init)%string])%list else authors.

(** The [# Authors] block. *)
Definition parse_authors (art : element) : list string :=
match find "AuthorList" art with
| None => []
| Some author_list => fold_left add_author (findall "Author" author_list) []
end.

(** One iteration of the DOI loop. *)
Definition doi_step (doi : string) (eid : element) : string :=
match get_attr "IdType" eid with
| Some v => if String.eqb v "doi" then text_or_empty (text_of eid) else doi
| None => doi
end.

(** The [# DOI] block. *)
Definition parse_doi (article : element) : string :=
fold_left doi_step (findall_desc "ArticleId" article) "".

(** The [# Keywords] comprehension. *)
Definition parse_keywords (medline : element) : list string :=
flat_map (fun kw => yield_text (text_of kw)) (findall_desc "Keyword" medline).

(** The [# MeSH terms] comprehension. *)
Definition parse_mesh (medline : element) : list string :=
flat_map
  (fun mh =>
     match findtext_opt "DescriptorName" mh with
     | Some d => if truthy d then [findtext "DescriptorName" "" mh] else []
     | None => []
     end)
  (findall_desc "MeshHeading" medline).

(** [at.get("Label", "")]. *)
Definition section_label (at_ : element) : string :=
get_attr_default "Label" "" at_.

(** ["".join(at.itertext()).strip()]. *)
Definition section_text (at_ : element) : string :=
strip (join "" (itertext at_)).

(** One iteration of the abstract loop. *)
Definition add_part (parts : list string) (at_ : element) : list string :=
let label := section_label at_ in
let text := section_text at_ in
if truthy label && truthy text then (parts ++ [(label ++ ": " ++ text)%string])%list
else if truthy text then (parts ++ [text])%list
else parts.

(** The value of [abstract] for a given [Abstract] element. *)
Definition abstract_of (abs_el : element) : string :=
join " " (fold_left add_part (findall "AbstractText" abs_el) []).

(** The [# Abstract] block. *)
Definition parse_abstract (art : element) : string :=
match find "Abstract" art with
| None => EmptyString
| Some abs_el => abstract_of abs_el
end.

(** [parse_pubmed_article], its result: [None] when there is no [Article]
    child, and also when there is no [MedlineCitation], where
    [medline.find] raises the [AttributeError] that the handler turns
    into [None].  What the handler prints is [parse_warning] below; the
    call with that effect is [Details.parse_pubmed_article_io]. *)
Definition parse_pubmed_article (article : element) : option pub :=
match find_desc "MedlineCitation" article with
| None => None
| Some medline =>
    match find "Article" medline with
    | None => None
    | Some art =>
        let pmid := findtext "PMID" "" medline in
        let title := findtext "ArticleTitle" "" art in
        let journal_el := find "Journal" art in
        let journal :=
          match journal_el with
          | Some j => findtext "Title" "" j
          | None => EmptyString
          end in
        let journal_abbr :=
          match journal_el with
          | Some j => findtext "ISOAbbreviation" "" j
          | None => EmptyString
          end in
        let year := parse_year art in
        let authors := parse_authors art in
        let doi := parse_doi article in
        let keywords := parse_keywords medline in
        let mesh_terms := parse_mesh medline in
        let abstract := parse_abstract art in
        Some (mkPub pmid title journal journal_abbr year authors
                    (hd EmptyString authors) (List.length authors) doi
                    keywords mesh_terms abstract)
    end
end.

(** The line that the handler of [parse_pubmed_article] prints on
    standard error: the [AttributeError] of [medline.find] when [medline]
    is [None]; nothing else in the [try] block raises. *)
Definition parse_warning (article : element) : option string :=
match find_desc "MedlineCitation" article with
| None =>
    Some "  Warning: Failed to parse article: 'NoneType' object has no attribute 'find'"
| Some _ => None
end.

End Parser.

(* ================================================================== *)
(** * fetch_url: requests, sleeps and warnings                          *)
(* ================================================================== *)

Module Fetch.

(** What the [try] block of [fetch_url] can raise: an [Exception] of
    [urllib] or of [decode], with its message. *)
Inductive exn : Type :=
| Exception (msg : string).

Definition exn_msg (e : exn) : string :=
match e with Exception m => m end.

(** What the run leaves behind, oldest first. *)
Inductive event : Type :=
| Request (url : string)
| Sleep (seconds : nat)
| Warn (line : string).

(** The world of a run: [net k url] is what the request number [k] (from
    0) to [url] meets, a decoded body or an exception; [calls] counts the
    requests made; [trace] records the events. *)
Record World : Type := mkWorld {
  net : nat -> string -> string + exn;
  calls : nat;
  trace : list event
}.

(** Computations that read and change the world and may raise. *)
Definition M (A : Type) : Type := World -> (A + exn) * World.

Definition ret {A : Type} (a : A) : M A := fun w => (inl a, w).

Definition bind {A B : Type} (m : M A) (k : A -> M B) : M B :=
fun w =>
  match m w with
  | (inl a, w') => k a w'
  | (inr e, w') => (inr e, w')
  end.

Definition raise {A : Type} (e : exn) : M A := fun w => (inr e, w).

(** [try: m  except Exception as e: h e]. *)
Definition try_except {A : Type} (m : M A) (h : exn -> M A) : M A :=
fun w =>
  match m w with
  | (inl a, w') => (inl a, w')
  | (inr e, w') => h e w'
  end.

Notation "x <- m ;; k" := (bind m (fun x => k))
  (at level 61, m at next level, right associativity).
Notation "m ;;; k" := (bind m (fun _ => k))
  (at level 61, right associativity).

Definition log (ev : event) (w : World) : World :=
mkWorld (net w) (calls w) (trace w ++ [ev]).

(** The body of the [try] block: build the request, open it, read and
    decode the response. *)
Definition urlopen_read (url : string) : M string :=
fun w =>
  let w' := mkWorld (net w) (S (calls w)) (trace w ++ [Request url]) in
  match net w (calls w) url with
  | inl body => (inl body, w')
  | inr e => (inr e, w')
  end.

(** [time.sleep(seconds)]. *)
Definition sleep (seconds : nat) : M unit :=
fun w => (inl tt, log (Sleep seconds) w).

(** [print(line, file=sys.stderr)]. *)
Definition print_stderr (line : string) : M unit :=
fun w => (inl tt, log (Warn line) w).

Definition warning (url : string) (e : exn) : string :=
"  Warning: Failed to fetch " ++ PyStr.take 80 url ++ "... : " ++ exn_msg e.

(** One iteration of the loop: [Some r] when the function returns [r],
    [None] when the loop goes on. *)
Definition attempt_once (url : string) (retries delay attempt : nat)
  : M (option (option string)) :=
try_except
  (body <- urlopen_read url ;; ret (Some (Some body)))
  (fun e =>
     if (attempt <? retries - 1)%nat
     then sleep (delay * (attempt + 1))%nat ;;; ret None
     else print_stderr (warning url e) ;;; ret (Some None)).

(** The loop over [range(retries)]; a loop that runs out returns [None]
    as every Python function without a [return] does. *)
Fixpoint fetch_loop (url : string) (retries delay : nat) (attempts : list nat)
  : M (option string) :=
match attempts with
| [] => ret None
| attempt :: rest =>
    r <- attempt_once url retries delay attempt ;;
    match r with
    | Some v => ret v
    | None => fetch_loop url retries delay rest
    end
end.

(** [fetch_url(url, retries, delay)]; the defaults are [retries=3] and
    [delay=1], and no caller passes other values. *)
Definition fetch_url (url : string) (retries delay : nat) : M (option string) :=
fetch_loop url retries delay (seq 0 retries).

(** The number of requests among some events. *)
Definition requests (evs : list event) : nat :=
List.length (filter (fun ev => match ev with Request _ => true | _ => false end) evs).

(** [w'] is [w] after the events [evs]: the same network, the requests
    counted, the events recorded. *)
Definition extends (w w' : World) (evs : list event) : Prop :=
net w' = net w /\
calls w' = (calls w + requests evs)%nat /\
trace w' = (trace w ++ evs)%list.

End Fetch.

(* ================================================================== *)
(** * The renderer                                                      *)
(* ================================================================== *)

Module Renderer.

Import PyStr.

(** Insertion in an ascending list without repetition. *)
Fixpoint insert_uniq (y : string) (l : list string) : list string :=
match l with
| [] => [y]
| z :: r =>
    if String.eqb y z then l
    else if le y z then y :: l
    else z :: insert_uniq y r
end.

(** [sorted(set(ys))]: the distinct elements in ascending order. *)
Definition sorted_set (ys : list string) : list string :=
fold_right insert_uniq [] ys.

(** [(p["year"] for p in pubs if p.get("year"))]. *)
Definition nonempty_years (pubs : list dashboard_pub) : list string :=
filter truthy (map d_year pubs).

Definition years (pubs : list dashboard_pub) : list string :=
sorted_set (nonempty_years pubs).

(** The en dash U+2013 of the f-string, in UTF-8. *)
Definition en_dash : string :=
String (ascii_of_nat 226) (String (ascii_of_nat 128) (String (ascii_of_nat 147) "")).

(** [f"{years[0]}–{years[-1]}" if years else "N/A"]. *)
Definition year_range (pubs : list dashboard_pub) : string :=
match years pubs with
| [] => "N/A"
| y0 :: _ => y0 ++ en_dash ++ last (years pubs) y0
end.

(** [main]: the text it writes to the output file, given the template,
    the serialised data document, its [publications] array and the
    formatted date. *)
Definition main (template data_json : string) (pubs : list dashboard_pub)
  (update_date : string) : string :=
let html := replace "%%DATA%%" data_json template in
let html := replace "%%PUB_COUNT%%" (of_nat (List.length pubs)) html in
let html := replace "%%YEAR_RANGE%%" (year_range pubs) html in
let html := replace "%%UPDATE_DATE%%" update_date html in
html.

(** The two lines of [get_template()] that carry the placeholders (the
    first one from [via PubMed] on). *)
Definition template_lines : string :=
"via PubMed &mdash; %%PUB_COUNT%% publications (%%YEAR_RANGE%%) &mdash; Last updated: %%UPDATE_DATE%%
    const FULL_DATA = %%DATA%%;".

End Renderer.

(* ================================================================== *)
(** * Notions used to state the properties                              *)
(* ================================================================== *)

Module Spec.

Import PyStr.

(** A string lowercased and trimmed, as every key of the merge is. *)
Definition norm (s : string) : string := strip (lower s).

(** The identity key of a record: its normalised DOI if that is not
    empty, else its normalised title. *)
Definition identity_key (p : pub) : string := por (norm (doi p)) (norm (title p)).

(** The records of a list whose identity key is [k]. *)
Definition with_key (k : string) (l : list pub) : list pub :=
filter (fun x => String.eqb (identity_key x) k) l.

(** The records of a list whose normalised DOI is [d]. *)
Definition with_doi (d : string) (l : list pub) : list pub :=
filter (fun x => String.eqb (norm (doi x)) d) l.

(** What holds of the dict [merged] all along: no key twice, and every
    record stored under its own identity key, which is not empty. *)
Definition merge_inv (d : list (string * pub)) : Prop :=
NoDup (Dict.keys d) /\
Forall (fun kr => fst kr = identity_key (snd kr) /\ truthy (fst kr) = true) d.

(** [kw] occurs in [s] as a substring, letter case apart. *)
Definition occurs_ci (kw s : string) : Prop :=
exists a u b, s = a ++ u ++ b /\ lower u = lower kw.

(** Some keyword of the rule table occurs in [s], letter case apart. *)
Definition some_keyword_occurs (s : string) : Prop :=
exists topic kws kw,
  In (topic, kws) Collector.TOPIC_KEYWORDS /\ In kw kws /\ occurs_ci kw s.

(** The topics of the rule table with a keyword in [text], in the order
    of the table. *)
Definition matching_topics (text : string) : list string :=
map fst (filter (fun rule => Collector.any_keyword text (snd rule))
                Collector.TOPIC_KEYWORDS).

(** [a] may stand before [b] in the descending order of (year, title). *)
Definition desc_pair (a b : dashboard_pub) : Prop :=
lt (d_year b) (d_year a) = true \/
(d_year a = d_year b /\ le (d_title b) (d_title a) = true).

(** [a] may stand before [b] in ascending order. *)
Definition ascending (a b : string) : Prop := le a b = true.

(** The records with the sort key [k]. *)
Definition with_sort_key (k : string * string) (l : list dashboard_pub)
  : list dashboard_pub :=
filter (fun x => String.eqb (d_year x) (fst k) && String.eqb (d_title x) (snd k)) l.

(** A string made of white space only. *)
Fixpoint all_space (s : string) : bool :=
match s with
| EmptyString => true
| String c r => is_space c && all_space r
end.

(** A string whose first character is white space. *)
Definition starts_with_space (s : string) : bool :=
match s with
| EmptyString => false
| String c _ => is_space c
end.

(** A string whose last character is white space. *)
Fixpoint ends_with_space (s : string) : bool :=
match s with
| EmptyString => false
| String c EmptyString => is_space c
| String _ r => ends_with_space r
end.

(** A string without its last character. *)
Definition but_last (s : string) : string := take (String.length s - 1) s.

(** An [ArticleId] whose [IdType] is ["doi"]. *)
Definition is_doi_id (eid : Xml.element) : bool :=
match Xml.get_attr "IdType" eid with
| Some v => String.eqb v "doi"
| None => false
end.

(** The doi-typed [ArticleId] entries of an article, in document order. *)
Definition doi_entries (article : Xml.element) : list Xml.element :=
filter is_doi_id (Xml.findall_desc "ArticleId" article).

(** What a section with text contributes to the abstract. *)
Definition render_section (at_ : Xml.element) : string :=
if truthy (Parser.section_label at_)
then Parser.section_label at_ ++ ": " ++ Parser.section_text at_
else Parser.section_text at_.

(** The sections that are not skipped: those with text. *)
Definition kept_sections (abs_el : Xml.element) : list Xml.element :=
filter (fun at_ => truthy (Parser.section_text at_))
       (Xml.findall "AbstractText" abs_el).

(** The abstract rule read as: a labelled section is always rendered,
    and a section is left out only when it has neither a label nor
    text.  The parser does not follow this reading; it is stated here to
    be compared with it. *)
Definition render_labelled_always (at_ : Xml.element) : list string :=
let label := Parser.section_label at_ in
let text := Parser.section_text at_ in
if truthy label then [label ++ ": " ++ text]
else if truthy text then [text]
else [].

Definition abstract_labelled_always (abs_el : Xml.element) : string :=
join " " (flat_map render_labelled_always (Xml.findall "AbstractText" abs_el)).

End Spec.

(* ================================================================== *)
(** * Sample inputs                                                     *)
(* ================================================================== *)

Module Samples.

(** A record with the given title, year, DOI and abstract, all other keys
    absent. *)
Definition record (t y d a : string) : pub :=
mkPub "" t "" "" y [] "" 0 d [] [] a.

Definition pm_first : pub := record "Heart study" "2021" "10.1/x" "first abstract".

Definition pm_second : pub := record "Heart study, corrected" "2021" "10.1/X " "second abstract".

Definition web_copy : pub := record "Heart study" "2021" " 10.1/x" "web abstract".

(** A PubMed record without a DOI whose title reads like one. *)
Definition pm_doi_as_title : pub := record "10.1/x" "2021" "" "third abstract".

Definition pm_heart : pub := record "Heart study" "2023" "10.1/a" "from PubMed".

Definition web_heart : pub := record "Heart study" "2023" "" "from the web".

Definition keyless : pub := record "  " "2020" "" "no key".

Definition pm_untitled : pub := record "Lung function" "2020" "" "no DOI".

(** A title that ends in the word CT, with no abstract. *)
Definition ct_title : pub := record "Incidental findings on CT" "2022" "10.1/ct" "".

(** A title and an abstract that form a keyword only when run together. *)
Definition split_word : pub := record "hea" "2022" "10.1/sw" "rt".

Definition obesity_title : pub :=
record "Obesity and cardiovascular risk in the SCAPIS cohort" "2022" "10.1/ob" "".

Definition missing_year : pub := record "Sleep and diet" "" "10.1/my" "".

Definition web_missing_year : pub := record "Airway imaging" "" "" "".

(** An element with text and nothing else. *)
Definition leaf (tag text : string) : Xml.element :=
Xml.Element tag [] (Some text) [] None.

(** An element with children and nothing else. *)
Definition node (tag : string) (children : list Xml.element) : Xml.element :=
Xml.Element tag [] None children None.

(** An abstract of three sections: a labelled one without text, a
    labelled one with text in and around a child element, and one with
    text and no label. *)
Definition sample_abstract : Xml.element :=
node "Abstract"
  [ Xml.Element "AbstractText" [("Label", "BACKGROUND")] None [] None;
    Xml.Element "AbstractText" [("Label", "METHODS")] (Some " We ")
      [Xml.Element "i" [] (Some "did") [] (Some " it. ")] None;
    Xml.Element "AbstractText" [] (Some "Plain text.") [] None ].

Definition sample_id_list : Xml.element :=
node "ArticleIdList"
  [ Xml.Element "ArticleId" [("IdType", "pubmed")] (Some "123") [] None;
    Xml.Element "ArticleId" [("IdType", "doi")] (Some "10.1/first") [] None;
    Xml.Element "ArticleId" [("IdType", "pii")] (Some "S0") [] None;
    Xml.Element "ArticleId" [("IdType", "doi")] (Some "10.1/last") [] None ].

(** A [PubmedArticle] with two doi-typed identifiers. *)
Definition sample_article : Xml.element :=
node "PubmedArticle"
  [ node "MedlineCitation"
      [ leaf "PMID" "123";
        node "Article"
          [ node "Journal"
              [ node "JournalIssue" [node "PubDate" [leaf "MedlineDate" "2019 Mar-Apr"]];
                leaf "Title" "Journal of Samples" ];
            leaf "ArticleTitle" "A sample";
            sample_abstract;
            node "AuthorList"
              [ node "Author" [leaf "LastName" "Doe"; leaf "Initials" "J"];
                node "Author" [leaf "Initials" "X"] ] ] ];
    node "PubmedData" [sample_id_list] ].

(** A [PubmedArticle] without a [MedlineCitation]. *)
Definition broken_article : Xml.element :=
node "PubmedArticle" [node "PubmedData" [sample_id_list]].

(** A network on which the first two requests fail. *)
Definition flaky_world : Fetch.World :=
Fetch.mkWorld
  (fun k url => if (k <? 2)%nat then inr (Fetch.Exception "timed out")
                else inl ("body of " ++ url))
  0 [].

(** A network on which every request fails. *)
Definition dead_world : Fetch.World :=
Fetch.mkWorld (fun k url => inr (Fetch.Exception "unreachable")) 0 [].

(** [json.dumps({"publications": []})]. *)
Definition empty_document : string :=
let quote := String (ascii_of_nat 34) "" in
"{" ++ quote ++ "publications" ++ quote ++ ": []}".

(** A dashboard record with the given year. *)
Definition of_year (y : string) : dashboard_pub :=
mkDash "A title" y "" "" 0 "" ["Other"] "" "" "".

End Samples.

(* ================================================================== *)
(** * fetch_pubmed_details: batches of identifiers                     *)
(* ================================================================== *)

Module Details.

Import PyStr Xml Fetch.

(** The characters that [urllib.parse.quote] never escapes: letters,
    digits and [_.-~]. *)
Definition is_unreserved (c : ascii) : bool :=
let n := nat_of_ascii c in
(((48 <=? n) && (n <=? 57)) || ((65 <=? n) && (n <=? 90)) ||
 ((97 <=? n) && (n <=? 122)) ||
 (n =? 95) || (n =? 46) || (n =? 45) || (n =? 126))%nat.

(** An upper-case hexadecimal digit. *)
Definition hex_digit (n : nat) : ascii :=
if (n <? 10)%nat then ascii_of_nat (48 + n) else ascii_of_nat (55 + n).

(** [quote_plus] on one character: kept, or the space as a plus sign, or
    a percent sign and two hexadecimal digits. *)
Definition quote_plus_char (c : ascii) : string :=
if is_unreserved c then String c ""
else if Ascii.eqb c " " then "+"
else String "%" (String (hex_digit (nat_of_ascii c / 16))
                        (String (hex_digit (nat_of_ascii c mod 16)) "")).

(** [urllib.parse.quote_plus(s, safe='')]. *)
Fixpoint quote_plus (s : string) : string :=
match s with
| EmptyString => EmptyString
| String c r => quote_plus_char c ++ quote_plus r
end.

(** [urllib.parse.urlencode(params)] for a dict of strings, in the order
    of the dict. *)
Definition urlencode (params : list (string * string)) : string :=
join "&" (map (fun kv => quote_plus (fst kv) ++ "=" ++ quote_plus (snd kv)) params).

Definition PUBMED_FETCH : string :=
"https://eutils.ncbi.nlm.nih.gov/entrez/eutils/efetch.fcgi".

(** The URL requested for one batch. *)
Definition details_url (batch : list string) : string :=
PUBMED_FETCH ++ "?" ++
urlencode [("db", "pubmed"); ("id", join "," batch); ("retmode", "xml")].

(** [range(start, stop, step)] for a positive [step], at most [fuel]
    elements. *)
Fixpoint range_from (fuel start stop step : nat) : list nat :=
match fuel with
| 0 => []
| S f =>
    if (start <? stop)%nat then start :: range_from f (start + step) stop step
    else []
end.

(** [range(0, stop, step)] for a positive [step]. *)
Definition range_step (stop step : nat) : list nat :=
range_from stop 0 stop step.

(** [l[i:j]] for [i <= j]. *)
Definition slice {A : Type} (i j : nat) (l : list A) : list A :=
firstn (j - i) (skipn i l).

(** The batches of the loop: [pmids[i:i + batch_size]] for [i] in
    [range(0, len(pmids), batch_size)]. *)
Definition batches (pmids : list string) (batch_size : nat) : list (list string) :=
map (fun i => slice i (i + batch_size) pmids)
    (range_step (List.length pmids) batch_size).

(** The state of a run: the world of [fetch_url] and, for every
    [time.sleep(0.5)], the number of requests made before it. *)
Record Run : Type := mkRun {
  world : World;
  pauses : list nat
}.

(** Computations on a run that may raise. *)
Definition DM (A : Type) : Type := Run -> (A + exn) * Run.

Definition dret {A : Type} (a : A) : DM A := fun r => (inl a, r).

Definition dbind {A B : Type} (m : DM A) (k : A -> DM B) : DM B :=
fun r =>
  match m r with
  | (inl a, r') => k a r'
  | (inr e, r') => (inr e, r')
  end.

Definition draise {A : Type} (e : exn) : DM A := fun r => (inr e, r).

(** A computation of [fetch_url] run on the world of the run. *)
Definition lift {A : Type} (m : M A) : DM A :=
fun r =>
  match m (world r) with
  | (res, w') => (res, mkRun w' (pauses r))
  end.

(** [time.sleep(0.5)], the pause between batches. *)
Definition rate_limit_pause : DM unit :=
fun r => (inl tt, mkRun (world r) (pauses r ++ [calls (world r)])).

(** [if pub: publications.append(pub)]. *)
Definition add_article (publications : list pub) (article : element) : list pub :=
match Parser.parse_pubmed_article article with
| Some pub => (publications ++ [pub])%list
| None => publications
end.

(** The call [parse_pubmed_article(article)] with its effect: when
    [medline.find] raises, the handler prints its line on standard error
    and returns [None]; otherwise nothing is printed. *)
Definition parse_pubmed_article_io (article : element) : M (option pub) :=
match Parser.parse_warning article with
| Some line => bind (print_stderr line) (fun _ => ret None)
| None => ret (Parser.parse_pubmed_article article)
end.

(** The inner loop, [for article in root.findall(".//PubmedArticle")]:
    every article is parsed, and the records of those that parse are
    appended. *)
Fixpoint parse_all (publications : list pub) (articles : list element)
  : DM (list pub) :=
match articles with
| [] => dret publications
| article :: rest =>
    dbind (lift (parse_pubmed_article_io article)) (fun pub =>
    parse_all (match pub with
               | Some pub => (publications ++ [pub])%list
               | None => publications
               end) rest)
end.

Section WithXmlParser.

(** [ET.fromstring]: the root element, or the [ParseError] raised. *)
Variable fromstring : string -> element + exn.

(** The body of the loop for one batch; [publications] is the list so
    far.  A batch that could not be fetched (or came back empty) is
    passed over without a pause; an XML error is not caught. *)
Definition fetch_batch (publications : list pub) (batch : list string)
  : DM (list pub) :=
dbind (lift (fetch_url (details_url batch) 3 1)) (fun xml_data =>
  match xml_data with
  | None => dret publications
  | Some data =>
      if truthy data then
        match fromstring data with
        | inr e => draise e
        | inl root =>
            dbind (parse_all publications (findall_desc "PubmedArticle" root))
                  (fun publications' =>
            dbind rate_limit_pause (fun _ => dret publications'))
        end
      else dret publications
  end).

(** The loop over the batches. *)
Fixpoint fetch_batches (publications : list pub) (bs : list (list string))
  : DM (list pub) :=
match bs with
| [] => dret publications
| batch :: rest =>
    dbind (fetch_batch publications batch) (fun publications' =>
    fetch_batches publications' rest)
end.

(** [fetch_pubmed_details(pmids, batch_size)]; [range] raises a
    [ValueError] for a step of zero. *)
Definition fetch_pubmed_details (pmids : list string) (batch_size : nat)
  : DM (list pub) :=
if (batch_size =? 0)%nat
then draise (Exception "range() arg 3 must not be zero")
else fetch_batches [] (batches pmids batch_size).

End WithXmlParser.

End Details.

(* ================================================================== *)
(** * JSON values, fetch_pubmed_ids and try_scapis_website             *)
(* ================================================================== *)

Module Json.

(** What [json.loads] returns: [None], a bool, an int, a float (given by
    its [repr], which tells floats apart), a str, a list, or a dict whose
    entries are in document order, each key once. *)
Inductive json : Type :=
| JNull
| JBool (b : bool)
| JInt (z : Z)
| JFloat (repr : string)
| JStr (s : string)
| JList (l : list json)
| JDict (d : list (string * json)).

(** [bool(v)]. *)
Definition truthy (v : json) : bool :=
match v with
| JNull => false
| JBool b => b
| JInt z => negb (Z.eqb z 0)
| JFloat repr => negb (String.eqb repr "0.0" || String.eqb repr "-0.0")
| JStr s => PyStr.truthy s
| JList l => match l with [] => false | _ :: _ => true end
| JDict d => match d with [] => false | _ :: _ => true end
end.

(** [a or b]. *)
Definition por (a b : json) : json := if truthy a then a else b.

(** [d.get(key, default)] on the entries of a dict. *)
Definition get (key : string) (default : json) (d : list (string * json)) : json :=
match Dict.get key d with
| Some v => v
| None => default
end.

(** [v.get(key, default)]: [None] stands for the [AttributeError] raised
    when [v] is not a dict. *)
Definition get_attr (key : string) (default : json) (v : json) : option json :=
match v with
| JDict d => Some (get key default d)
| _ => None
end.

(** [str(z)] for an int. *)
Definition str_int (z : Z) : string :=
if (z <? 0)%Z then "-" ++ PyStr.of_nat (Z.abs_nat z) else PyStr.of_nat (Z.to_nat z).

(** [l[i]] for an int index: [None] stands for the [IndexError]. *)
Definition index_int (l : list json) (i : Z) : option json :=
let n := Z.of_nat (List.length l) in
if ((0 <=? i) && (i <? n))%Z then nth_error l (Z.to_nat i)
else if ((- n <=? i) && (i <? 0))%Z then nth_error l (Z.to_nat (n + i))
else None.

(** [l[key]]: a bool counts as the int 0 or 1; [None] stands for the
    [TypeError] of any other kind of index, or the [IndexError]. *)
Definition index (l : list json) (key : json) : option json :=
match key with
| JInt i => index_int l i
| JBool true => index_int l 1
| JBool false => index_int l 0
| _ => None
end.

End Json.

Module Website.

Import Json Fetch.

Definition PUBMED_SEARCH : string :=
"https://eutils.ncbi.nlm.nih.gov/entrez/eutils/esearch.fcgi".

Definition SCAPIS_PAGE_DATA : string :=
"https://www.scapis.org/page-data/publications/page-data.json".

(** The default [query] of [fetch_pubmed_ids]. *)
Definition default_query : string :=
let quote := String (ascii_of_nat 34) "" in
"(" ++ quote ++ "Swedish CArdioPulmonary bioImage Study" ++ quote ++
" OR SCAPIS[Title/Abstract])".

(** The URL requested by [fetch_pubmed_ids]. *)
Definition search_url (query : string) : string :=
PUBMED_SEARCH ++ "?" ++
Details.urlencode [("db", "pubmed"); ("term", query); ("retmax", "5000");
                   ("retmode", "json")].

(** [len(v)] can be taken: [v] is a str, a list or a dict. *)
Definition has_len (v : json) : bool :=
match v with
| JStr _ | JList _ | JDict _ => true
| _ => false
end.

(** The dict built for one node of the website by
    [try_scapis_website]; [authors] is always the empty list. *)
Record web_pub : Type := mkWeb {
  w_title : json;
  w_journal : json;
  w_year : string;
  w_first_author : json;
  w_doi : json;
  w_pmid : json;
  w_abstract : json
}.

Section WithLibraries.

(** [json.loads]: the value, or the [JSONDecodeError] raised. *)
Variable loads : string -> json + exn.

(** [str(v)] for a list or a dict. *)
Variable repr_container : json -> string.

(** [str(e)] for the exception that the [try] block of
    [try_scapis_website] raises on a body that [json.loads] accepts: an
    [AttributeError], [TypeError] or [IndexError] in the wording of the
    interpreter. *)
Variable raised_text : string -> string.

(** [str(v)]. *)
Definition py_str (v : json) : string :=
match v with
| JNull => "None"
| JBool true => "True"
| JBool false => "False"
| JInt z => str_int z
| JFloat repr => repr
| JStr s => s
| JList _ | JDict _ => repr_container v
end.

(** [fetch_pubmed_ids(query)]: the value under [idlist]; the errors of
    [json.loads], of [.get] on a value that is not a dict and of [len] on
    a value without length are not caught. *)
Definition fetch_pubmed_ids (query : string) : M json :=
bind (fetch_url (search_url query) 3 1) (fun data =>
  match data with
  | None => ret (JList [])
  | Some text =>
      if PyStr.truthy text then
        match loads text with
        | inr e => raise e
        | inl result =>
            match get_attr "esearchresult" (JDict []) result with
            | None => raise (Exception "AttributeError")
            | Some esearchresult =>
                match get_attr "idlist" (JList []) esearchresult with
                | None => raise (Exception "AttributeError")
                | Some ids =>
                    if has_len ids then ret ids
                    else raise (Exception "TypeError")
                end
            end
        end
      else ret (JList [])
  end).

(** [[e.get("node", {}) for e in edges]]: [None] when iterating [edges]
    or calling [.get] on an element raises. *)
Definition edge_nodes (edges : json) : option (list json) :=
match edges with
| JList l =>
    fold_right (fun e acc =>
                  match get_attr "node" (JDict []) e, acc with
                  | Some n, Some ns => Some (n :: ns)
                  | _, _ => None
                  end) (Some []) l
| JDict [] => Some []
| JStr EmptyString => Some []
| _ => None
end.

(** The three tests made on a value of the payload: [Some (Some raw)]
    when it has one of the shapes and [pubs_raw] becomes [raw],
    [Some None] when it has none, [None] when the test raises. *)
Definition probe_value (val : json) : option (option json) :=
match val with
| JDict d =>
    if Dict.mem "nodes" d then Some (Some (get "nodes" JNull d))
    else if Dict.mem "edges" d then
      match edge_nodes (get "edges" JNull d) with
      | Some nodes => Some (Some (JList nodes))
      | None => None
      end
    else Some None
| JList _ => Some (Some val)
| _ => Some None
end.

(** The loop [for key in result], on the keys still to come: [pubs_raw]
    when it ends, [None] when it raises. *)
Fixpoint probe_loop (lookup : json -> option json) (keys : list json)
  : option json :=
match keys with
| [] => Some (JList [])
| key :: rest =>
    match lookup key with
    | None => None
    | Some val =>
        match probe_value val with
        | None => None
        | Some (Some raw) => Some raw
        | Some None => probe_loop lookup rest
        end
    end
end.

(** The loop on [result]: over the keys of a dict, the elements of a
    list (used as indices), the characters of a str (indexing a str with
    a str raises); any other value is not iterable. *)
Definition probe (result : json) : option json :=
match result with
| JDict d => probe_loop (fun key => match key with
                                    | JStr k => Dict.get k d
                                    | _ => None
                                    end)
                        (map JStr (Dict.keys d))
| JList l => probe_loop (index l) l
| JStr EmptyString => Some (JList [])
| _ => None
end.

(** The dict literal of the second loop, for a node that is a dict. *)
Definition node_pub (p : list (string * json)) : web_pub :=
mkWeb (por (get "title" (JStr "") p) (get "name" (JStr "") p))
      (por (get "journal" (JStr "") p) (get "publication" (JStr "") p))
      (PyStr.por (py_str (get "year" (JStr "") p))
                 (PyStr.take 4 (py_str (get "date" (JStr "") p))))
      (por (get "firstAuthor" (JStr "") p) (get "author" (JStr "") p))
      (por (get "doi" (JStr "") p) (get "link" (JStr "") p))
      (get "pmid" (JStr "") p)
      (get "abstract" (JStr "") p).

(** One iteration of the second loop: [None] when [p.get] raises. *)
Definition add_node (publications : option (list web_pub)) (p : json)
  : option (list web_pub) :=
match publications, p with
| Some pubs, JDict d =>
    let pub := node_pub d in
    if truthy (w_title pub) then Some (pubs ++ [pub])%list else Some pubs
| _, _ => None
end.

(** The second loop, [for p in pubs_raw], for a truthy [pubs_raw]: a
    non-empty dict or str is iterated but its elements have no [.get];
    a number or a bool is not iterable. *)
Definition collect (pubs_raw : json) : option (list web_pub) :=
match pubs_raw with
| JList l => fold_left add_node l (Some [])
| _ => None
end.

(** The [try] block: [None] when it raises. *)
Definition parse_page (text : string) : option (list web_pub) :=
match loads text with
| inr _ => None
| inl page_data =>
    match get_attr "result" (JDict []) page_data with
    | None => None
    | Some result_ =>
        match get_attr "data" (JDict []) result_ with
        | None => None
        | Some result =>
            match probe result with
            | None => None
            | Some pubs_raw =>
                if truthy pubs_raw then collect pubs_raw else Some []
            end
        end
    end
end.

(** The line printed on standard error by the handler of
    [try_scapis_website] for a body on which the [try] block raises. *)
Definition page_warning (text : string) : string :=
"  Warning: Failed to parse SCAPIS data: " ++
match loads text with
| inr e => exn_msg e
| inl _ => raised_text text
end.

(** [try_scapis_website()]: every exception of the [try] block is turned
    into a warning on standard error and the empty list. *)
Definition try_scapis_website : M (list web_pub) :=
bind (fetch_url SCAPIS_PAGE_DATA 3 1) (fun data =>
  match data with
  | None => ret []
  | Some text =>
      if PyStr.truthy text then
        match parse_page text with
        | Some publications => ret publications
        | None => bind (print_stderr (page_warning text)) (fun _ => ret [])
        end
      else ret []
  end).

End WithLibraries.

End Website.

(* ================================================================== *)
(** * Further notions                                                   *)
(* ================================================================== *)

Module MoreSpec.

Import PyStr.

(** An [Author] element with a non-empty [LastName]. *)
Definition has_last_name (auth : Xml.element) : bool :=
truthy (Xml.findtext "LastName" "" auth).

(** The display string of an author: last name, a space, initials,
    trimmed. *)
Definition display_name (auth : Xml.element) : string :=
strip (Xml.findtext "LastName" "" auth ++ " " ++ Xml.findtext "Initials" "" auth).

(** [y] is the leftmost match of the pattern [20\d{2}] in [s]. *)
Definition first_year_in (s y : string) : Prop :=
exists pre post,
  s = pre ++ y ++ post /\ String.length y = 4 /\ Parser.year_at y = true /\
  forall a b, pre = a ++ b -> b <> "" -> Parser.year_at (b ++ y ++ post) = false.

(** The pattern [20\d{2}] matches nowhere in [s]. *)
Definition no_year_in (s : string) : Prop :=
forall a b, s = a ++ b -> Parser.year_at b = false.

(** The seconds slept in a run of [fetch_url]. *)
Fixpoint total_sleep (evs : list Fetch.event) : nat :=
match evs with
| [] => 0
| Fetch.Sleep n :: r => n + total_sleep r
| _ :: r => total_sleep r
end.

(** The warnings printed in a run of [fetch_url]. *)
Fixpoint warnings (evs : list Fetch.event) : nat :=
match evs with
| [] => 0
| Fetch.Warn _ :: r => S (warnings r)
| _ :: r => warnings r
end.

(** The records of the articles of a document that parse, in document
    order. *)
Definition parsed_articles (root : Xml.element) : list pub :=
flat_map (fun article =>
            match Parser.parse_pubmed_article article with
            | Some pub => [pub]
            | None => []
            end)
         (Xml.findall_desc "PubmedArticle" root).

(** What a run of [fetch_pubmed_details] returns when request number
    [k], [k + 1], ... answers the first, second, ... batch at once: the
    records of each answer that is a document, in the order of the
    batches. *)
Fixpoint answered_at_once (fromstring : string -> Xml.element + Fetch.exn)
  (net : nat -> string -> string + Fetch.exn) (k : nat)
  (bs : list (list string)) : list pub :=
match bs with
| [] => []
| batch :: rest =>
    (match net k (Details.details_url batch) with
     | inl body =>
         match fromstring body with
         | inl root => parsed_articles root
         | inr _ => []
         end
     | inr _ => []
     end ++ answered_at_once fromstring net (S k) rest)%list
end.

(** A JSON value that is a dict. *)
Definition is_dict (v : Json.json) : bool :=
match v with
| Json.JDict _ => true
| _ => false
end.

(** The entries of a JSON value that is a dict. *)
Definition entries (v : Json.json) : list (string * Json.json) :=
match v with
| Json.JDict d => d
| _ => []
end.

(** The page-data document whose payload has the one field [key] with
    the list [nodes] under ["nodes"]. *)
Definition gatsby_page (key : string) (nodes : list Json.json) : Json.json :=
Json.JDict [("result",
  Json.JDict [("data",
    Json.JDict [(key, Json.JDict [("nodes", Json.JList nodes)])])])].

(** The footer of [get_template()], from [via PubMed] on: the one place
    of the template with the count, year-range and date placeholders. *)
Definition footer_line : string :=
"via PubMed &mdash; %%PUB_COUNT%% publications (%%YEAR_RANGE%%) &mdash; Last updated: %%UPDATE_DATE%%".

(** Four records, one of them without a year. *)
Definition four_records : list dashboard_pub :=
map (fun y => mkDash "A title" y "" "" 0 "" ["Other"] "" "" "")
    ["2021"; ""; "2019"; "2023"].

(** [a] may stand before [b] in the descending order of (year, title),
    on the records given to [build_dashboard_data]. *)
Definition desc_input (a b : pub) : Prop :=
lt (year b) (year a) = true \/
(year a = year b /\ le (title b) (title a) = true).

(** The warnings printed while some articles are parsed, in order. *)
Definition article_events (articles : list Xml.element) : list Fetch.event :=
flat_map (fun article =>
            match Parser.parse_warning article with
            | Some line => [Fetch.Warn line]
            | None => []
            end)
         articles.

(** The warnings printed while the articles of a document are parsed, in
    document order. *)
Definition parse_events (root : Xml.element) : list Fetch.event :=
article_events (Xml.findall_desc "PubmedArticle" root).

(** An article without [MedlineCitation]. *)
Definition lacks_citation (article : Xml.element) : bool :=
match Xml.find_desc "MedlineCitation" article with
| None => true
| Some _ => false
end.

(** The number of [PubmedArticle] elements of a document that have no
    [MedlineCitation]. *)
Definition unparsable (root : Xml.element) : nat :=
List.length (filter lacks_citation (Xml.findall_desc "PubmedArticle" root)).

(** A world with some more events recorded. *)
Definition logged (evs : list Fetch.event) (w : Fetch.World) : Fetch.World :=
Fetch.mkWorld (Fetch.net w) (Fetch.calls w) (Fetch.trace w ++ evs).

(** The number of such elements in the answers to the batches, when
    request number [k], [k + 1], ... answers the first, second, ... batch
    at once. *)
Fixpoint unparsable_at_once (fromstring : string -> Xml.element + Fetch.exn)
  (net : nat -> string -> string + Fetch.exn) (k : nat)
  (bs : list (list string)) : nat :=
match bs with
| [] => 0
| batch :: rest =>
    match net k (Details.details_url batch) with
    | inl body =>
        match fromstring body with
        | inl root => unparsable root
        | inr _ => 0
        end
    | inr _ => 0
    end + unparsable_at_once fromstring net (S k) rest
end.

End MoreSpec.

(* ================================================================== *)
(** * Further sample inputs                                             *)
(* ================================================================== *)

Module MoreSamples.

Import Samples.

(** A website record with a DOI of its own, whose title differs from
    that of [pm_untitled] only after the 50th character. *)
Definition long_title : string :=
"Lung function and airway dimensions in the general population: ".

Definition pm_long : pub := record (long_title ++ "a cohort study") "2020" "" "".

Definition web_long : pub :=
record (long_title ++ "a different paper") "2021" "10.1/other" "".

Definition web_lung : pub := record "LUNG FUNCTION " "2020" "10.1/lung" "from the web".

(** [Samples.ct_title] in capitals. *)
Definition ct_title_upper : pub := record "INCIDENTAL FINDINGS ON CT" "2022" "10.1/ct" "".

(** [Samples.ct_title] with an abstract. *)
Definition ct_with_abstract : pub :=
record "Incidental findings on CT" "2022" "10.1/ct" "Smoking and lung function.".

(** An XML parser that knows one document. *)
Definition toy_fromstring (data : string) : Xml.element + Fetch.exn :=
if String.eqb data "<set/>"
then inl (node "PubmedArticleSet" [sample_article; broken_article])
else inr (Fetch.Exception "syntax error").

(** A network that answers every request with that document. *)
Definition xml_world : Fetch.World :=
Fetch.mkWorld (fun k url => inl "<set/>") 0 [].

(** A network that answers every request with something else. *)
Definition garbage_world : Fetch.World :=
Fetch.mkWorld (fun k url => inl "not xml") 0 [].

(** Three nodes: one with a title, one with a name, one with neither. *)
Definition page_nodes : list Json.json :=
[Json.JDict [("title", Json.JStr "Airway imaging"); ("year", Json.JInt 2021)];
 Json.JDict [("name", Json.JStr "Sleep and diet"); ("date", Json.JStr "2020-05-01")];
 Json.JDict [("year", Json.JInt 2019)]].

(** A field of a payload with nodes. *)
Definition later_field : list (string * Json.json) :=
[("allPublications", Json.JDict [("nodes", Json.JList page_nodes)])].

(** The nodes above followed by one that is a string. *)
Definition mixed_nodes : list Json.json :=
(page_nodes ++ [Json.JStr "see the archive"])%list.

(** A JSON parser that knows four documents. *)
Definition toy_loads (text : string) : Json.json + Fetch.exn :=
if String.eqb text "page"
then inl (MoreSpec.gatsby_page "allPublications" page_nodes)
else if String.eqb text "mixed"
then inl (MoreSpec.gatsby_page "allPublications" mixed_nodes)
else if String.eqb text "list" then inl (Json.JList [])
else if String.eqb text "empty first"
then inl (Json.JDict [("result",
            Json.JDict [("data",
              Json.JDict ([("site", Json.JDict [("title", Json.JStr "SCAPIS")]);
                           ("drafts", Json.JList [])] ++ later_field))])])
else inr (Fetch.Exception "Expecting value").

(** The wording of the interpreter for the error met on a body. *)
Definition toy_raised (text : string) : string :=
if String.eqb text "mixed" then "'str' object has no attribute 'get'"
else "'list' object has no attribute 'get'".

(** A network that answers every request with the document of mixed
    nodes. *)
Definition mixed_world : Fetch.World :=
Fetch.mkWorld (fun k url => inl "mixed") 0 [].

(** [str] of a list or a dict, opaque here. *)
Definition toy_repr (v : Json.json) : string := "<container>".

(** A network that answers every request with the page document. *)
Definition page_world : Fetch.World :=
Fetch.mkWorld (fun k url => inl "page") 0 [].

(** A network that answers every request with a JSON list. *)
Definition list_world : Fetch.World :=
Fetch.mkWorld (fun k url => inl "list") 0 [].

(** A [PubmedArticle] whose first [MedlineCitation] has no [Article]
    child and whose second one has. *)
Definition shadowed_article : Xml.element :=
node "PubmedArticle"
  [ node "MedlineCitation" [leaf "PMID" "7"];
    node "MedlineCitation"
      [ leaf "PMID" "8"; node "Article" [leaf "ArticleTitle" "Hidden"] ] ].

End MoreSamples.

(* ================================================================== *)
(** * Facts about the string primitives                                 *)
(* ================================================================== *)

Module PyStrFacts.

Import PyStr.

Lemma truthy_true (s : string) : truthy s = true <-> s <> "".
Proof.
destruct s; simpl; split; intro H; congruence.
Qed.

Lemma truthy_false (s : string) : truthy s = false <-> s = "".
Proof.
destruct s; simpl; split; intro H; congruence.
Qed.

Lemma por_empty_r (a : string) : por a "" = a.
Proof.
destruct a; reflexivity.
Qed.

Lemma por_truthy_l (a b : string) : truthy a = true -> por a b = a.
Proof.
unfold por; intros ->; reflexivity.
Qed.

Lemma por_falsy_l (a b : string) : truthy a = false -> por a b = b.
Proof.
unfold por; intros ->; reflexivity.
Qed.

Lemma truthy_por (a b : string) : truthy (por a b) = truthy a || truthy b.
Proof.
unfold por; destruct (truthy a) eqn:E; simpl; auto.
Qed.

End PyStrFacts.

(* ================================================================== *)
(** * Facts about insertion-ordered dictionaries                        *)
(* ================================================================== *)

Module DictFacts.

Section Facts.
Context {V : Type}.
Implicit Types (d : list (string * V)) (k : string) (v : V).

Lemma mem_In_keys k d : Dict.mem k d = true <-> In k (Dict.keys d).
Proof.
induction d as [|[k0 w] r IH]; simpl.
- split; [discriminate | tauto].
- rewrite orb_true_iff, IH, String.eqb_eq; tauto.
Qed.

Lemma mem_false_keys k d : Dict.mem k d = false <-> ~ In k (Dict.keys d).
Proof.
rewrite <- mem_In_keys; destruct (Dict.mem k d); split; congruence.
Qed.

Lemma set_fresh k v d : Dict.mem k d = false -> Dict.set k v d = (d ++ [(k, v)])%list.
Proof.
induction d as [|[k0 w] r IH]; simpl; intro H; [reflexivity|].
apply orb_false_iff in H as [H1 H2]; rewrite H1, IH by assumption; reflexivity.
Qed.

Lemma keys_set_present k v d : Dict.mem k d = true -> Dict.keys (Dict.set k v d) = Dict.keys d.
Proof.
induction d as [|[k0 w] r IH]; simpl; intro H; [discriminate|].
destruct (String.eqb k0 k) eqn:E; simpl; [reflexivity|].
simpl in H; rewrite IH by assumption; reflexivity.
Qed.

Lemma keys_set k v d :
  Dict.keys (Dict.set k v d) = if Dict.mem k d then Dict.keys d else (Dict.keys d ++ [k])%list.
Proof.
destruct (Dict.mem k d) eqn:E.
- apply keys_set_present; assumption.
- rewrite set_fresh by assumption; unfold Dict.keys; rewrite map_app; reflexivity.
Qed.

Lemma mem_set k k' v d : Dict.mem k (Dict.set k' v d) = String.eqb k' k || Dict.mem k d.
Proof.
induction d as [|[k0 w] r IH]; simpl.
- rewrite orb_false_r; reflexivity.
- destruct (String.eqb k0 k') eqn:E; simpl.
  + apply String.eqb_eq in E; subst k0.
    destruct (String.eqb k' k); reflexivity.
  + rewrite IH. destruct (String.eqb k0 k), (String.eqb k' k); reflexivity.
Qed.

Lemma In_set k v k' v' d :
  In (k, v) (Dict.set k' v' d) -> (k = k' /\ v = v') \/ In (k, v) d.
Proof.
induction d as [|[k0 w] r IH]; simpl.
- intros [H|[]]; inversion H; auto.
- destruct (String.eqb k0 k') eqn:E; simpl.
  + apply String.eqb_eq in E; subst k0.
    intros [H|H]; [inversion H; auto | auto].
  + intros [H|H]; [auto | destruct (IH H); auto].
Qed.

Lemma NoDup_keys_set k v d : NoDup (Dict.keys d) -> NoDup (Dict.keys (Dict.set k v d)).
Proof.
intro H; rewrite keys_set; destruct (Dict.mem k d) eqn:E; [assumption|].
apply NoDup_app; [assumption | repeat constructor; intros [] | ].
intros x Hx [<-|[]]. apply mem_false_keys in E; contradiction.
Qed.

Lemma get_set k k' v d :
  Dict.get k (Dict.set k' v d) = if String.eqb k' k then Some v else Dict.get k d.
Proof.
induction d as [|[k0 w] r IH]; simpl.
- reflexivity.
- destruct (String.eqb k0 k') eqn:E; simpl.
  + apply String.eqb_eq in E; subst k0. destruct (String.eqb k' k); reflexivity.
  + rewrite IH. destruct (String.eqb k0 k) eqn:E1, (String.eqb k' k) eqn:E2; try reflexivity.
    apply String.eqb_eq in E1, E2; subst.
    rewrite String.eqb_refl in E; discriminate.
Qed.

Lemma get_In k v d : Dict.get k d = Some v -> In (k, v) d.
Proof.
induction d as [|[k0 w] r IH]; simpl; [discriminate|].
destruct (String.eqb k0 k) eqn:E.
- apply String.eqb_eq in E; subst; intros [= ->]; auto.
- auto.
Qed.

Lemma get_mem k d : Dict.mem k d = true <-> exists v, Dict.get k d = Some v.
Proof.
induction d as [|[k0 w] r IH]; simpl.
- split; [discriminate | intros [? ?]; discriminate].
- destruct (String.eqb k0 k); simpl; [split; eauto | assumption].
Qed.

End Facts.

End DictFacts.

(* ================================================================== *)
(** * The merge                                                         *)
(* ================================================================== *)

Module MergeFacts.

Import PyStr Collector Spec PyStrFacts DictFacts.

Lemma primary_key_identity (p : pub) : primary_key p = identity_key p.
Proof. reflexivity. Qed.

(** Reads the key of the first loop as the identity key. *)
Ltac as_identity_key :=
  repeat match goal with
         | |- context [primary_key ?p] => change (primary_key p) with (identity_key p)
         end.

Lemma doi_key_norm (p : pub) : doi_key p = norm (doi p).
Proof. unfold doi_key; rewrite por_empty_r; reflexivity. Qed.

Lemma title_key_norm (p : pub) : title_key p = norm (title p).
Proof. unfold title_key; rewrite por_empty_r; reflexivity. Qed.

Lemma secondary_key_identity (p : pub) : por (doi_key p) (title_key p) = identity_key p.
Proof. rewrite doi_key_norm, title_key_norm; reflexivity. Qed.

Lemma identity_key_of_doi (p : pub) :
  truthy (norm (doi p)) = true -> identity_key p = norm (doi p).
Proof. intro H; unfold identity_key; apply por_truthy_l; assumption. Qed.

Lemma fuzzy_loop_no_title (existing : list string) : fuzzy_loop "" existing = false.
Proof. induction existing; simpl; auto. Qed.

(** The second loop either leaves the state alone or appends the record
    under its identity key, which is then new and not empty. *)
Lemma add_secondary_cases (st : list (string * pub) * nat) (p : pub) :
  add_secondary st p = st \/
  (Dict.mem (identity_key p) (fst st) = false /\
   truthy (identity_key p) = true /\
   add_secondary st p = ((fst st ++ [(identity_key p, p)])%list, S (snd st))).
Proof.
destruct st as [merged added]; unfold add_secondary.
rewrite secondary_key_identity.
destruct (truthy (doi_key p)) eqn:Hd; simpl.
- destruct (Dict.mem (doi_key p) merged) eqn:Hm; simpl; [left; reflexivity|].
  destruct (truthy (title_key p) && Dict.mem (title_key p) merged); [left; reflexivity|].
  destruct (fuzzy_loop (title_key p) (Dict.keys merged)); simpl; [left; reflexivity|].
  destruct (truthy (identity_key p)) eqn:Hk; [|left; reflexivity].
  right. rewrite doi_key_norm in Hd, Hm.
  rewrite (identity_key_of_doi p Hd) in *.
  rewrite set_fresh by assumption. auto.
- destruct (truthy (title_key p)) eqn:Ht; simpl.
  + destruct (Dict.mem (title_key p) merged) eqn:Hm; [left; reflexivity|].
    destruct (fuzzy_loop (title_key p) (Dict.keys merged)); simpl; [left; reflexivity|].
    destruct (truthy (identity_key p)) eqn:Hk; [|left; reflexivity].
    right. rewrite doi_key_norm in Hd. rewrite title_key_norm in Hm.
    assert (E : identity_key p = norm (title p))
      by (unfold identity_key; apply por_falsy_l; assumption).
    rewrite E in *. rewrite set_fresh by assumption. auto.
  + left.
    assert (E : truthy (identity_key p) = false).
    { rewrite <- secondary_key_identity, truthy_por, Hd, Ht; reflexivity. }
    rewrite E, andb_false_r; reflexivity.
Qed.

Lemma merge_inv_nil : merge_inv [].
Proof. split; constructor. Qed.

Lemma merge_inv_set (d : list (string * pub)) (p : pub) :
  truthy (identity_key p) = true -> merge_inv d ->
  merge_inv (Dict.set (identity_key p) p d).
Proof.
intros Hk [Hnd Hall]; split; [apply NoDup_keys_set; assumption|].
apply Forall_forall; intros [k r] Hin.
apply In_set in Hin as [[-> ->]|Hin]; simpl; [auto|].
rewrite Forall_forall in Hall; apply (Hall _ Hin).
Qed.

Lemma add_primary_inv (d : list (string * pub)) (p : pub) :
  merge_inv d -> merge_inv (add_primary d p).
Proof.
intro H; unfold add_primary; as_identity_key.
destruct (truthy (identity_key p)) eqn:Hk; [apply merge_inv_set|]; assumption.
Qed.

Lemma add_secondary_inv (st : list (string * pub) * nat) (p : pub) :
  merge_inv (fst st) -> merge_inv (fst (add_secondary st p)).
Proof.
intro H; destruct (add_secondary_cases st p) as [->|(Hm & Hk & ->)]; [assumption|].
simpl; rewrite <- set_fresh by assumption; apply merge_inv_set; assumption.
Qed.

Lemma primary_loop_inv (l : list pub) (d : list (string * pub)) :
  merge_inv d -> merge_inv (fold_left add_primary l d).
Proof.
revert d; induction l as [|p l IH]; simpl; intros d H; [assumption|].
apply IH, add_primary_inv, H.
Qed.

Lemma secondary_loop_inv (l : list pub) (st : list (string * pub) * nat) :
  merge_inv (fst st) -> merge_inv (fst (fold_left add_secondary l st)).
Proof.
revert st; induction l as [|p l IH]; simpl; intros st H; [assumption|].
apply IH, add_secondary_inv, H.
Qed.

Lemma merge_state_inv (P S : list pub) : merge_inv (fst (merge_state P S)).
Proof.
unfold merge_state; apply secondary_loop_inv; simpl.
apply primary_loop_inv, merge_inv_nil.
Qed.

(** Every stored record comes from one of the two inputs. *)
Lemma add_primary_from (d : list (string * pub)) (p : pub) (k : string) (r : pub) :
  In (k, r) (add_primary d p) -> r = p \/ In (k, r) d.
Proof.
unfold add_primary; destruct (truthy (primary_key p)); [|auto].
intro H; apply In_set in H as [[_ ->]|H]; auto.
Qed.

Lemma primary_loop_from (l : list pub) (d : list (string * pub)) (k : string) (r : pub) :
  In (k, r) (fold_left add_primary l d) -> In r l \/ In (k, r) d.
Proof.
revert d; induction l as [|p l IH]; simpl; intros d H; [auto|].
destruct (IH _ H) as [H1|H1]; [auto|].
apply add_primary_from in H1 as [->|H1]; auto.
Qed.

Lemma secondary_loop_from (l : list pub) (st : list (string * pub) * nat)
  (k : string) (r : pub) :
  In (k, r) (fst (fold_left add_secondary l st)) -> In r l \/ In (k, r) (fst st).
Proof.
revert st; induction l as [|p l IH]; simpl; intros st H; [auto|].
destruct (IH _ H) as [H1|H1]; [auto|].
destruct (add_secondary_cases st p) as [E|(_ & _ & E)]; rewrite E in H1; [auto|].
simpl in H1; apply in_app_or in H1 as [H1|[H1|[]]]; [auto|].
inversion H1; auto.
Qed.

Lemma In_values (d : list (string * pub)) (r : pub) :
  In r (Dict.values d) <-> exists k, In (k, r) d.
Proof.
unfold Dict.values; rewrite in_map_iff; split.
- intros [[k x] [E H]]; simpl in E; subst; eauto.
- intros [k H]; exists (k, r); auto.
Qed.

Lemma merge_from_inputs (P S : list pub) (r : pub) :
  In r (merge_publications P S) -> In r (P ++ S)%list.
Proof.
unfold merge_publications; rewrite In_values; intros [k H].
apply in_or_app.
apply secondary_loop_from in H as [H|H]; [auto|].
simpl in H; apply primary_loop_from in H as [H|[]]; auto.
Qed.

Lemma merge_key_nonempty (P S : list pub) (r : pub) :
  In r (merge_publications P S) -> truthy (identity_key r) = true.
Proof.
unfold merge_publications; rewrite In_values; intros [k H].
destruct (merge_state_inv P S) as [_ Hall].
rewrite Forall_forall in Hall; destruct (Hall _ H) as [E Hk]; simpl in *.
congruence.
Qed.

End MergeFacts.

Module MergeProps.

Import PyStr Collector Spec PyStrFacts DictFacts MergeFacts.

Lemma add_primary_mem (d : list (string * pub)) (p : pub) (k : string) :
  Dict.mem k d = true -> Dict.mem k (add_primary d p) = true.
Proof.
intro H; unfold add_primary; destruct (truthy (primary_key p)); [|assumption].
rewrite mem_set, H; apply orb_true_r.
Qed.

Lemma primary_loop_mem_mono (l : list pub) (d : list (string * pub)) (k : string) :
  Dict.mem k d = true -> Dict.mem k (fold_left add_primary l d) = true.
Proof.
revert d; induction l as [|p l IH]; simpl; intros d H; [assumption|].
apply IH, add_primary_mem, H.
Qed.

(** After the first loop every input record with a key has that key in
    the dict. *)
Lemma primary_loop_mem (l : list pub) (d : list (string * pub)) (p : pub) :
  In p l -> truthy (identity_key p) = true ->
  Dict.mem (identity_key p) (fold_left add_primary l d) = true.
Proof.
revert d; induction l as [|q l IH]; simpl; intros d Hin Hk; [destruct Hin|].
destruct Hin as [->|H].
- apply primary_loop_mem_mono; unfold add_primary; as_identity_key.
  rewrite Hk, mem_set, String.eqb_refl; reflexivity.
- apply IH; assumption.
Qed.

(** A record whose key is already in the dict is passed over by the
    second loop, and so is a record without a key. *)
Lemma add_secondary_known (st : list (string * pub) * nat) (p : pub) :
  (truthy (identity_key p) = true -> Dict.mem (identity_key p) (fst st) = true) ->
  add_secondary st p = st.
Proof.
intro H; destruct (add_secondary_cases st p) as [E|(Hm & Hk & _)]; [assumption|].
rewrite (H Hk) in Hm; discriminate.
Qed.

Lemma secondary_loop_known (l : list pub) (st : list (string * pub) * nat) :
  (forall p, In p l -> truthy (identity_key p) = true ->
             Dict.mem (identity_key p) (fst st) = true) ->
  fold_left add_secondary l st = st.
Proof.
induction l as [|p l IH]; simpl; intro H; [reflexivity|].
rewrite add_secondary_known by (apply H; auto).
apply IH; intros q Hq; apply H; auto.
Qed.

Lemma add_primary_get_other (d : list (string * pub)) (q : pub) (k : string) :
  identity_key q <> k -> Dict.get k (add_primary d q) = Dict.get k d.
Proof.
intro H; unfold add_primary; as_identity_key.
destruct (truthy (identity_key q)); [|reflexivity].
rewrite get_set. apply String.eqb_neq in H; rewrite H; reflexivity.
Qed.

Lemma primary_loop_get_other (l : list pub) (d : list (string * pub)) (k : string) :
  (forall q, In q l -> identity_key q <> k) ->
  Dict.get k (fold_left add_primary l d) = Dict.get k d.
Proof.
revert d; induction l as [|q l IH]; simpl; intros d H; [reflexivity|].
rewrite IH by auto. apply add_primary_get_other; auto.
Qed.

(** The first loop leaves under a key the last record that has it. *)
Lemma primary_loop_get_last (l1 l2 : list pub) (r : pub) (d : list (string * pub)) :
  truthy (identity_key r) = true ->
  (forall q, In q l2 -> identity_key q <> identity_key r) ->
  Dict.get (identity_key r) (fold_left add_primary (l1 ++ r :: l2)%list d) = Some r.
Proof.
intros Hk Hl2; rewrite fold_left_app; simpl.
rewrite primary_loop_get_other by assumption.
unfold add_primary; as_identity_key.
rewrite Hk, get_set, String.eqb_refl; reflexivity.
Qed.

Lemma get_app_present (d e : list (string * pub)) (k : string) (r : pub) :
  Dict.get k d = Some r -> Dict.get k (d ++ e)%list = Some r.
Proof.
induction d as [|[k0 w] d IH]; simpl; [discriminate|].
destruct (String.eqb k0 k); auto.
Qed.

Lemma add_secondary_get (st : list (string * pub) * nat) (p : pub) (k : string) (r : pub) :
  Dict.get k (fst st) = Some r -> Dict.get k (fst (add_secondary st p)) = Some r.
Proof.
intro H; destruct (add_secondary_cases st p) as [->|(_ & _ & ->)]; [assumption|].
simpl; apply get_app_present; assumption.
Qed.

Lemma secondary_loop_get (l : list pub) (st : list (string * pub) * nat)
  (k : string) (r : pub) :
  Dict.get k (fst st) = Some r ->
  Dict.get k (fst (fold_left add_secondary l st)) = Some r.
Proof.
revert st; induction l as [|p l IH]; simpl; intros st H; [assumption|].
apply IH, add_secondary_get, H.
Qed.

(** The last element of a list that passes a test. *)
Lemma last_occurrence (f : pub -> bool) (l : list pub) :
  existsb f l = true ->
  exists l1 r l2, l = (l1 ++ r :: l2)%list /\ f r = true /\
                  forall q, In q l2 -> f q = false.
Proof.
induction l as [|x l IH]; simpl; [discriminate|].
destruct (existsb f l) eqn:E.
- intros _. destruct (IH eq_refl) as (l1 & r & l2 & -> & Hr & Hl2).
  exists (x :: l1), r, l2; auto.
- rewrite orb_false_r; intro Hx.
  exists [], x, l; repeat split; auto.
  intros q Hq. destruct (f q) eqn:Hfq; [|reflexivity].
  assert (existsb f l = true) by (apply existsb_exists; eauto). congruence.
Qed.

(** In a dict that satisfies the invariant, the records with a given
    identity key are those stored under it. *)
Lemma with_key_absent (d : list (string * pub)) (k : string) :
  merge_inv d -> ~ In k (Dict.keys d) -> with_key k (Dict.values d) = [].
Proof.
intros [_ Hall]; induction d as [|[k0 w] d IH]; simpl; intro Hk; [reflexivity|].
inversion Hall as [|? ? [E _] Hall']; subst; simpl in *.
destruct (String.eqb (identity_key w) k) eqn:Ek.
- apply String.eqb_eq in Ek. exfalso; apply Hk; left; congruence.
- apply IH; [assumption | tauto].
Qed.

Lemma with_key_get (d : list (string * pub)) (k : string) (r : pub) :
  merge_inv d -> Dict.get k d = Some r -> with_key k (Dict.values d) = [r].
Proof.
intros [Hnd Hall]; induction d as [|[k0 w] d IH]; simpl; [discriminate|].
inversion Hall as [|? ? [E Ht] Hall']; subst; simpl in *.
inversion Hnd as [|? ? Hnot Hnd']; subst.
destruct (String.eqb (identity_key w) k) eqn:Ek.
- intros [= ->]. apply String.eqb_eq in Ek; subst k.
  f_equal. apply (with_key_absent d); [split|]; assumption.
- apply IH; assumption.
Qed.

End MergeProps.

Module MergeClaims.

Import PyStr Collector Spec Samples PyStrFacts DictFacts MergeFacts MergeProps.

Lemma keys_of_values (d : list (string * pub)) :
  merge_inv d -> map identity_key (Dict.values d) = Dict.keys d.
Proof.
intros [_ Hall]; induction Hall as [|[k r] d [E _] _ IH]; simpl in *; congruence.
Qed.

Lemma merge_self (S : list pub) : merge_state S S = merge_state S [].
Proof.
unfold merge_state; simpl. apply secondary_loop_known.
intros p Hp Hk; simpl; apply primary_loop_mem; assumption.
Qed.

(** C10: every record returned by [merge_publications] comes from one of
    the two inputs and has a non-empty identity key (its lowercased,
    trimmed DOI is not empty or its lowercased, trimmed title is not);
    an input record of either source whose DOI and title both normalise
    to the empty string is not in the result. *)
Theorem merged_records_have_identity_key (P S : list pub) :
  (forall r, In r (merge_publications P S) ->
     In r (P ++ S)%list /\ identity_key r <> "" /\
     (norm (doi r) <> "" \/ norm (title r) <> "")) /\
  (forall r, In r (P ++ S)%list -> norm (doi r) = "" -> norm (title r) = "" ->
     ~ In r (merge_publications P S)).
Proof.
assert (K : forall r, In r (merge_publications P S) -> identity_key r <> "").
{ intros r H; apply truthy_true, (merge_key_nonempty P S r H). }
split.
- intros r H; split; [apply merge_from_inputs, H|]; split; [apply K, H|].
  specialize (K r H); unfold identity_key, por in K.
  destruct (truthy (norm (doi r))) eqn:E; [left; apply truthy_true, E | right; exact K].
- intros r _ Hd Ht H; apply (K r H).
  unfold identity_key; rewrite Hd, Ht; reflexivity.
Qed.

Lemma merged_records_have_identity_key_witness :
  ~ In keyless (merge_publications [keyless; pm_heart] [web_heart; keyless]).
Proof.
apply (proj2 (merged_records_have_identity_key [keyless; pm_heart] [web_heart; keyless]));
  [simpl; auto | reflexivity | reflexivity].
Defined.

(** C4: merging a list of records with itself gives what merging it with
    the empty secondary list gives, record for record; the result holds
    one record per identity key, and its identity keys are the non-empty
    identity keys of the input. *)
Theorem merge_with_itself (S : list pub) :
  merge_publications S S = merge_publications S [] /\
  NoDup (map identity_key (merge_publications S S)) /\
  (forall k, k <> "" ->
     (In k (map identity_key (merge_publications S S)) <->
      In k (map identity_key S))).
Proof.
split; [unfold merge_publications; rewrite merge_self; reflexivity|].
pose proof (merge_state_inv S S) as Hinv.
unfold merge_publications; rewrite (keys_of_values _ Hinv).
split; [apply Hinv|].
intros k Hk; split.
- rewrite <- (keys_of_values _ Hinv), !in_map_iff.
  intros [r [E H]]; exists r; split; [assumption|].
  apply (merge_from_inputs S S) in H; apply in_app_or in H; tauto.
- rewrite in_map_iff; intros [p [E H]]; subst k.
  apply mem_In_keys. rewrite merge_self; unfold merge_state; simpl.
  apply primary_loop_mem; [assumption | apply truthy_true, Hk].
Qed.

Lemma merge_with_itself_witness :
  In "10.1/a" (map identity_key (merge_publications [pm_heart; keyless] [pm_heart; keyless])) <->
  In "10.1/a" (map identity_key [pm_heart; keyless]).
Proof.
apply (proj2 (proj2 (merge_with_itself [pm_heart; keyless]))); discriminate.
Defined.

(** C1 (as amended): when a primary record and a secondary record have
    the same non-empty lowercased, trimmed DOI, the result holds exactly
    one record whose identity key is that DOI; it is the last primary
    record, in input order, with that identity key, returned as it is,
    and the secondary record is not in the result (unless it is that very
    record).  When no other primary record has that identity key, the
    record returned is the given primary record. *)
Theorem shared_doi_keeps_last_primary (P S : list pub) (p s : pub) (d : string) :
  In p P -> In s S -> norm (doi p) = d -> norm (doi s) = d -> d <> "" ->
  exists P1 r P2,
    P = (P1 ++ r :: P2)%list /\ identity_key r = d /\
    (forall q, In q P2 -> identity_key q <> d) /\
    with_key d (merge_publications P S) = [r] /\
    (In s (merge_publications P S) -> s = r) /\
    ((forall q, In q P -> identity_key q = d -> q = p) -> r = p).
Proof.
intros Hp Hs Hpd Hsd Hd.
assert (Ht : truthy d = true) by (apply truthy_true, Hd).
assert (Kp : identity_key p = d) by (rewrite <- Hpd; apply identity_key_of_doi; congruence).
assert (Ks : identity_key s = d) by (rewrite <- Hsd; apply identity_key_of_doi; congruence).
destruct (last_occurrence (fun x => String.eqb (identity_key x) d) P)
  as (P1 & r & P2 & -> & Hr & HP2).
{ apply existsb_exists; exists p; split; [assumption|]. apply String.eqb_eq, Kp. }
apply String.eqb_eq in Hr.
assert (HP2' : forall q, In q P2 -> identity_key q <> d).
{ intros q Hq; apply String.eqb_neq, HP2, Hq. }
assert (G : with_key d (merge_publications (P1 ++ r :: P2) S) = [r]).
{ unfold merge_publications; apply with_key_get; [apply merge_state_inv|].
  unfold merge_state; apply secondary_loop_get; simpl.
  rewrite <- Hr; apply primary_loop_get_last; rewrite Hr; assumption. }
exists P1, r, P2; repeat split; try assumption.
- intro H.
  assert (H' : In s (with_key d (merge_publications (P1 ++ r :: P2) S))).
  { apply filter_In; split; [assumption | apply String.eqb_eq, Ks]. }
  rewrite G in H'; destruct H' as [H'|[]]; auto.
- intro Huniq; apply Huniq; [apply in_elt | assumption].
Qed.

Lemma shared_doi_keeps_last_primary_witness :
  exists P1 r P2,
    [pm_first; pm_heart] = (P1 ++ r :: P2)%list /\ identity_key r = "10.1/x" /\
    (forall q, In q P2 -> identity_key q <> "10.1/x") /\
    with_key "10.1/x" (merge_publications [pm_first; pm_heart] [web_copy]) = [r] /\
    (In web_copy (merge_publications [pm_first; pm_heart] [web_copy]) -> web_copy = r) /\
    ((forall q, In q [pm_first; pm_heart] -> identity_key q = "10.1/x" -> q = pm_first) ->
     r = pm_first).
Proof.
apply (shared_doi_keeps_last_primary [pm_first; pm_heart] [web_copy] pm_first web_copy "10.1/x");
  [simpl; auto | simpl; auto | reflexivity | reflexivity | discriminate].
Defined.

(** C1 as stated fails when a later primary record has the same identity
    key.  With two primary records of the same DOI the first is
    overwritten by the second in the dict, so the one record returned for
    the DOI is not that primary record and its abstract is not the one
    retained.  With a later primary record that has no DOI and that DOI
    as its title, no record with that DOI is returned at all. *)
Lemma shared_doi_first_primary_lost :
  (In pm_first [pm_first; pm_second] /\ In web_copy [web_copy] /\
   norm (doi pm_first) = norm (doi web_copy) /\ norm (doi pm_first) <> "" /\
   merge_publications [pm_first; pm_second] [web_copy] = [pm_second] /\
   with_doi (norm (doi pm_first)) (merge_publications [pm_first; pm_second] [web_copy])
     <> [pm_first] /\
   abstract pm_second <> abstract pm_first) /\
  (In pm_first [pm_first; pm_doi_as_title] /\
   merge_publications [pm_first; pm_doi_as_title] [web_copy] = [pm_doi_as_title] /\
   with_doi (norm (doi pm_first))
            (merge_publications [pm_first; pm_doi_as_title] [web_copy]) = []).
Proof.
split.
- repeat split; try (simpl; auto; fail); try reflexivity; discriminate.
- repeat split; simpl; auto.
Qed.

(** C5, at an input where the code departs from it: the PubMed record has
    a DOI and so is stored under the DOI; the website record has the same
    title and no DOI; the fuzzy test compares its title with the DOI key,
    finds no duplicate, and the record is added. *)
Theorem same_title_not_deduplicated_under_doi_key :
  take 50 (title_key web_heart) = take 50 (norm (title pm_heart)) /\
  fst (merge_state [pm_heart] []) = [("10.1/a", pm_heart)] /\
  fuzzy_loop (title_key web_heart) (Dict.keys (fst (merge_state [pm_heart] []))) = false /\
  merge_publications [pm_heart] [web_heart] = [pm_heart; web_heart].
Proof.
repeat split; reflexivity.
Qed.

End MergeClaims.

(* ================================================================== *)
(** * Substrings and letter case                                        *)
(* ================================================================== *)

Module SubstringFacts.

Import PyStr Spec.

Lemma append_assoc (a b c : string) : (a ++ b) ++ c = a ++ (b ++ c).
Proof. induction a; simpl; congruence. Qed.

Lemma append_empty_r (a : string) : a ++ "" = a.
Proof. induction a; simpl; congruence. Qed.

Lemma starts_with_iff (p s : string) :
  starts_with p s = true <-> exists b, s = p ++ b.
Proof.
revert s; induction p as [|a p IH]; intros s; simpl.
- split; [intros _; exists s; reflexivity | reflexivity].
- destruct s as [|c s]; simpl.
  + split; [discriminate | intros [b H]; discriminate].
  + rewrite andb_true_iff, IH, Ascii.eqb_eq. split.
    * intros [-> [b ->]]; exists b; reflexivity.
    * intros [b H]; inversion H; eauto.
Qed.

Lemma contains_iff (kw s : string) :
  contains kw s = true <-> exists a b, s = a ++ kw ++ b.
Proof.
induction s as [|c s IH].
- simpl; rewrite orb_false_r, starts_with_iff; split.
  + intros [b H]; exists "", b; exact H.
  + intros [a [b H]]. destruct a; simpl in H; [eauto | discriminate].
- cbn [contains]; rewrite orb_true_iff, starts_with_iff, IH; split.
  + intros [[b H]|[a [b H]]].
    * exists "", b; exact H.
    * exists (String c a), b; simpl; congruence.
  + intros [a [b H]]. destruct a as [|c' a]; simpl in H.
    * left; eauto.
    * right; inversion H; eauto.
Qed.

Lemma lower_append (a b : string) : lower (a ++ b) = lower a ++ lower b.
Proof. induction a; simpl; congruence. Qed.

(** A split of [lower s] comes from a split of [s]. *)
Lemma lower_split (s x y : string) :
  lower s = x ++ y -> exists a b, s = a ++ b /\ lower a = x /\ lower b = y.
Proof.
revert s; induction x as [|c x IH]; intros s H; simpl in H.
- exists "", s; auto.
- destruct s as [|c' s]; simpl in H; [discriminate|].
  inversion H as [[Hc Hs]]. destruct (IH _ Hs) as (a & b & -> & Ha & Hb).
  exists (String c' a), b; simpl; repeat split; congruence.
Qed.

(** For a keyword in lower case, the test of the code on the lowercased
    text is the occurrence of the keyword, letter case apart. *)
Lemma contains_lower_iff (kw s : string) :
  lower kw = kw -> (contains kw (lower s) = true <-> occurs_ci kw s).
Proof.
intro Hkw; rewrite contains_iff; unfold occurs_ci; split.
- intros (a' & b' & H).
  destruct (lower_split _ _ _ H) as (a & r & -> & Ha & Hr).
  destruct (lower_split _ _ _ Hr) as (u & b & -> & Hu & Hb).
  exists a, u, b; split; [reflexivity | congruence].
- intros (a & u & b & -> & Hu).
  exists (lower a), (lower b); rewrite !lower_append; congruence.
Qed.

End SubstringFacts.

(* ================================================================== *)
(** * What strip and replace compute                                    *)
(* ================================================================== *)

Module PrimitiveFacts.

Import PyStr Spec SubstringFacts.

Lemma lstrip_split (s : string) :
  exists a, s = a ++ lstrip s /\ all_space a = true.
Proof.
induction s as [|c r (a & E & Ha)]; simpl; [exists ""; auto|].
destruct (is_space c) eqn:Hc.
- exists (String c a); simpl; rewrite Hc, Ha; split; [f_equal; exact E | reflexivity].
- exists ""; auto.
Qed.

Lemma lstrip_head (s : string) : starts_with_space (lstrip s) = false.
Proof.
induction s as [|c r IH]; simpl; [reflexivity|].
destruct (is_space c) eqn:Hc; [assumption | simpl; assumption].
Qed.

Lemma rstrip_split (s : string) :
  exists b, s = rstrip s ++ b /\ all_space b = true.
Proof.
induction s as [|c r (b & E & Hb)]; simpl; [exists ""; auto|].
destruct (rstrip r) as [|d t].
- simpl in E; subst b. destruct (is_space c) eqn:Hc.
  + exists (String c r); simpl; rewrite Hc, Hb; auto.
  + exists r; auto.
- exists b; split; [simpl in *; congruence | assumption].
Qed.

Lemma rstrip_tail (s : string) : ends_with_space (rstrip s) = false.
Proof.
induction s as [|c r IH]; simpl; [reflexivity|].
destruct (rstrip r) as [|d t].
- destruct (is_space c) eqn:Hc; simpl; auto.
- exact IH.
Qed.

Lemma rstrip_head (s : string) :
  starts_with_space s = false -> starts_with_space (rstrip s) = false.
Proof.
destruct s as [|c r]; simpl; [auto|]. intro Hc.
destruct (rstrip r); [rewrite Hc|]; simpl; auto.
Qed.

(** [s.strip()] is [s] without the white space at its two ends. *)
Lemma strip_spec (s : string) :
  exists a b,
    s = a ++ strip s ++ b /\ all_space a = true /\ all_space b = true /\
    starts_with_space (strip s) = false /\ ends_with_space (strip s) = false.
Proof.
destruct (lstrip_split s) as (a & Ea & Ha).
destruct (rstrip_split (lstrip s)) as (b & Eb & Hb).
exists a, b; unfold strip; repeat split; try assumption.
- rewrite <- Eb; assumption.
- apply rstrip_head, lstrip_head.
- apply rstrip_tail.
Qed.

Lemma replace_from_skip (old new x y : string) :
  replace_from old new (String.length x) (x ++ y) = replace_from old new 0 y.
Proof.
induction x as [|c x IH]; simpl; [destruct y; reflexivity | exact IH].
Qed.

Lemma starts_with_within (p x y : string) :
  String.length p <= String.length x ->
  starts_with p (x ++ y) = starts_with p x.
Proof.
revert x; induction p as [|a p IH]; intros [|c x]; simpl; intro H;
  try reflexivity; try lia.
rewrite IH by lia; reflexivity.
Qed.

Lemma but_last_split (c : ascii) (s : string) :
  exists z, String c s = but_last (String c s) ++ String z "".
Proof.
revert c; induction s as [|d s IH]; intro c.
- exists c; reflexivity.
- destruct (IH d) as [z Hz]; exists z.
  unfold but_last in *; simpl in *. rewrite Nat.sub_0_r in *.
  f_equal; exact Hz.
Qed.

Lemma length_append (a b : string) :
  String.length (a ++ b) = String.length a + String.length b.
Proof. induction a; simpl; congruence. Qed.

(** [s.replace(old, new)] leaves alone a text without [old]. *)
Lemma replace_absent (old new s : string) :
  old <> "" -> contains old s = false -> replace old new s = s.
Proof.
intros Hold; destruct old as [|a old]; [congruence|]; unfold replace.
induction s as [|c r IH]; [reflexivity|].
cbn [contains]; intro H; apply orb_false_iff in H as [H1 H2].
cbn [replace_from]; rewrite H1, IH by assumption; reflexivity.
Qed.

(** [s.replace(old, new)] replaces the first occurrence of [old] and goes
    on behind it. *)
Lemma replace_first (old new pre post : string) :
  old <> "" -> contains old (pre ++ but_last old) = false ->
  replace old new (pre ++ old ++ post) = pre ++ new ++ replace old new post.
Proof.
intros Hold; destruct old as [|a old]; [congruence|]; unfold replace.
induction pre as [|c pre IH]; intro H.
- cbn [append replace_from].
  assert (S : starts_with (String a old) (String a (old ++ post)) = true).
  { apply starts_with_iff; exists post; reflexivity. }
  rewrite S. f_equal.
  change (String.length (String a old) - 1) with (String.length old - 0).
  rewrite Nat.sub_0_r; apply replace_from_skip.
- cbn [append contains] in H; apply orb_false_iff in H as [H1 H2].
  cbn [append replace_from].
  destruct (but_last_split a old) as [z Hz].
  assert (S : starts_with (String a old) (String c (pre ++ String a old ++ post)) = false).
  { rewrite <- H1.
    change (String c (pre ++ String a old ++ post))
      with (String c pre ++ String a old ++ post).
    rewrite Hz at 2. rewrite !append_assoc, <- (append_assoc (String c pre)).
    apply starts_with_within.
    rewrite Hz at 1. generalize (but_last (String a old)); intro bl.
    rewrite length_append; cbn [String.length]; rewrite length_append; lia. }
  change (String a (old ++ post)) with (String a old ++ post).
  rewrite S, IH by assumption; reflexivity.
Qed.

End PrimitiveFacts.

(* ================================================================== *)
(** * Classification                                                    *)
(* ================================================================== *)

Module ClassifyClaims.

Import PyStr Collector Spec Samples SubstringFacts.

Lemma keywords_lower_case :
  Forall (fun rule => Forall (fun kw => lower kw = kw) (snd rule)) TOPIC_KEYWORDS.
Proof. repeat constructor. Qed.

Lemma topics_distinct : NoDup (map fst TOPIC_KEYWORDS).
Proof.
simpl; repeat constructor; simpl; intro H;
  repeat (destruct H as [H|H]; [discriminate|]); exact H.
Qed.

Lemma other_not_a_topic : ~ In "Other" (map fst TOPIC_KEYWORDS).
Proof.
simpl; intro H; repeat (destruct H as [H|H]; [discriminate|]); exact H.
Qed.

Lemma classify_loop_filter (text : string) (table : list (string * list string)) :
  classify_loop text table =
  map fst (filter (fun rule => any_keyword text (snd rule)) table).
Proof.
induction table as [|[topic kws] table IH]; simpl; [reflexivity|].
destruct (any_keyword text kws); simpl; congruence.
Qed.

Lemma NoDup_map_filter {A B : Type} (f : A -> B) (g : A -> bool) (l : list A) :
  NoDup (map f l) -> NoDup (map f (filter g l)).
Proof.
induction l as [|x l IH]; simpl; intro H; [constructor|].
inversion H as [|? ? Hx Hl]; subst.
destruct (g x); simpl; [constructor|]; auto.
intro Hin; apply Hx. apply in_map_iff in Hin as [y [E Hy]].
apply filter_In in Hy as [Hy _]. rewrite <- E; apply in_map; assumption.
Qed.

(** The rule table has a keyword in [s], letter case apart, exactly when
    some rule fires on the lowercased [s]. *)
Lemma some_keyword_occurs_iff (s : string) :
  some_keyword_occurs s <->
  existsb (fun rule => any_keyword (lower s) (snd rule)) TOPIC_KEYWORDS = true.
Proof.
pose proof keywords_lower_case as L; rewrite Forall_forall in L.
rewrite existsb_exists; unfold some_keyword_occurs, any_keyword; split.
- intros (topic & kws & kw & Hr & Hk & Ho).
  exists (topic, kws); split; [assumption|]; simpl.
  apply existsb_exists; exists kw; split; [assumption|].
  specialize (L _ Hr); simpl in L; rewrite Forall_forall in L.
  apply contains_lower_iff; auto.
- intros ([topic kws] & Hr & Hk); simpl in Hk.
  apply existsb_exists in Hk as (kw & Hk & Hc).
  exists topic, kws, kw; repeat split; try assumption.
  specialize (L _ Hr); simpl in L; rewrite Forall_forall in L.
  apply contains_lower_iff; auto.
Qed.

Lemma matching_topics_nil (text : string) :
  matching_topics text = [] <->
  existsb (fun rule => any_keyword text (snd rule)) TOPIC_KEYWORDS = false.
Proof.
unfold matching_topics.
induction TOPIC_KEYWORDS as [|[topic kws] table IH]; simpl; [tauto|].
destruct (any_keyword text kws); simpl; [split; discriminate | exact IH].
Qed.

Lemma classify_topics_cases (p : pub) :
  (matching_topics (classify_text p) = [] /\ classify_topics p = ["Other"]) \/
  (matching_topics (classify_text p) <> [] /\
   classify_topics p = matching_topics (classify_text p)).
Proof.
unfold classify_topics; rewrite classify_loop_filter.
fold (matching_topics (classify_text p)).
destruct (matching_topics (classify_text p)); [left | right]; split; congruence.
Qed.

(** C2 (as amended): [classify_topics] returns a non-empty list; it is
    exactly ["Other"] if and only if no keyword of the table occurs,
    letter case apart, as a substring of the title and the abstract
    joined by one space; otherwise "Other" is absent and the list is made
    of the topics that have such a keyword, in the order of the table;
    in both cases no label occurs twice. *)
Theorem classify_topics_spec (p : pub) :
  classify_topics p <> [] /\
  (classify_topics p = ["Other"] <->
   ~ some_keyword_occurs (title p ++ " " ++ abstract p)) /\
  (some_keyword_occurs (title p ++ " " ++ abstract p) ->
   ~ In "Other" (classify_topics p) /\
   classify_topics p = matching_topics (lower (title p ++ " " ++ abstract p))) /\
  NoDup (classify_topics p).
Proof.
pose proof (some_keyword_occurs_iff (title p ++ " " ++ abstract p)) as K.
fold (classify_text p) in K |- *.
assert (M : ~ In "Other" (matching_topics (classify_text p))).
{ unfold matching_topics; intro H; apply other_not_a_topic.
  apply in_map_iff in H as [r [E H]]; apply filter_In in H as [H _].
  rewrite <- E; apply in_map; assumption. }
destruct (classify_topics_cases p) as [[Hm Hc]|[Hm Hc]]; rewrite Hc.
- pose proof Hm as Hm'; apply matching_topics_nil in Hm'.
  repeat split; try discriminate.
  + intros _; rewrite K, Hm'; discriminate.
  + rewrite K, Hm' in H; discriminate.
  + rewrite K, Hm' in H; discriminate.
  + repeat constructor; intros [].
- assert (Hm' : existsb (fun rule => any_keyword (classify_text p) (snd rule))
                        TOPIC_KEYWORDS = true).
  { destruct (existsb _ TOPIC_KEYWORDS) eqn:E; [reflexivity|].
    apply matching_topics_nil in E; contradiction. }
  repeat split; try assumption.
  + intros E Hk. rewrite E in M; apply M; simpl; auto.
  + intros Hk; exfalso; apply Hk, K, Hm'.
  + apply NoDup_map_filter, topics_distinct.
Qed.

Lemma classify_topics_spec_witness :
  ~ In "Other" (classify_topics obesity_title) /\
  classify_topics obesity_title =
  matching_topics (lower (title obesity_title ++ " " ++ abstract obesity_title)).
Proof.
apply (proj1 (proj2 (proj2 (classify_topics_spec obesity_title)))).
apply some_keyword_occurs_iff; reflexivity.
Defined.

(** C2 as stated fails both ways, because the text scanned is not the
    title followed by the abstract but the two joined by a space: a title
    ending in CT with no abstract gets "Imaging" through the keyword made
    of ct and a space, although no keyword occurs in title + abstract; and
    a keyword that occurs in title + abstract only across the junction is
    not seen. *)
Lemma classify_joins_with_space :
  (classify_topics ct_title = ["Imaging"] /\
   ~ some_keyword_occurs (title ct_title ++ abstract ct_title)) /\
  (classify_topics split_word = ["Other"] /\
   some_keyword_occurs (title split_word ++ abstract split_word)).
Proof.
split; split.
- reflexivity.
- intro H; apply some_keyword_occurs_iff in H; discriminate H.
- reflexivity.
- apply some_keyword_occurs_iff; reflexivity.
Qed.

End ClassifyClaims.

(* ================================================================== *)
(** * The order on strings and on sort keys                             *)
(* ================================================================== *)

Module OrderFacts.

Import PyStr Collector Spec.

Lemma ascii_ltb_lt (a b : ascii) :
  ascii_ltb a b = true <-> (nat_of_ascii a < nat_of_ascii b)%nat.
Proof. unfold ascii_ltb; apply Nat.ltb_lt. Qed.

Lemma ascii_ltb_ge (a b : ascii) :
  ascii_ltb a b = false <-> (nat_of_ascii b <= nat_of_ascii a)%nat.
Proof. unfold ascii_ltb; apply Nat.ltb_ge. Qed.

Lemma nat_of_ascii_inj (a b : ascii) : nat_of_ascii a = nat_of_ascii b -> a = b.
Proof.
intro H; rewrite <- (ascii_nat_embedding a), <- (ascii_nat_embedding b), H; reflexivity.
Qed.

(** The order on non-empty strings, one character at a time. *)
Lemma le_cons (a b : ascii) (s t : string) :
  le (String a s) (String b t) = true <->
  (nat_of_ascii a < nat_of_ascii b)%nat \/ (a = b /\ le s t = true).
Proof.
simpl. destruct (ascii_ltb a b) eqn:E1.
- apply ascii_ltb_lt in E1; tauto.
- apply ascii_ltb_ge in E1. destruct (ascii_ltb b a) eqn:E2.
  + apply ascii_ltb_lt in E2. split; [discriminate|].
    intros [H|[-> _]]; lia.
  + apply ascii_ltb_ge in E2.
    assert (Eab : a = b) by (apply nat_of_ascii_inj; lia).
    split; [auto | intros [H|[_ H]]; [lia | exact H]].
Qed.

Lemma le_refl (s : string) : le s s = true.
Proof. induction s; [reflexivity | apply le_cons; auto]. Qed.

Lemma le_total (s t : string) : le s t = true \/ le t s = true.
Proof.
revert t; induction s as [|a s IH]; intros [|b t]; auto.
rewrite !le_cons.
destruct (Nat.lt_trichotomy (nat_of_ascii a) (nat_of_ascii b)) as [H|[H|H]]; auto.
apply nat_of_ascii_inj in H; subst b. destruct (IH t); auto.
Qed.

Lemma le_antisym (s t : string) : le s t = true -> le t s = true -> s = t.
Proof.
revert t; induction s as [|a s IH]; intros [|b t]; try reflexivity; try discriminate.
rewrite !le_cons. intros [H1|[-> H1]] [H2|[E H2]]; try lia.
- subst; lia.
- f_equal; auto.
Qed.

Lemma le_trans (s t u : string) : le s t = true -> le t u = true -> le s u = true.
Proof.
revert t u; induction s as [|a s IH]; intros [|b t] [|c u]; try reflexivity; try discriminate.
rewrite !le_cons. intros [H1|[-> H1]] [H2|[-> H2]]; try (left; lia).
right; split; [reflexivity | eauto].
Qed.

Lemma lt_iff (s t : string) : lt s t = true <-> le s t = true /\ s <> t.
Proof.
unfold lt; rewrite negb_true_iff; split.
- intro H. split.
  + destruct (le_total s t) as [H1|H1]; congruence.
  + intros ->; rewrite le_refl in H; discriminate.
- intros [H1 H2]. destruct (le t s) eqn:E; [|reflexivity].
  exfalso; apply H2, le_antisym; assumption.
Qed.

Lemma lt_empty_r (s : string) : lt s "" = false.
Proof. reflexivity. Qed.

(** The empty string is below every other string. *)
Lemma lt_empty_l (s : string) : s <> "" -> lt "" s = true.
Proof. destruct s; [congruence | reflexivity]. Qed.

(** Tuple comparison on (year, title). *)
Lemma key_le_iff (a b : string * string) :
  key_le a b = true <->
  lt (fst a) (fst b) = true \/ (fst a = fst b /\ le (snd a) (snd b) = true).
Proof.
unfold key_le. destruct (lt (fst a) (fst b)) eqn:E1; [tauto|].
destruct (lt (fst b) (fst a)) eqn:E2.
- split; [discriminate | intros [H|[H _]]; [discriminate|]].
  rewrite H in E2. apply lt_iff in E2 as [_ E2]; congruence.
- unfold lt in E1, E2; apply negb_false_iff in E1, E2.
  pose proof (le_antisym _ _ E2 E1). split; [auto | intros [H'|[_ H']]; congruence].
Qed.

Lemma key_le_total (a b : string * string) : key_le a b = true \/ key_le b a = true.
Proof.
rewrite !key_le_iff.
destruct (String.string_dec (fst a) (fst b)) as [E|E].
- destruct (le_total (snd a) (snd b)); auto.
- destruct (le_total (fst a) (fst b)) as [H|H]; [left | right]; left;
    apply lt_iff; split; congruence.
Qed.

Lemma key_le_trans (a b c : string * string) :
  key_le a b = true -> key_le b c = true -> key_le a c = true.
Proof.
rewrite !key_le_iff, !lt_iff.
intros [[H1 N1]|[E1 H1]] [[H2 N2]|[E2 H2]].
- left; split; [eapply le_trans; eauto|].
  intro E; rewrite E in H1. apply N2, le_antisym; assumption.
- left; rewrite <- E2; auto.
- left; rewrite E1; auto.
- right; split; [congruence | eapply le_trans; eauto].
Qed.

(** [desc_pair a b] says that the key of [b] is at most the key of [a]. *)
Lemma desc_pair_iff (a b : dashboard_pub) :
  desc_pair a b <-> key_le (sort_key b) (sort_key a) = true.
Proof.
rewrite key_le_iff; unfold desc_pair, sort_key; simpl.
split; (intros [H|[E H]]; [left; assumption | right; split; congruence]).
Qed.

Lemma desc_pair_trans (a b c : dashboard_pub) :
  desc_pair a b -> desc_pair b c -> desc_pair a c.
Proof. rewrite !desc_pair_iff; intros; eapply key_le_trans; eauto. Qed.

End OrderFacts.

(* ================================================================== *)
(** * The sort of build_dashboard_data                                  *)
(* ================================================================== *)

Module SortClaims.

Import PyStr Collector Spec Samples OrderFacts.

Lemma insert_desc_perm (x : dashboard_pub) (l : list dashboard_pub) :
  Permutation (x :: l) (insert_desc x l).
Proof.
induction l as [|y l IH]; simpl; [apply Permutation_refl|].
destruct (key_lt (sort_key x) (sort_key y)); [|apply Permutation_refl].
eapply perm_trans; [apply perm_swap | apply perm_skip, IH].
Qed.

Lemma sort_desc_perm (l : list dashboard_pub) : Permutation l (sort_desc l).
Proof.
induction l as [|x l IH]; simpl; [constructor|].
eapply perm_trans; [apply perm_skip, IH | apply insert_desc_perm].
Qed.

Lemma insert_desc_sorted (x : dashboard_pub) (l : list dashboard_pub) :
  StronglySorted desc_pair l -> StronglySorted desc_pair (insert_desc x l).
Proof.
induction l as [|y l IH]; simpl; intro H; [repeat constructor|].
inversion H as [|? ? Hl Hy]; subst.
destruct (key_lt (sort_key x) (sort_key y)) eqn:E.
- constructor; [auto|].
  assert (Hyx : desc_pair y x).
  { apply desc_pair_iff. unfold key_lt in E; apply negb_true_iff in E.
    destruct (key_le_total (sort_key x) (sort_key y)); congruence. }
  eapply Permutation_Forall; [apply insert_desc_perm|]. constructor; assumption.
- assert (Hxy : desc_pair x y).
  { apply desc_pair_iff. unfold key_lt in E; apply negb_false_iff in E; exact E. }
  constructor; [assumption|]. constructor; [assumption|].
  eapply Forall_impl; [|exact Hy]. intros z Hz; eapply desc_pair_trans; eauto.
Qed.

Lemma sort_desc_sorted (l : list dashboard_pub) : StronglySorted desc_pair (sort_desc l).
Proof.
induction l as [|x l IH]; simpl; [constructor | apply insert_desc_sorted, IH].
Qed.

Lemma key_lt_irrefl (k : string * string) : key_lt k k = false.
Proof.
unfold key_lt; apply negb_false_iff, key_le_iff; right; split; [reflexivity|].
apply le_refl.
Qed.

Lemma insert_desc_with_key (k : string * string) (x : dashboard_pub)
  (l : list dashboard_pub) :
  with_sort_key k (insert_desc x l) = with_sort_key k (x :: l).
Proof.
induction l as [|y l IH]; [reflexivity|].
cbn [insert_desc]. destruct (key_lt (sort_key x) (sort_key y)) eqn:E; [|reflexivity].
unfold with_sort_key in *; cbn [filter] in *; rewrite IH.
destruct (String.eqb_spec (d_year x) (fst k)) as [Ex|]; simpl; [|reflexivity].
destruct (String.eqb_spec (d_title x) (snd k)) as [Et|]; simpl; [|reflexivity].
destruct (String.eqb_spec (d_year y) (fst k)) as [Ey|]; simpl; [|reflexivity].
destruct (String.eqb_spec (d_title y) (snd k)) as [Eu|]; simpl; [|reflexivity].
assert (K : sort_key x = sort_key y) by (unfold sort_key; congruence).
rewrite K, key_lt_irrefl in E; discriminate.
Qed.

(** The sort is stable: the records with one and the same key keep the
    order they had. *)
Lemma sort_desc_stable (k : string * string) (l : list dashboard_pub) :
  with_sort_key k (sort_desc l) = with_sort_key k l.
Proof.
induction l as [|x l IH]; [reflexivity|].
cbn [sort_desc]; rewrite insert_desc_with_key.
unfold with_sort_key in *; cbn [filter]; rewrite IH; reflexivity.
Qed.

Lemma sorted_tail (l1 l2 : list dashboard_pub) (r : dashboard_pub) :
  StronglySorted desc_pair (l1 ++ r :: l2)%list -> Forall (desc_pair r) l2.
Proof.
induction l1 as [|x l1 IH]; simpl; intro H; inversion H; subst; auto.
Qed.

Lemma sorted_inputs (l : list pub) :
  StronglySorted desc_pair (map to_dashboard l) ->
  StronglySorted MoreSpec.desc_input l.
Proof.
induction l as [|a l IH]; simpl; intro H; [constructor|].
inversion H as [|? ? Hl Ha]; subst. constructor; [auto|].
rewrite Forall_map in Ha. eapply Forall_impl; [|exact Ha].
intros b Hb; exact Hb.
Qed.

Lemma sorted_inputs_tail (l1 l2 : list pub) (r : pub) :
  StronglySorted MoreSpec.desc_input (l1 ++ r :: l2)%list ->
  Forall (MoreSpec.desc_input r) l2.
Proof.
induction l1 as [|x l1 IH]; simpl; intro H; inversion H; subst; auto.
Qed.

(** C3: every output record of [build_dashboard_data] has the year and
    the title of the record it is built from; the function returns the
    converted records, each of them once, in descending lexicographic
    order of (year, title) under string comparison: the output is the
    conversion of a rearrangement of the input that is in that order; a
    record whose year is empty has only records with an empty year after
    it, so it stands after every record with a year; and three records
    with years 2021, 2023, 2020 and any titles come out in the order
    2023, 2021, 2020. *)
Theorem build_dashboard_data_sorted :
  (forall p : pub,
     d_year (to_dashboard p) = year p /\ d_title (to_dashboard p) = title p) /\
  (forall pubs : list pub,
     Permutation (map to_dashboard pubs) (build_dashboard_data pubs) /\
     StronglySorted desc_pair (build_dashboard_data pubs) /\
     (forall l1 r l2,
        build_dashboard_data pubs = (l1 ++ r :: l2)%list -> d_year r = "" ->
        Forall (fun x => d_year x = "") l2) /\
     (exists sorted : list pub,
        Permutation pubs sorted /\
        build_dashboard_data pubs = map to_dashboard sorted /\
        map d_year (build_dashboard_data pubs) = map year sorted /\
        map d_title (build_dashboard_data pubs) = map title sorted /\
        StronglySorted MoreSpec.desc_input sorted /\
        (forall s1 r s2,
           sorted = (s1 ++ r :: s2)%list -> year r = "" ->
           Forall (fun x => year x = "") s2))) /\
  (forall s : string, s <> "" -> lt "" s = true /\ lt s "" = false) /\
  (forall p1 p2 p3 : pub,
     year p1 = "2021" -> year p2 = "2023" -> year p3 = "2020" ->
     build_dashboard_data [p1; p2; p3] =
       [to_dashboard p2; to_dashboard p1; to_dashboard p3] /\
     map d_year (build_dashboard_data [p1; p2; p3]) = ["2023"; "2021"; "2020"] /\
     map d_title (build_dashboard_data [p1; p2; p3]) = [title p2; title p1; title p3]).
Proof.
split; [intro p; split; reflexivity|].
split; [|split].
- intro pubs; unfold build_dashboard_data.
  split; [apply sort_desc_perm|]. split; [apply sort_desc_sorted|].
  split.
  + intros l1 r l2 E Hr.
    pose proof (sort_desc_sorted (map to_dashboard pubs)) as H.
    rewrite E in H; apply sorted_tail in H.
    eapply Forall_impl; [|exact H].
    intros x [Hx|[Hx _]]; [|congruence].
    rewrite Hr, lt_empty_r in Hx; discriminate.
  + destruct (Permutation_map_inv to_dashboard pubs
                (Permutation_sym (sort_desc_perm (map to_dashboard pubs))))
      as (sorted & E & P).
    exists sorted. split; [exact P|]. split; [exact E|].
    pose proof (sort_desc_sorted (map to_dashboard pubs)) as H.
    rewrite E in H |- *. apply sorted_inputs in H.
    rewrite !map_map. split; [reflexivity|]. split; [reflexivity|].
    split; [exact H|].
    intros s1 r s2 Es Hr. rewrite Es in H; apply sorted_inputs_tail in H.
    eapply Forall_impl; [|exact H].
    intros x [Hx|[Hx _]]; [|congruence].
    rewrite Hr, lt_empty_r in Hx; discriminate.
- intros s Hs; split; [apply lt_empty_l, Hs | apply lt_empty_r].
- intros p1 p2 p3 H1 H2 H3.
  assert (E : build_dashboard_data [p1; p2; p3] =
              [to_dashboard p2; to_dashboard p1; to_dashboard p3]).
  { unfold build_dashboard_data; simpl.
    unfold key_lt, key_le, sort_key, to_dashboard; simpl.
    rewrite H1, H2, H3; reflexivity. }
  rewrite E; split; [reflexivity|]. simpl. rewrite H1, H2, H3. split; reflexivity.
Qed.

Lemma build_dashboard_data_sorted_witness :
  (build_dashboard_data [pm_first; pm_heart; keyless] =
     [to_dashboard pm_heart; to_dashboard pm_first; to_dashboard keyless] /\
   map d_year (build_dashboard_data [pm_first; pm_heart; keyless]) =
     ["2023"; "2021"; "2020"] /\
   map d_title (build_dashboard_data [pm_first; pm_heart; keyless]) =
     [title pm_heart; title pm_first; title keyless]) /\
  Forall (fun x => d_year x = "")
         [to_dashboard web_missing_year].
Proof.
split.
- apply (proj2 (proj2 (proj2 build_dashboard_data_sorted)) pm_first pm_heart keyless);
    reflexivity.
- apply (proj1 (proj2 (proj2 (proj1 (proj2 build_dashboard_data_sorted)
                                [pm_first; missing_year; web_missing_year])))
           [to_dashboard pm_first] (to_dashboard missing_year)
           [to_dashboard web_missing_year]); reflexivity.
Defined.

End SortClaims.

(* ================================================================== *)
(** * The PubMed parser                                                 *)
(* ================================================================== *)

Module ParserClaims.

Import PyStr Xml Parser Spec Samples PyStrFacts.

(** The parser returns a record exactly when the article has a
    [MedlineCitation] with an [Article] child. *)
Lemma parse_returns (article : element) :
  (exists r, parse_pubmed_article article = Some r) <->
  (exists medline art,
     find_desc "MedlineCitation" article = Some medline /\
     find "Article" medline = Some art).
Proof.
unfold parse_pubmed_article.
destruct (find_desc "MedlineCitation" article) as [medline|] eqn:Em.
- destruct (find "Article" medline) as [art|] eqn:Ea.
  + split; intros _; [exists medline, art; auto | eauto].
  + split; [intros [r H]; discriminate | intros (m & a & [= <-] & H); congruence].
- split; [intros [r H] | intros (m & a & H & _)]; discriminate.
Qed.

Lemma parsed_doi (article : element) (r : pub) :
  parse_pubmed_article article = Some r -> doi r = parse_doi article.
Proof.
unfold parse_pubmed_article.
destruct (find_desc "MedlineCitation" article) as [medline|]; [|discriminate].
destruct (find "Article" medline) as [art|]; [|discriminate].
intros [= <-]; reflexivity.
Qed.

Lemma parsed_abstract (article medline art : element) (r : pub) :
  find_desc "MedlineCitation" article = Some medline ->
  find "Article" medline = Some art ->
  parse_pubmed_article article = Some r -> abstract r = parse_abstract art.
Proof.
unfold parse_pubmed_article; intros -> ->; intros [= <-]; reflexivity.
Qed.

Lemma doi_step_cases (d : string) (eid : element) :
  doi_step d eid = if is_doi_id eid then text_or_empty (text_of eid) else d.
Proof.
unfold doi_step, is_doi_id; destruct (get_attr "IdType" eid); reflexivity.
Qed.

(** The DOI loop only looks at the doi-typed entries, and each of them
    overwrites what the earlier ones left. *)
Lemma doi_loop_filter (l : list element) (d : string) :
  fold_left doi_step l d =
  fold_left (fun _ eid => text_or_empty (text_of eid)) (filter is_doi_id l) d.
Proof.
revert d; induction l as [|e l IH]; intro d; simpl; [reflexivity|].
rewrite IH, doi_step_cases; destruct (is_doi_id e); reflexivity.
Qed.

Lemma parse_doi_last (article : element) (earlier : list element) (e : element) :
  doi_entries article = (earlier ++ [e])%list ->
  parse_doi article = text_or_empty (text_of e).
Proof.
unfold parse_doi, doi_entries; intro H.
rewrite doi_loop_filter, H, fold_left_app; reflexivity.
Qed.

(** C6: when the parsed article has doi-typed [ArticleId] entries, the
    [doi] of the record is the text of the last of them in document
    order, the empty string if that entry has no text; the entries
    before it do not count.  Without such an entry the [doi] is empty. *)
Theorem last_doi_wins (article : element) (r : pub) :
  parse_pubmed_article article = Some r ->
  (forall earlier e,
     doi_entries article = (earlier ++ [e])%list ->
     doi r = text_or_empty (text_of e)) /\
  (doi_entries article = [] -> doi r = "").
Proof.
intro H; rewrite (parsed_doi _ _ H); split.
- intros earlier e; apply parse_doi_last.
- unfold parse_doi, doi_entries; intro E; rewrite doi_loop_filter, E; reflexivity.
Qed.

Lemma last_doi_wins_witness :
  exists r, parse_pubmed_article sample_article = Some r /\ doi r = "10.1/last".
Proof.
eexists; split; [reflexivity|].
apply (proj1 (last_doi_wins sample_article _ eq_refl)
         [Element "ArticleId" [("IdType", "doi")] (Some "10.1/first") [] None]
         (Element "ArticleId" [("IdType", "doi")] (Some "10.1/last") [] None)).
reflexivity.
Defined.

Lemma add_part_cases (parts : list string) (at_ : element) :
  add_part parts at_ =
  if truthy (section_text at_) then (parts ++ [render_section at_])%list else parts.
Proof.
unfold add_part, render_section.
destruct (truthy (section_label at_)), (truthy (section_text at_)); reflexivity.
Qed.

Lemma abstract_loop (l : list element) (parts : list string) :
  fold_left add_part l parts =
  (parts ++ map render_section (filter (fun at_ => truthy (section_text at_)) l))%list.
Proof.
revert parts; induction l as [|e l IH]; intro parts; simpl.
- rewrite app_nil_r; reflexivity.
- rewrite IH, add_part_cases. destruct (truthy (section_text e)); simpl.
  + rewrite <- app_assoc; reflexivity.
  + reflexivity.
Qed.

(** C8 (as amended): for every [Abstract] element of a parsed article,
    the abstract is the join by one space of what its [AbstractText]
    sections contribute, in order: "Label: text" for a section with a
    label, the text for a section without; a section is skipped exactly
    when its text (joined and trimmed) is empty, whether it has a label
    or not. *)
Theorem abstract_sections_joined (article medline art abs_el : element) :
  find_desc "MedlineCitation" article = Some medline ->
  find "Article" medline = Some art ->
  find "Abstract" art = Some abs_el ->
  exists r,
    parse_pubmed_article article = Some r /\
    abstract r = join " " (map render_section (kept_sections abs_el)) /\
    (forall at_, In at_ (findall "AbstractText" abs_el) ->
       (In at_ (kept_sections abs_el) <-> section_text at_ <> "")).
Proof.
intros Hm Ha Habs.
destruct (proj2 (parse_returns article)) as [r Hr]; [eauto|].
exists r; split; [assumption|]; split.
- rewrite (parsed_abstract _ _ _ _ Hm Ha Hr).
  unfold parse_abstract; rewrite Habs.
  unfold abstract_of, kept_sections; rewrite abstract_loop; reflexivity.
- intros at_ Hin; unfold kept_sections; rewrite filter_In, truthy_true; tauto.
Qed.

Lemma abstract_sections_joined_witness :
  exists r,
    parse_pubmed_article sample_article = Some r /\
    abstract r = join " " (map render_section (kept_sections sample_abstract)) /\
    (forall at_, In at_ (findall "AbstractText" sample_abstract) ->
       (In at_ (kept_sections sample_abstract) <-> section_text at_ <> "")).
Proof.
eapply (abstract_sections_joined sample_article); reflexivity.
Defined.

(** C8 as stated fails on a labelled section without text: the code
    skips it, it does not render the label alone. *)
Lemma labelled_empty_section_skipped :
  exists r,
    parse_pubmed_article sample_article = Some r /\
    abstract r = "METHODS: We did it. Plain text." /\
    abstract_labelled_always sample_abstract =
      "BACKGROUND:  METHODS: We did it. Plain text." /\
    abstract r <> abstract_labelled_always sample_abstract.
Proof.
eexists; split; [reflexivity|]. repeat split. discriminate.
Qed.

End ParserClaims.

(* ================================================================== *)
(** * fetch_url                                                         *)
(* ================================================================== *)

Module FetchClaims.

Import Fetch Samples.

Lemma requests_app (a b : list event) :
  requests (a ++ b)%list = (requests a + requests b)%nat.
Proof. unfold requests; rewrite filter_app, length_app; reflexivity. Qed.

Lemma extends_nil (w : World) : extends w w [].
Proof. unfold extends; simpl; rewrite app_nil_r; auto. Qed.

Lemma extends_trans (w w1 w2 : World) (e1 e2 : list event) :
  extends w w1 e1 -> extends w1 w2 e2 -> extends w w2 (e1 ++ e2)%list.
Proof.
intros (N1 & C1 & T1) (N2 & C2 & T2); repeat split.
- congruence.
- rewrite C2, C1, requests_app; lia.
- rewrite T2, T1, app_assoc; reflexivity.
Qed.

Lemma extends_request (w : World) (url : string) :
  extends w (mkWorld (net w) (S (calls w)) (trace w ++ [Request url])) [Request url].
Proof. unfold extends, requests; simpl; repeat split; lia. Qed.

Lemma extends_log (w : World) (ev : event) :
  requests [ev] = 0 -> extends w (log ev w) [ev].
Proof. intro H; unfold extends, log; simpl; rewrite H; repeat split; lia. Qed.

(** One iteration never raises; it makes one request, and then either
    returns or goes on after a sleep. *)
Lemma attempt_once_total (url : string) (retries delay attempt : nat) (w : World) :
  exists r evs w',
    attempt_once url retries delay attempt w = (inl r, w') /\
    extends w w' evs /\ requests evs = 1.
Proof.
unfold attempt_once, try_except, bind, urlopen_read, ret.
destruct (net w (calls w) url) as [body|e].
- exists (Some (Some body)), [Request url]; eexists; split; [reflexivity|].
  split; [apply extends_request | reflexivity].
- destruct (attempt <? retries - 1)%nat; unfold sleep, print_stderr; simpl.
  + exists None, [Request url; Sleep (delay * (attempt + 1))]; eexists.
    split; [reflexivity|]. split; [|reflexivity].
    unfold extends, log, requests; simpl; rewrite <- app_assoc; simpl.
    repeat split; lia.
  + exists (Some None), [Request url; Warn (warning url e)]; eexists.
    split; [reflexivity|]. split; [|reflexivity].
    unfold extends, log, requests; simpl; rewrite <- app_assoc; simpl.
    repeat split; lia.
Qed.

(** The loop never raises, whatever the network does, and makes at most
    one request per attempt it is given. *)
Lemma fetch_loop_total (url : string) (retries delay : nat) (attempts : list nat) :
  forall w, exists r evs w',
    fetch_loop url retries delay attempts w = (inl r, w') /\
    extends w w' evs /\ requests evs <= List.length attempts.
Proof.
induction attempts as [|attempt rest IH]; intro w; simpl.
- exists None, [], w; split; [reflexivity|].
  split; [apply extends_nil | unfold requests; simpl; lia].
- unfold bind.
  destruct (attempt_once_total url retries delay attempt w) as (r & evs & w1 & E & X & R).
  rewrite E. destruct r as [v|].
  + exists v, evs, w1; split; [reflexivity|]. split; [assumption | lia].
  + destruct (IH w1) as (r' & evs' & w2 & E' & X' & R').
    exists r', (evs ++ evs')%list, w2; split; [assumption|].
    split; [eapply extends_trans; eassumption | rewrite requests_app; lia].
Qed.

(** C9: [fetch_url] with its 3 retries never raises and makes at most 3
    requests.  It
    returns the body of the first request that succeeds, after a sleep of
    [delay * 1] following a first failure and of [delay * 2] following a
    second one; when the three requests fail it prints a warning and
    returns [None], without a further sleep. *)
Theorem fetch_url_retries (url : string) (delay : nat) (w : World) :
  exists (r : option string) (evs : list event) (w' : World),
    fetch_url url 3 delay w = (inl r, w') /\
    extends w w' evs /\
    1 <= requests evs <= 3 /\
    ((exists body,
        net w (calls w) url = inl body /\
        r = Some body /\ evs = [Request url]) \/
     (exists e0 body,
        net w (calls w) url = inr e0 /\
        net w (S (calls w)) url = inl body /\
        r = Some body /\
        evs = [Request url; Sleep (delay * 1); Request url]) \/
     (exists e0 e1 body,
        net w (calls w) url = inr e0 /\
        net w (S (calls w)) url = inr e1 /\
        net w (S (S (calls w))) url = inl body /\
        r = Some body /\
        evs = [Request url; Sleep (delay * 1); Request url;
               Sleep (delay * 2); Request url]) \/
     (exists e0 e1 e2,
        net w (calls w) url = inr e0 /\
        net w (S (calls w)) url = inr e1 /\
        net w (S (S (calls w))) url = inr e2 /\
        r = None /\
        evs = [Request url; Sleep (delay * 1); Request url;
               Sleep (delay * 2); Request url; Warn (warning url e2)])).
Proof.
unfold fetch_url; simpl.
unfold bind, attempt_once, try_except, bind, urlopen_read, ret, sleep, print_stderr, log.
simpl.
destruct (net w (calls w) url) as [b0|e0] eqn:E0; simpl.
{ exists (Some b0), [Request url]; eexists; split; [reflexivity|].
  split; [apply extends_request|]. split; [unfold requests; simpl; lia|]. left; eauto. }
destruct (net w (S (calls w)) url) as [b1|e1] eqn:E1; simpl.
{ exists (Some b1), [Request url; Sleep (delay * 1); Request url]; eexists.
  split; [reflexivity|]. split.
  - unfold extends, requests; simpl; rewrite <- !app_assoc; simpl; repeat split; lia.
  - split; [unfold requests; simpl; lia|]. right; left; eauto 10. }
destruct (net w (S (S (calls w))) url) as [b2|e2] eqn:E2; simpl.
{ exists (Some b2),
    [Request url; Sleep (delay * 1); Request url; Sleep (delay * 2); Request url].
  eexists. split; [reflexivity|]. split.
  - unfold extends, requests; simpl; rewrite <- !app_assoc; simpl; repeat split; lia.
  - split; [unfold requests; simpl; lia|]. right; right; left; eauto 10. }
exists None,
  [Request url; Sleep (delay * 1); Request url; Sleep (delay * 2); Request url;
   Warn (warning url e2)].
eexists. split; [reflexivity|]. split.
- unfold extends, requests; simpl; rewrite <- !app_assoc; simpl; repeat split; lia.
- split; [unfold requests; simpl; lia|]. right; right; right; eauto 10.
Qed.

Lemma fetch_url_retries_witness :
  (exists w', fetch_url "https://example.org/a" 3 2 flaky_world =
              (inl (Some "body of https://example.org/a"), w')) /\
  (exists r evs w', fetch_url "https://example.org/a" 3 2 dead_world = (inl r, w') /\
                    extends dead_world w' evs /\ 1 <= requests evs <= 3).
Proof.
split.
- eexists; reflexivity.
- destruct (fetch_url_retries "https://example.org/a" 2 dead_world)
    as (r & evs & w' & H & X & R & _).
  exists r, evs, w'; auto.
Defined.

End FetchClaims.

(* ================================================================== *)
(** * The renderer                                                      *)
(* ================================================================== *)

Module RendererClaims.

Import PyStr Renderer Spec Samples PyStrFacts OrderFacts.

Lemma insert_uniq_In (y x : string) (l : list string) :
  In x (insert_uniq y l) <-> x = y \/ In x l.
Proof.
induction l as [|z l IH]; simpl; [intuition|].
destruct (String.eqb_spec y z) as [->|N]; simpl; [intuition|].
destruct (le y z); simpl; [intuition|].
rewrite IH; intuition.
Qed.

Lemma sorted_set_In (x : string) (l : list string) : In x (sorted_set l) <-> In x l.
Proof.
induction l as [|y l IH]; simpl; [tauto|].
rewrite insert_uniq_In, IH; intuition.
Qed.

Lemma insert_uniq_sorted (y : string) (l : list string) :
  StronglySorted ascending l -> StronglySorted ascending (insert_uniq y l).
Proof.
induction l as [|z l IH]; simpl; intro H; [repeat constructor|].
inversion H as [|? ? Hl Hz]; subst.
destruct (String.eqb_spec y z) as [->|N]; [assumption|].
destruct (le y z) eqn:E.
- constructor; [assumption|]. constructor; [exact E|].
  eapply Forall_impl; [|exact Hz]. intros u Hu; eapply le_trans; eauto.
- constructor; [auto|]. apply Forall_forall; intros u Hu.
  apply insert_uniq_In in Hu as [->|Hu].
  + destruct (le_total y z); [congruence | assumption].
  + rewrite Forall_forall in Hz; apply Hz; assumption.
Qed.

Lemma sorted_set_sorted (l : list string) : StronglySorted ascending (sorted_set l).
Proof.
induction l as [|y l IH]; simpl; [constructor | apply insert_uniq_sorted, IH].
Qed.

Lemma sorted_head_least (y0 : string) (l : list string) (y : string) :
  StronglySorted ascending (y0 :: l) -> In y (y0 :: l) -> le y0 y = true.
Proof.
intros H [<-|Hy]; [apply le_refl|].
inversion H as [|? ? _ Hall]; subst. rewrite Forall_forall in Hall.
apply Hall; assumption.
Qed.

Lemma sorted_last_greatest (l : list string) (d y : string) :
  StronglySorted ascending l -> In y l -> le y (last l d) = true.
Proof.
revert y; induction l as [|z l IH]; intro y; [intros _ []|].
intros H Hy; inversion H as [|? ? Hl Hall]; subst.
destruct l as [|z' l].
- destruct Hy as [<-|[]]; apply le_refl.
- change (last (z :: z' :: l) d) with (last (z' :: l) d).
  destruct Hy as [<-|Hy]; [|auto].
  rewrite Forall_forall in Hall.
  eapply le_trans; [apply (Hall z'); simpl; auto | apply IH; simpl; auto].
Qed.

Lemma last_In (l : list string) (z d : string) : In (last (z :: l) d) (z :: l).
Proof.
revert z; induction l as [|z' l IH]; intro z; [simpl; auto|].
change (last (z :: z' :: l) d) with (last (z' :: l) d). right; apply IH.
Qed.

Lemma nonempty_years_In (pubs : list dashboard_pub) (y : string) :
  In y (nonempty_years pubs) <-> y <> "" /\ exists p, In p pubs /\ d_year p = y.
Proof.
unfold nonempty_years; rewrite filter_In, in_map_iff, truthy_true.
split; intros [H1 H2]; split; auto.
- destruct H1 as [p [E H]]; eauto.
- destruct H2 as [p [H E]]; eauto.
Qed.

Lemma contains_clean_prefix (t x y : string) :
  contains "%" x = false ->
  contains (String "%" t) (x ++ y) = contains (String "%" t) y.
Proof.
induction x as [|c x IH]; intro H; [reflexivity|].
cbn [contains starts_with] in H. apply orb_false_iff in H as [H1 H2].
rewrite andb_true_r in H1.
change (String c x ++ y) with (String c (x ++ y)).
cbn [contains starts_with]. rewrite H1, IH by assumption. reflexivity.
Qed.

Lemma contains_percent_append (a b : string) :
  contains "%" (a ++ b) = contains "%" a || contains "%" b.
Proof.
induction a as [|c a IH].
- destruct b; reflexivity.
- change (String c a ++ b) with (String c (a ++ b)).
  cbn [contains starts_with]. rewrite IH, orb_assoc; reflexivity.
Qed.

Lemma digits_clean (fuel n : nat) (acc : string) :
  contains "%" acc = false -> contains "%" (digits_fuel fuel n acc) = false.
Proof.
revert n acc; induction fuel as [|fuel IH]; intros n acc H; [exact H|].
cbn [digits_fuel].
assert (D : contains "%" (String (ascii_of_nat (48 + n mod 10)) acc) = false).
{ cbn [contains starts_with]. rewrite H, andb_true_r, orb_false_r.
  pose proof (Nat.mod_upper_bound n 10 ltac:(lia)) as B.
  destruct (n mod 10) as [|[|[|[|[|[|[|[|[|[|k]]]]]]]]]]; try reflexivity; lia. }
destruct (n <? 10)%nat; [exact D | apply IH, D].
Qed.

Lemma of_nat_clean (n : nat) : contains "%" (of_nat n) = false.
Proof. apply digits_clean; reflexivity. Qed.

(** The year range is "N/A" or two years of the records and an en dash. *)
Lemma year_range_form (pubs : list dashboard_pub) :
  year_range pubs = "N/A" \/
  exists lo hi,
    year_range pubs = lo ++ en_dash ++ hi /\
    (exists p, In p pubs /\ d_year p = lo) /\
    (exists p, In p pubs /\ d_year p = hi).
Proof.
unfold year_range, years.
assert (Hin : forall y, In y (sorted_set (nonempty_years pubs)) ->
                        exists p, In p pubs /\ d_year p = y).
{ intros y Hy; apply sorted_set_In, nonempty_years_In in Hy; tauto. }
destruct (sorted_set (nonempty_years pubs)) as [|y0 l]; [left; reflexivity|].
right; exists y0, (last (y0 :: l) y0); split; [reflexivity|].
split; apply Hin; [simpl; auto | apply last_In].
Qed.

Lemma year_range_clean (pubs : list dashboard_pub) :
  (forall p, In p pubs -> contains "%" (d_year p) = false) ->
  contains "%" (year_range pubs) = false.
Proof.
intro H. destruct (year_range_form pubs) as [->|(lo & hi & -> & [p [Hp <-]] & [q [Hq <-]])];
  [reflexivity|].
rewrite !contains_percent_append, (H p Hp), (H q Hq); reflexivity.
Qed.

(** A placeholder that stands once, behind text without percent sign. *)
Lemma replace_placeholder (t new pre post : string) :
  contains "%" pre = false ->
  contains (String "%" t) (but_last (String "%" t)) = false ->
  contains (String "%" t) post = false ->
  replace (String "%" t) new (pre ++ String "%" t ++ post) = pre ++ new ++ post.
Proof.
intros Hpre Hb Hpost.
rewrite PrimitiveFacts.replace_first;
  [| discriminate | rewrite contains_clean_prefix by assumption; exact Hb].
rewrite PrimitiveFacts.replace_absent by (discriminate || assumption).
reflexivity.
Qed.

(** What [main] writes for the footer of the template. *)
Lemma main_footer (data_json update_date : string) (pubs : list dashboard_pub) :
  (forall p, In p pubs -> contains "%" (d_year p) = false) ->
  main MoreSpec.footer_line data_json pubs update_date =
  "via PubMed &mdash; " ++ of_nat (List.length pubs) ++ " publications (" ++
  year_range pubs ++ ") &mdash; Last updated: " ++ update_date.
Proof.
intro Hy. unfold main.
pose proof (of_nat_clean (List.length pubs)) as Hn.
pose proof (year_range_clean pubs Hy) as Hr.
generalize dependent (year_range pubs); intros yr Hr.
generalize dependent (of_nat (List.length pubs)); intros n Hn.
rewrite (PrimitiveFacts.replace_absent "%%DATA%%" data_json MoreSpec.footer_line)
  by (discriminate || reflexivity).
change MoreSpec.footer_line
  with ("via PubMed &mdash; " ++ "%%PUB_COUNT%%" ++
        " publications (%%YEAR_RANGE%%) &mdash; Last updated: %%UPDATE_DATE%%").
rewrite (replace_placeholder "%PUB_COUNT%%" n "via PubMed &mdash; ") by reflexivity.
change " publications (%%YEAR_RANGE%%) &mdash; Last updated: %%UPDATE_DATE%%"
  with (" publications (" ++ "%%YEAR_RANGE%%" ++ ") &mdash; Last updated: %%UPDATE_DATE%%").
assert (E1 : "via PubMed &mdash; " ++ n ++ " publications (" ++ "%%YEAR_RANGE%%" ++
             ") &mdash; Last updated: %%UPDATE_DATE%%" =
             ("via PubMed &mdash; " ++ n ++ " publications (") ++ "%%YEAR_RANGE%%" ++
             ") &mdash; Last updated: %%UPDATE_DATE%%").
{ rewrite !SubstringFacts.append_assoc; reflexivity. }
rewrite E1; clear E1.
rewrite (replace_placeholder "%YEAR_RANGE%%" yr);
  [| rewrite !contains_percent_append, Hn; reflexivity | reflexivity | reflexivity].
change ") &mdash; Last updated: %%UPDATE_DATE%%"
  with (") &mdash; Last updated: " ++ "%%UPDATE_DATE%%" ++ "").
assert (E2 : ("via PubMed &mdash; " ++ n ++ " publications (") ++ yr ++
             ") &mdash; Last updated: " ++ "%%UPDATE_DATE%%" ++ "" =
             ("via PubMed &mdash; " ++ n ++ " publications (" ++ yr ++
              ") &mdash; Last updated: ") ++ "%%UPDATE_DATE%%" ++ "").
{ rewrite !SubstringFacts.append_assoc; reflexivity. }
rewrite E2; clear E2.
rewrite (replace_placeholder "%UPDATE_DATE%%" update_date);
  [| rewrite !contains_percent_append, Hn, Hr; reflexivity | reflexivity | reflexivity].
rewrite SubstringFacts.append_empty_r, !SubstringFacts.append_assoc; reflexivity.
Qed.

(** C7: what [main] writes is the template after the four replacements,
    of the data placeholder by the serialised document, of the count
    placeholder by the number of publications, of the year-range
    placeholder by the year range and of the date placeholder by the
    date; on the footer of the template this gives the count and the
    year range in their places, for every array whose years have no
    percent sign.  With an empty [publications] array the count is "0"
    and the year range "N/A" (shown in full on the two template lines
    that carry the placeholders); in general the year range is "N/A" when
    no record has a non-empty year, and otherwise the least and the
    greatest, under string comparison, of the non-empty year strings,
    joined by an en dash, empty years being left out. *)
Theorem render_summary :
  (forall template data_json update_date : string,
     main template data_json [] update_date =
     replace "%%UPDATE_DATE%%" update_date
       (replace "%%YEAR_RANGE%%" "N/A"
          (replace "%%PUB_COUNT%%" "0"
             (replace "%%DATA%%" data_json template)))) /\
  main template_lines empty_document [] "04 Nov 2026" =
    "via PubMed &mdash; 0 publications (N/A) &mdash; Last updated: 04 Nov 2026
    const FULL_DATA = " ++ empty_document ++ ";" /\
  (forall pubs : list dashboard_pub,
     (forall p, In p pubs -> d_year p = "") -> year_range pubs = "N/A") /\
  (forall pubs : list dashboard_pub,
     (exists p, In p pubs /\ d_year p <> "") ->
     exists lo hi : string,
       year_range pubs = lo ++ en_dash ++ hi /\
       lo <> "" /\ hi <> "" /\
       (exists p, In p pubs /\ d_year p = lo) /\
       (exists p, In p pubs /\ d_year p = hi) /\
       (forall p, In p pubs -> d_year p <> "" ->
          le lo (d_year p) = true /\ le (d_year p) hi = true)) /\
  (forall (template data_json update_date : string) (pubs : list dashboard_pub),
     main template data_json pubs update_date =
     replace "%%UPDATE_DATE%%" update_date
       (replace "%%YEAR_RANGE%%" (year_range pubs)
          (replace "%%PUB_COUNT%%" (of_nat (List.length pubs))
             (replace "%%DATA%%" data_json template)))) /\
  (forall (data_json update_date : string) (pubs : list dashboard_pub),
     (forall p, In p pubs -> contains "%" (d_year p) = false) ->
     main MoreSpec.footer_line data_json pubs update_date =
     "via PubMed &mdash; " ++ of_nat (List.length pubs) ++ " publications (" ++
     year_range pubs ++ ") &mdash; Last updated: " ++ update_date) /\
  (of_nat 0 = "0" /\ of_nat 4 = "4" /\ of_nat 1203 = "1203") /\
  main template_lines empty_document MoreSpec.four_records "04 Nov 2026" =
    "via PubMed &mdash; 4 publications (2019" ++ en_dash ++
    "2023) &mdash; Last updated: 04 Nov 2026
    const FULL_DATA = " ++ empty_document ++ ";".
Proof.
split; [reflexivity|]. split; [reflexivity|]. split; [|split].
- intros pubs H; unfold year_range, years.
  assert (E : nonempty_years pubs = []).
  { destruct (nonempty_years pubs) as [|y l] eqn:E; [reflexivity|].
    assert (Hy : In y (nonempty_years pubs)) by (rewrite E; simpl; auto).
    apply nonempty_years_In in Hy as [Hy [p [Hp Ep]]].
    rewrite (H p Hp) in Ep; congruence. }
  rewrite E; reflexivity.
- intros pubs [p0 [Hp0 Hy0]]; unfold year_range, years.
  pose proof (sorted_set_sorted (nonempty_years pubs)) as Hs.
  assert (Hin : forall y, In y (sorted_set (nonempty_years pubs)) <->
                          y <> "" /\ exists p, In p pubs /\ d_year p = y).
  { intro y; rewrite sorted_set_In; apply nonempty_years_In. }
  destruct (sorted_set (nonempty_years pubs)) as [|y0 l] eqn:E.
  { exfalso; apply (Hin (d_year p0)); eauto. }
  exists y0, (last (y0 :: l) y0).
  destruct (proj1 (Hin y0)) as [N0 X0]; [simpl; auto|].
  destruct (proj1 (Hin (last (y0 :: l) y0))) as [N1 X1]; [apply last_In|].
  repeat split; try assumption.
  + apply (sorted_head_least y0 l); [assumption|]. apply Hin; eauto.
  + apply sorted_last_greatest; [assumption|]. apply Hin; eauto.
- split; [reflexivity|]. split; [exact main_footer|].
  split; [repeat split; reflexivity | reflexivity].
Qed.

Lemma render_summary_witness :
  (exists lo hi : string,
     year_range [of_year "2021"; of_year ""; of_year "2019"; of_year "2023"] =
       lo ++ en_dash ++ hi /\
     lo <> "" /\ hi <> "" /\
     (exists p, In p [of_year "2021"; of_year ""; of_year "2019"; of_year "2023"] /\
                d_year p = lo) /\
     (exists p, In p [of_year "2021"; of_year ""; of_year "2019"; of_year "2023"] /\
                d_year p = hi) /\
     (forall p, In p [of_year "2021"; of_year ""; of_year "2019"; of_year "2023"] ->
        d_year p <> "" -> le lo (d_year p) = true /\ le (d_year p) hi = true)) /\
  main MoreSpec.footer_line empty_document MoreSpec.four_records "04 Nov 2026" =
    "via PubMed &mdash; " ++ of_nat (List.length MoreSpec.four_records) ++
    " publications (" ++ year_range MoreSpec.four_records ++
    ") &mdash; Last updated: " ++ "04 Nov 2026".
Proof.
split.
- apply (proj1 (proj2 (proj2 (proj2 render_summary)))).
  exists (of_year "2021"); split; [simpl; auto | discriminate].
- apply (proj1 (proj2 (proj2 (proj2 (proj2 (proj2 render_summary)))))).
  intros p Hp; simpl in Hp.
  repeat (destruct Hp as [<-|Hp]; [reflexivity|]). destruct Hp.
Defined.

End RendererClaims.

(* ================================================================== *)
(** * Further properties of the merge                                   *)
(* ================================================================== *)

Module MergeExtras.

Import PyStr Collector Spec Samples MoreSamples PyStrFacts DictFacts MergeFacts MergeProps
  MergeClaims.

(** The second loop only appends: what it returns is what it was given,
    followed by records of its input, each under its identity key, and
    the counter [added] goes up by their number. *)
Lemma secondary_loop_appends (l : list pub) (st : list (string * pub) * nat) :
  exists ext : list (string * pub),
    fst (fold_left add_secondary l st) = (fst st ++ ext)%list /\
    snd (fold_left add_secondary l st) = snd st + List.length ext /\
    List.length ext <= List.length l /\
    forall kr, In kr ext -> In (snd kr) l.
Proof.
revert st; induction l as [|p l IH]; intro st; simpl.
- exists []; rewrite app_nil_r; repeat split; auto.
- destruct (IH (add_secondary st p)) as (ext & E1 & E2 & E3 & E4).
  destruct (add_secondary_cases st p) as [E|(_ & _ & E)]; rewrite E in *.
  + exists ext; repeat split; auto.
  + simpl in E1, E2. exists ((identity_key p, p) :: ext); repeat split.
    * rewrite E1, <- app_assoc; reflexivity.
    * rewrite E2; simpl; lia.
    * simpl; lia.
    * intros kr [<-|H]; simpl; auto.
Qed.

Lemma add_primary_length (d : list (string * pub)) (p : pub) :
  List.length (add_primary d p) <= S (List.length d).
Proof.
unfold add_primary; destruct (truthy (primary_key p)); [|lia].
generalize (primary_key p); intro k.
induction d as [|[k0 w] d IH]; simpl; [lia|].
destruct (String.eqb k0 k); simpl; lia.
Qed.

Lemma primary_loop_length (l : list pub) (d : list (string * pub)) :
  List.length (fold_left add_primary l d) <= List.length d + List.length l.
Proof.
revert d; induction l as [|p l IH]; intro d; simpl; [lia|].
specialize (IH (add_primary d p)). pose proof (add_primary_length d p). lia.
Qed.

Lemma merge_appends (P S : list pub) :
  exists added : list pub,
    merge_publications P S = (merge_publications P [] ++ added)%list /\
    (forall r, In r added -> In r S) /\
    List.length added = snd (merge_state P S) /\
    List.length added <= List.length S.
Proof.
unfold merge_publications, merge_state.
destruct (secondary_loop_appends S (fold_left add_primary P [], 0))
  as (ext & E1 & E2 & E3 & E4).
exists (Dict.values ext); simpl in *; rewrite E1, E2.
unfold Dict.values; rewrite map_app, length_map; repeat split; auto.
intros r Hr; apply in_map_iff in Hr as [kr [<- Hkr]]; auto.
Qed.

(** X1: the records that [merge_publications] returns for the primary
    list alone come first and unchanged in the merged result; what
    follows are records of the secondary list, as many as the counter
    [added] says. *)
Theorem merge_extends_primary (P S : list pub) :
  exists added : list pub,
    merge_publications P S = (merge_publications P [] ++ added)%list /\
    (forall r, In r added -> In r S) /\
    List.length added = snd (merge_state P S) /\
    List.length added <= List.length S.
Proof. exact (merge_appends P S). Qed.

(** X2: in the merged result no identity key occurs twice, the identity
    key of every primary record that has one is present, and there are at
    most as many records as the two inputs have together. *)
Theorem merge_keys_distinct_and_kept (P S : list pub) :
  NoDup (map identity_key (merge_publications P S)) /\
  (forall p, In p P -> identity_key p <> "" ->
     In (identity_key p) (map identity_key (merge_publications P S))) /\
  List.length (merge_publications P S) <= List.length P + List.length S.
Proof.
pose proof (merge_state_inv P S) as Hinv.
split; [|split].
- unfold merge_publications; rewrite (keys_of_values _ Hinv); apply Hinv.
- intros p Hp Hk.
  destruct (merge_appends P S) as (added & E & _).
  rewrite E, map_app; apply in_or_app; left.
  unfold merge_publications.
  rewrite (keys_of_values _ (merge_state_inv P [])).
  apply mem_In_keys; unfold merge_state; simpl.
  apply primary_loop_mem; [assumption | apply truthy_true, Hk].
- destruct (merge_appends P S) as (added & E & _ & _ & L).
  rewrite E, length_app. unfold merge_publications, merge_state; simpl.
  unfold Dict.values; rewrite length_map.
  pose proof (primary_loop_length P []); simpl in *; lia.
Qed.

Lemma merge_keys_distinct_and_kept_witness :
  In (identity_key pm_first)
     (map identity_key (merge_publications [pm_first; pm_second] [web_heart])).
Proof.
apply (proj1 (proj2 (merge_keys_distinct_and_kept [pm_first; pm_second] [web_heart])));
  [simpl; auto | discriminate].
Defined.

Lemma fuzzy_loop_hit (tk k : string) (keys : list string) :
  In k keys -> fuzzy_match tk k = true -> fuzzy_loop tk keys = true.
Proof.
induction keys as [|k0 keys IH]; simpl; [tauto|].
intros [->|H] Hm; [rewrite Hm; reflexivity|].
destruct (fuzzy_match tk k0); auto.
Qed.

(** X3: a secondary record is left out, whatever its DOI, when its
    normalised title is not empty and has the same first 50 characters as
    the normalised title of a record without DOI that is already merged. *)
Theorem title_prefix_drops_secondary (P S : list pub) (s r : pub) :
  In r (merge_publications P S) -> norm (doi r) = "" ->
  norm (title s) <> "" ->
  take 50 (norm (title s)) = take 50 (norm (title r)) ->
  merge_publications P (S ++ [s]) = merge_publications P S.
Proof.
intros Hr Hd Hs Hpre.
unfold merge_publications, merge_state; rewrite fold_left_app; simpl.
fold (merge_state P S).
destruct (add_secondary_cases (merge_state P S) s) as [->|(Hm & Hk & E)];
  [reflexivity|exfalso].
(* the record was appended: the fuzzy loop must have missed [r] *)
unfold merge_publications in Hr; apply In_values in Hr as [k Hk0].
destruct (merge_state_inv P S) as [_ Hall]; rewrite Forall_forall in Hall.
destruct (Hall _ Hk0) as [Ek Tk]; simpl in Ek, Tk.
assert (Kr : k = norm (title r)).
{ rewrite Ek; unfold identity_key; apply por_falsy_l, truthy_false, Hd. }
assert (Hin : In k (Dict.keys (fst (merge_state P S)))).
{ unfold Dict.keys; apply in_map_iff; exists (k, r); auto. }
assert (Hf : fuzzy_loop (title_key s) (Dict.keys (fst (merge_state P S))) = true).
{ apply (fuzzy_loop_hit _ k); [assumption|].
  unfold fuzzy_match; rewrite title_key_norm, Tk.
  apply truthy_true in Hs; rewrite Hs, Kr, Hpre, String.eqb_refl; reflexivity. }
revert E; destruct (merge_state P S) as [merged added]; unfold add_secondary.
simpl in Hf, Hm. rewrite Hf.
destruct (truthy (doi_key s) && Dict.mem (doi_key s) merged);
  [intro E; inversion E; lia|].
destruct (truthy (title_key s) && Dict.mem (title_key s) merged);
  [intro E; inversion E; lia|].
simpl; intro E; inversion E; lia.
Qed.

Lemma title_prefix_drops_secondary_witness :
  merge_publications [pm_long] ([web_lung] ++ [web_long]) =
  merge_publications [pm_long] [web_lung].
Proof.
apply (title_prefix_drops_secondary [pm_long] [web_lung] web_long pm_long);
  [simpl; auto | reflexivity | discriminate | reflexivity].
Defined.

End MergeExtras.

(* ================================================================== *)
(** * Further properties of classification and output                   *)
(* ================================================================== *)

Module OutputExtras.

Import PyStr Collector Spec Samples MoreSamples PyStrFacts SubstringFacts
  ClassifyClaims OrderFacts SortClaims.

Lemma matching_topics_In (text t : string) :
  In t (matching_topics text) <->
  exists kws kw, In (t, kws) TOPIC_KEYWORDS /\ In kw kws /\ contains kw text = true.
Proof.
unfold matching_topics; rewrite in_map_iff; split.
- intros [[t' kws] [E H]]; simpl in E; subst t'.
  apply filter_In in H as [H1 H2]; simpl in H2.
  apply existsb_exists in H2 as [kw [Hk Hc]]; eauto.
- intros (kws & kw & H1 & H2 & H3); exists (t, kws); split; [reflexivity|].
  apply filter_In; split; [assumption|]; simpl.
  apply existsb_exists; eauto.
Qed.

Lemma contains_append (kw s e : string) :
  contains kw s = true -> contains kw (s ++ e) = true.
Proof.
rewrite !contains_iff; intros (a & b & ->); exists a, (b ++ e).
rewrite !append_assoc; reflexivity.
Qed.

(** X4: the labels of [classify_topics] are topics of the table or
    "Other", between one and seven of them, and they depend on the title
    and the abstract only up to letter case. *)
Theorem classify_topics_labels (p : pub) :
  (forall t, In t (classify_topics p) ->
     t = "Other" \/ In t (map fst TOPIC_KEYWORDS)) /\
  1 <= List.length (classify_topics p) <= 7 /\
  (forall q, lower (title q) = lower (title p) ->
             lower (abstract q) = lower (abstract p) ->
             classify_topics q = classify_topics p).
Proof.
split; [|split].
- destruct (classify_topics_cases p) as [[_ ->]|[_ ->]].
  + intros t [<-|[]]; auto.
  + intros t H; right. unfold matching_topics in H.
    apply in_map_iff in H as [r [<- H]]; apply filter_In in H as [H _].
    apply in_map; assumption.
- destruct (classify_topics_cases p) as [[_ ->]|[N ->]]; [simpl; lia|].
  split.
  + destruct (matching_topics (classify_text p)); [congruence | simpl; lia].
  + unfold matching_topics; rewrite length_map.
    etransitivity; [apply filter_length_le | simpl; lia].
- intros q Ht Ha.
  assert (E : classify_text q = classify_text p).
  { unfold classify_text; rewrite !lower_append, Ht, Ha; reflexivity. }
  unfold classify_topics; rewrite E; reflexivity.
Qed.

Lemma classify_topics_labels_witness :
  classify_topics ct_title_upper = classify_topics ct_title.
Proof.
apply (proj2 (proj2 (classify_topics_labels ct_title))); reflexivity.
Defined.

(** X5: text added at the end of the abstract never removes a topic: a
    topic other than "Other" found for a record is found for the record
    with the longer abstract too. *)
Theorem classify_topics_grow (p q : pub) (extra t : string) :
  title q = title p -> abstract q = abstract p ++ extra ->
  In t (classify_topics p) -> t <> "Other" -> In t (classify_topics q).
Proof.
intros Ht Ha Hin Hno.
assert (E : classify_text q = classify_text p ++ lower extra).
{ unfold classify_text; rewrite Ht, Ha, <- lower_append, !append_assoc; reflexivity. }
assert (Hp : In t (matching_topics (classify_text p))).
{ destruct (classify_topics_cases p) as [[_ Ec]|[_ Ec]]; rewrite Ec in Hin.
  - destruct Hin as [<-|[]]; congruence.
  - assumption. }
assert (Hq : In t (matching_topics (classify_text q))).
{ apply matching_topics_In in Hp as (kws & kw & H1 & H2 & H3).
  apply matching_topics_In; exists kws, kw; repeat split; try assumption.
  rewrite E; apply contains_append; assumption. }
destruct (classify_topics_cases q) as [[Em _]|[_ ->]]; [|assumption].
rewrite Em in Hq; destruct Hq.
Qed.

Lemma classify_topics_grow_witness :
  In "Imaging" (classify_topics ct_with_abstract).
Proof.
apply (classify_topics_grow ct_title ct_with_abstract
         "Smoking and lung function." "Imaging");
  [reflexivity | reflexivity | simpl; auto | discriminate].
Defined.

(** X6: [build_dashboard_data] returns as many records as it is given,
    and each of them carries at least one topic and the title, year,
    journal, DOI, PMID and abstract of an input record, its authors
    joined by a comma and a space, and its topics. *)
Theorem build_dashboard_data_records (pubs : list pub) :
  List.length (build_dashboard_data pubs) = List.length pubs /\
  forall x, In x (build_dashboard_data pubs) ->
    d_topics x <> [] /\
    exists p, In p pubs /\
      d_title x = title p /\ d_year x = year p /\ d_journal x = journal p /\
      d_doi x = doi p /\ d_pmid x = pmid p /\ d_abstract x = abstract p /\
      d_authors x = join ", " (authors p) /\ d_topics x = classify_topics p.
Proof.
unfold build_dashboard_data.
pose proof (sort_desc_perm (map to_dashboard pubs)) as Hperm.
split.
- rewrite <- (Permutation_length Hperm), length_map; reflexivity.
- intros x Hx. apply (Permutation_in _ (Permutation_sym Hperm)) in Hx.
  apply in_map_iff in Hx as [p [<- Hp]]. split.
  + simpl. destruct (classify_topics_cases p) as [[_ ->]|[N ->]];
      [discriminate | exact N].
  + exists p; simpl; repeat split; assumption.
Qed.

Lemma build_dashboard_data_records_witness :
  d_topics (to_dashboard ct_title) <> [].
Proof.
apply (proj2 (build_dashboard_data_records [pm_first; ct_title]) (to_dashboard ct_title)).
simpl; auto.
Defined.

(** X7: the sort of [build_dashboard_data] is stable: the records with
    one and the same (year, title) come out in the order in which they
    were given. *)
Theorem build_dashboard_data_stable (pubs : list pub) (k : string * string) :
  with_sort_key k (build_dashboard_data pubs) =
  with_sort_key k (map to_dashboard pubs).
Proof. unfold build_dashboard_data; apply sort_desc_stable. Qed.

End OutputExtras.

(* ================================================================== *)
(** * Further properties of the PubMed parser                           *)
(* ================================================================== *)

Module ParserExtras.

Import PyStr Collector Xml Parser Spec MoreSpec Samples MoreSamples PyStrFacts
  SubstringFacts ParserClaims.

Lemma author_loop (l : list element) (acc : list string) :
  fold_left add_author l acc =
  (acc ++ map display_name (filter has_last_name l))%list.
Proof.
revert acc; induction l as [|e l IH]; intro acc; simpl.
- rewrite app_nil_r; reflexivity.
- rewrite IH; unfold add_author, has_last_name, display_name.
  destruct (truthy (findtext "LastName" "" e)); simpl.
  + rewrite <- app_assoc; reflexivity.
  + reflexivity.
Qed.

Lemma yield_text_truthy (t : option string) (s : string) :
  In s (yield_text t) -> s <> "".
Proof.
destruct t as [u|]; simpl; [|tauto].
destruct (truthy u) eqn:E; simpl; [|tauto].
intros [<-|[]]; apply truthy_true, E.
Qed.

Lemma parsed_author_fields (article : element) (r : pub) :
  parse_pubmed_article article = Some r ->
  author_count r = List.length (authors r) /\ first_author r = hd "" (authors r).
Proof.
unfold parse_pubmed_article.
destruct (find_desc "MedlineCitation" article) as [medline|]; [|discriminate].
destruct (find "Article" medline) as [art|]; [|discriminate].
intros [= <-]; simpl; auto.
Qed.

(** X8: [parse_pubmed_article] returns a record exactly when the first
    [MedlineCitation] descendant of the article, in document order,
    exists and has an [Article] child; a later [MedlineCitation] is not
    looked at.  In the record, [author_count] is the number of authors,
    [first_author] is the first of them (empty when there is none), and
    no keyword and no MeSH term is empty. *)
Theorem parsed_record_consistent (article : element) :
  ((exists r, parse_pubmed_article article = Some r) <->
   (exists medline art,
      find_desc "MedlineCitation" article = Some medline /\
      find "Article" medline = Some art)) /\
  (forall r, parse_pubmed_article article = Some r ->
     author_count r = List.length (authors r) /\
     first_author r = hd "" (authors r) /\
     (forall k, In k (keywords r) -> k <> "") /\
     (forall m, In m (mesh_terms r) -> m <> "")).
Proof.
split; [apply parse_returns|].
intros r; unfold parse_pubmed_article.
destruct (find_desc "MedlineCitation" article) as [medline|]; [|discriminate].
destruct (find "Article" medline) as [art|]; [|discriminate].
intros [= <-]; simpl; repeat split.
- intros k Hk; unfold parse_keywords in Hk.
  apply in_flat_map in Hk as [e [_ Hk]]. eapply yield_text_truthy; eassumption.
- intros m Hm; unfold parse_mesh in Hm.
  apply in_flat_map in Hm as [e [_ Hm]].
  unfold findtext_opt, findtext in Hm.
  destruct (find "DescriptorName" e) as [c|]; [|destruct Hm].
  destruct (truthy (text_or_empty (text_of c))) eqn:E; [|destruct Hm].
  destruct Hm as [<-|[]]; apply truthy_true, E.
Qed.

Lemma parsed_record_consistent_witness :
  (exists r, parse_pubmed_article sample_article = Some r /\
             author_count r = List.length (authors r)) /\
  parse_pubmed_article MoreSamples.shadowed_article = None.
Proof.
split.
- eexists; split; [reflexivity|].
  apply (proj2 (parsed_record_consistent sample_article) _ eq_refl).
- destruct (parse_pubmed_article MoreSamples.shadowed_article) as [r|] eqn:E;
    [|reflexivity].
  destruct (proj1 (proj1 (parsed_record_consistent MoreSamples.shadowed_article)))
    as (medline & art & Hm & Ha); [exists r; exact E|].
  injection Hm as <-; discriminate Ha.
Defined.

(** X9: the authors of a parsed record are the [Author] children of the
    [AuthorList] that have a non-empty [LastName], in document order,
    each as last name, space, initials, trimmed; authors without a last
    name are left out and are not counted. *)
Theorem parsed_authors (article medline art author_list : element) (r : pub) :
  find_desc "MedlineCitation" article = Some medline ->
  find "Article" medline = Some art ->
  find "AuthorList" art = Some author_list ->
  parse_pubmed_article article = Some r ->
  authors r = map display_name (filter has_last_name (findall "Author" author_list)) /\
  author_count r = List.length (filter has_last_name (findall "Author" author_list)).
Proof.
unfold parse_pubmed_article; intros -> -> Hal [= <-]; simpl.
unfold parse_authors; rewrite Hal, author_loop; simpl.
rewrite length_map; auto.
Qed.

Lemma parsed_authors_witness :
  exists r, parse_pubmed_article sample_article = Some r /\ authors r = ["Doe J"].
Proof.
eexists; split; [reflexivity|].
refine (proj1 (parsed_authors sample_article _ _ _ _ eq_refl eq_refl eq_refl eq_refl)).
Defined.

Lemma year_at_iff (s : string) :
  year_at s = true <->
  exists a b rest,
    s = String "2" (String "0" (String a (String b rest))) /\
    is_digit a = true /\ is_digit b = true.
Proof.
split.
- destruct s as [|c1 [|c2 [|a [|b rest]]]];
    try (destruct c1 as [[] [] [] [] [] [] [] []]; try discriminate;
         try (destruct c2 as [[] [] [] [] [] [] [] []]; discriminate));
    try discriminate.
  destruct c2 as [[] [] [] [] [] [] [] []]; try discriminate.
  simpl; intro H; apply andb_true_iff in H; exists a, b, rest; tauto.
- intros (a & b & rest & -> & Ha & Hb); simpl; rewrite Ha, Hb; reflexivity.
Qed.

Lemma drop_take (n : nat) (s : string) :
  s = take n s ++ substring n (String.length s - n) s.
Proof.
revert n; induction s as [|c s IH]; intros [|n]; simpl; try reflexivity.
- f_equal. clear; induction s as [|e s IH]; simpl; [reflexivity | f_equal; exact IH].
- f_equal; apply IH.
Qed.

Lemma year_at_length (s : string) : year_at s = true -> year_at (take 4 s) = true.
Proof.
intro H; apply year_at_iff in H as (a & b & rest & -> & Ha & Hb).
simpl; rewrite Ha, Hb; reflexivity.
Qed.

Lemma year_at_take (s : string) :
  year_at s = true ->
  String.length (take 4 s) = 4 /\
  s = take 4 s ++ substring 4 (String.length s - 4) s.
Proof.
intro H; split; [|apply drop_take].
apply year_at_iff in H as (a & b & rest & -> & _); reflexivity.
Qed.

(** [search_year] finds the leftmost match, and finds none only when
    there is none. *)
Lemma search_year_spec (s : string) :
  match search_year s with
  | Some y => first_year_in s y
  | None => no_year_in s
  end.
Proof.
induction s as [|c r IH]; [intros [|? ?] b H; [simpl in H; subst b; reflexivity | discriminate]|].
cbn [search_year]. destruct (year_at (String c r)) eqn:Y.
- destruct (year_at_take _ Y) as [L E].
  exists "", (substring 4 (String.length (String c r) - 4) (String c r)).
  repeat split; [exact E | exact L | apply year_at_length, Y|].
  intros a b H Hb. destruct a; simpl in H; [congruence | discriminate].
- destruct (search_year r) as [y|].
  + destruct IH as (pre & post & E & L & Hy & Hfirst).
    exists (String c pre), post; repeat split; try assumption.
    * simpl; rewrite <- E; reflexivity.
    * intros a b H Hb. destruct a as [|c' a]; simpl in H.
      -- subst b; simpl; rewrite <- E; exact Y.
      -- inversion H; subst. apply (Hfirst a b); auto.
  + intros a b H. destruct a as [|c' a]; simpl in H.
    * subst b; exact Y.
    * inversion H; subst. apply (IH a b); reflexivity.
Qed.

(** X10: the year of a parsed record whose [Article] has a [PubDate]:
    the text of [Year] when it is not empty; otherwise the leftmost four
    characters of [MedlineDate] of the form 20dd, and the empty string
    when [MedlineDate] has no such characters (as for a date of another
    century). *)
Theorem parsed_year (article medline art pub_date : element) (r : pub) :
  find_desc "MedlineCitation" article = Some medline ->
  find "Article" medline = Some art ->
  find_desc "PubDate" art = Some pub_date ->
  parse_pubmed_article article = Some r ->
  (findtext "Year" "" pub_date <> "" -> year r = findtext "Year" "" pub_date) /\
  (findtext "Year" "" pub_date = "" ->
     first_year_in (findtext "MedlineDate" "" pub_date) (year r) \/
     (no_year_in (findtext "MedlineDate" "" pub_date) /\ year r = "")).
Proof.
unfold parse_pubmed_article; intros -> -> Hpd [= <-]; simpl.
unfold parse_year; rewrite Hpd.
destruct (truthy (findtext "Year" "" pub_date)) eqn:Ty.
- split; [reflexivity|]. intro E; rewrite E in Ty; discriminate.
- apply truthy_false in Ty. split; [congruence|]. intros _.
  pose proof (search_year_spec (findtext "MedlineDate" "" pub_date)) as Hs.
  destruct (truthy (findtext "MedlineDate" "" pub_date)) eqn:Tm.
  + destruct (search_year (findtext "MedlineDate" "" pub_date)); [left | right]; auto.
  + apply truthy_false in Tm. rewrite Tm in *. right; split; [|assumption].
    exact Hs.
Qed.

Lemma parsed_year_witness :
  exists r, parse_pubmed_article sample_article = Some r /\
    (first_year_in "2019 Mar-Apr" (year r) \/
     (no_year_in "2019 Mar-Apr" /\ year r = "")).
Proof.
eexists; split; [reflexivity|].
refine (proj2 (parsed_year sample_article _ _ _ _ eq_refl eq_refl eq_refl eq_refl) eq_refl).
Defined.

(** X11: for a record that comes from the parser, the output record has
    the number of its authors as [authorCount] and the first of them as
    [firstAuthor], the empty string when there is none. *)
Theorem parsed_then_dashboard (article : element) (r : pub) :
  parse_pubmed_article article = Some r ->
  d_authorCount (to_dashboard r) = List.length (authors r) /\
  d_firstAuthor (to_dashboard r) = hd "" (authors r).
Proof.
intro H. destruct (parsed_author_fields article r H) as (Hc & Hf).
unfold to_dashboard; simpl. destruct (authors r) as [|a l] eqn:E; simpl in *; auto.
Qed.

Lemma parsed_then_dashboard_witness :
  exists r, parse_pubmed_article sample_article = Some r /\
            d_authorCount (to_dashboard r) = 1.
Proof.
eexists; split; [reflexivity|].
apply (proj1 (parsed_then_dashboard sample_article _ eq_refl)).
Defined.

End ParserExtras.

(* ================================================================== *)
(** * fetch_url for any number of retries                               *)
(* ================================================================== *)

Module FetchExtras.

Import Fetch MoreSpec Samples FetchClaims.

Lemma total_sleep_app (a b : list event) :
  total_sleep (a ++ b)%list = total_sleep a + total_sleep b.
Proof.
induction a as [|[u|n|l] a IH]; simpl; rewrite ?IH; lia.
Qed.

Lemma warnings_app (a b : list event) :
  warnings (a ++ b)%list = warnings a + warnings b.
Proof.
induction a as [|[u|n|l] a IH]; simpl; rewrite ?IH; lia.
Qed.

(** X12: whatever the number of retries and whatever the network does,
    [fetch_url] returns (a body or [None]) and does not raise; it makes
    at most [retries] requests; with no retry allowed it makes no request
    at all and returns [None]. *)
Theorem fetch_url_bounded (url : string) (retries delay : nat) (w : World) :
  exists (r : option string) (evs : list event) (w' : World),
    fetch_url url retries delay w = (inl r, w') /\
    extends w w' evs /\
    requests evs <= retries /\
    (retries = 0 -> r = None /\ evs = []).
Proof.
unfold fetch_url.
destruct (fetch_loop_total url retries delay (seq 0 retries) w)
  as (r & evs & w' & E & X & R).
rewrite length_seq in R.
destruct retries as [|n].
- exists None, [], w. split; [reflexivity|]. split; [apply extends_nil|].
  split; [unfold requests; simpl; lia | auto].
- exists r, evs, w'. split; [assumption|]. split; [assumption|].
  split; [assumption | discriminate].
Qed.

Lemma fetch_url_bounded_witness :
  exists w', fetch_url "https://example.org/a" 0 1 dead_world = (inl None, w').
Proof.
destruct (fetch_url_bounded "https://example.org/a" 0 1 dead_world)
  as (r & evs & w' & E & _ & _ & Z).
destruct (Z eq_refl) as [-> _]. exists w'; exact E.
Defined.

(** A failed attempt that is not the last one: a request and a sleep. *)
Lemma attempt_once_retry (url : string) (retries delay attempt : nat) (w : World) (e : exn) :
  net w (calls w) url = inr e -> attempt < retries - 1 ->
  exists w',
    attempt_once url retries delay attempt w = (inl None, w') /\
    extends w w' [Request url; Sleep (delay * (attempt + 1))].
Proof.
intros Hn Hlt.
unfold attempt_once, try_except, bind, urlopen_read, ret; rewrite Hn.
apply Nat.ltb_lt in Hlt; rewrite Hlt; unfold sleep; simpl.
eexists; split; [reflexivity|].
unfold extends, log, requests; simpl; rewrite <- app_assoc; simpl.
repeat split; lia.
Qed.

(** A failed last attempt: a request and a warning. *)
Lemma attempt_once_give_up (url : string) (retries delay attempt : nat) (w : World) (e : exn) :
  net w (calls w) url = inr e -> retries - 1 <= attempt ->
  exists w',
    attempt_once url retries delay attempt w = (inl (Some None), w') /\
    extends w w' [Request url; Warn (warning url e)].
Proof.
intros Hn Hge.
unfold attempt_once, try_except, bind, urlopen_read, ret; rewrite Hn.
apply Nat.ltb_ge in Hge; rewrite Hge; unfold print_stderr; simpl.
eexists; split; [reflexivity|].
unfold extends, log, requests; simpl; rewrite <- app_assoc; simpl.
repeat split; lia.
Qed.

(** A successful attempt: a request. *)
Lemma attempt_once_success (url : string) (retries delay attempt : nat) (w : World)
  (body : string) :
  net w (calls w) url = inl body ->
  exists w',
    attempt_once url retries delay attempt w = (inl (Some (Some body)), w') /\
    extends w w' [Request url].
Proof.
intros Hn.
unfold attempt_once, try_except, bind, urlopen_read, ret; rewrite Hn.
eexists; split; [reflexivity | apply extends_request].
Qed.

Lemma fetch_loop_exhausted (url : string) (retries delay : nat) :
  forall (m a : nat) (w : World),
    a + S m = retries ->
    (forall k, k < S m -> exists e, net w (calls w + k) url = inr e) ->
    exists evs w',
      fetch_loop url retries delay (seq a (S m)) w = (inl None, w') /\
      extends w w' evs /\ requests evs = S m /\ warnings evs = 1 /\
      2 * total_sleep evs = delay * (m * (2 * a + S m)).
Proof.
induction m as [|m IH]; intros a w Ha Hfail.
- destruct (Hfail 0) as [e He]; [lia|]. rewrite Nat.add_0_r in He.
  destruct (attempt_once_give_up url retries delay a w e He) as (w' & E & X); [lia|].
  exists [Request url; Warn (warning url e)], w'.
  cbn [seq fetch_loop]; unfold bind; rewrite E.
  split; [reflexivity|]. split; [exact X|].
  unfold requests; simpl; repeat split; lia.
- destruct (Hfail 0) as [e He]; [lia|]. rewrite Nat.add_0_r in He.
  destruct (attempt_once_retry url retries delay a w e He) as (w1 & E & X); [lia|].
  destruct (IH (S a) w1) as (evs & w' & E' & X' & R & W & T); [lia| |].
  { intros k Hk. destruct (Hfail (S k)) as [e' He']; [lia|].
    destruct X as (Xn & Xc & _). exists e'.
    rewrite Xn, Xc. unfold requests; simpl.
    replace (calls w + 1 + k) with (calls w + S k) by lia. exact He'. }
  exists ([Request url; Sleep (delay * (a + 1))] ++ evs)%list, w'.
  change (seq a (S (S m))) with (a :: seq (S a) (S m)).
  cbn [fetch_loop]; unfold bind; rewrite E. split; [exact E'|].
  split; [eapply extends_trans; eassumption|].
  rewrite requests_app, warnings_app, total_sleep_app, R, W.
  unfold requests; simpl. repeat split; nia.
Qed.

(** X13: when the first [retries] requests all fail (and at least one is
    allowed), [fetch_url] returns [None] after exactly [retries] requests
    and one warning, and it has slept [delay * (1 + 2 + ... + (retries -
    1))] in all: twice that is [delay * retries * (retries - 1)]. *)
Theorem fetch_url_exhausted (url : string) (retries delay : nat) (w : World) :
  1 <= retries ->
  (forall k, k < retries -> exists e, net w (calls w + k) url = inr e) ->
  exists (evs : list event) (w' : World),
    fetch_url url retries delay w = (inl None, w') /\
    extends w w' evs /\
    requests evs = retries /\ warnings evs = 1 /\
    2 * total_sleep evs = delay * (retries * (retries - 1)).
Proof.
intros H1 Hfail. destruct retries as [|m]; [lia|].
destruct (fetch_loop_exhausted url (S m) delay m 0 w) as (evs & w' & E & X & R & W & T);
  [lia | assumption |].
exists evs, w'; unfold fetch_url.
split; [exact E|]. split; [exact X|]. split; [exact R|]. split; [exact W|].
rewrite T; nia.
Qed.

Lemma fetch_url_exhausted_witness :
  exists (evs : list event) (w' : World),
    fetch_url "https://example.org/a" 4 5 dead_world = (inl None, w') /\
    extends dead_world w' evs /\
    requests evs = 4 /\ warnings evs = 1 /\
    2 * total_sleep evs = 5 * (4 * (4 - 1)).
Proof.
apply (fetch_url_exhausted "https://example.org/a" 4 5 dead_world); [lia|].
intros k _; eexists; reflexivity.
Defined.

Lemma fetch_loop_first_success (url : string) (retries delay : nat) (body : string) :
  forall (k a n : nat) (w : World),
    a + n = retries -> k < n ->
    (forall j, j < k -> exists e, net w (calls w + j) url = inr e) ->
    net w (calls w + k) url = inl body ->
    exists evs w',
      fetch_loop url retries delay (seq a n) w = (inl (Some body), w') /\
      extends w w' evs /\ requests evs = S k /\ warnings evs = 0 /\
      2 * total_sleep evs = delay * (k * (2 * a + k + 1)).
Proof.
induction k as [|k IH]; intros a n w Ha Hk Hfail Hok.
- destruct n as [|n]; [lia|]. rewrite Nat.add_0_r in Hok.
  destruct (attempt_once_success url retries delay a w body Hok) as (w' & E & X).
  exists [Request url], w'. cbn [seq fetch_loop]; unfold bind; rewrite E.
  split; [reflexivity|]. split; [exact X|].
  unfold requests; simpl; repeat split; lia.
- destruct n as [|n]; [lia|].
  destruct (Hfail 0) as [e He]; [lia|]. rewrite Nat.add_0_r in He.
  destruct (attempt_once_retry url retries delay a w e He) as (w1 & E & X); [lia|].
  pose proof X as (Xn & Xc & _). unfold requests in Xc; simpl in Xc.
  destruct (IH (S a) n w1) as (evs & w' & E' & X' & R & W & T); [lia | lia | |  |].
  { intros j Hj. destruct (Hfail (S j)) as [e' He']; [lia|]. exists e'.
    rewrite Xn, Xc. replace (calls w + 1 + j) with (calls w + S j) by lia. exact He'. }
  { rewrite Xn, Xc. replace (calls w + 1 + k) with (calls w + S k) by lia. exact Hok. }
  exists ([Request url; Sleep (delay * (a + 1))] ++ evs)%list, w'.
  cbn [seq fetch_loop]; unfold bind; rewrite E. split; [exact E'|].
  split; [eapply extends_trans; eassumption|].
  rewrite requests_app, warnings_app, total_sleep_app, R, W.
  unfold requests; simpl. repeat split; nia.
Qed.

(** X14: when the request number [k] (from 0, [k < retries]) is the first
    that succeeds, [fetch_url] returns its body after exactly [k + 1]
    requests and no warning, having slept [delay * (1 + ... + k)]: twice
    that is [delay * k * (k + 1)]. *)
Theorem fetch_url_first_success (url : string) (retries delay k : nat) (w : World)
  (body : string) :
  k < retries ->
  (forall j, j < k -> exists e, net w (calls w + j) url = inr e) ->
  net w (calls w + k) url = inl body ->
  exists (evs : list event) (w' : World),
    fetch_url url retries delay w = (inl (Some body), w') /\
    extends w w' evs /\
    requests evs = S k /\ warnings evs = 0 /\
    2 * total_sleep evs = delay * (k * (k + 1)).
Proof.
intros Hk Hfail Hok.
destruct (fetch_loop_first_success url retries delay body k 0 retries w)
  as (evs & w' & E & X & R & W & T); try assumption; [lia|].
exists evs, w'; unfold fetch_url.
split; [exact E|]. split; [exact X|]. split; [exact R|]. split; [exact W|].
rewrite T; nia.
Qed.

Lemma fetch_url_first_success_witness :
  exists (evs : list event) (w' : World),
    fetch_url "https://example.org/a" 3 1 flaky_world =
      (inl (Some "body of https://example.org/a"), w') /\
    extends flaky_world w' evs /\
    requests evs = 3 /\ warnings evs = 0 /\
    2 * total_sleep evs = 1 * (2 * (2 + 1)).
Proof.
apply (fetch_url_first_success "https://example.org/a" 3 1 2 flaky_world).
- lia.
- intros j Hj; exists (Exception "timed out"); simpl.
  destruct j as [|[|j]]; [reflexivity | reflexivity | lia].
- reflexivity.
Defined.

End FetchExtras.

(* ================================================================== *)
(** * fetch_pubmed_details                                              *)
(* ================================================================== *)

Module DetailsExtras.

Import PyStr Xml Fetch Details MoreSpec Samples MoreSamples FetchClaims FetchExtras.

Lemma range_from_batches (l : list string) (step : nat) :
  1 <= step ->
  forall fuel start,
    List.length l - start <= fuel ->
    let starts := range_from fuel start (List.length l) step in
    List.concat (map (fun i => slice i (i + step) l) starts) = skipn start l /\
    Forall (fun i => 1 <= List.length (slice i (i + step) l) <= step) starts /\
    List.length l - start <= step * List.length starts /\
    (starts <> [] -> step * (List.length starts - 1) < List.length l - start).
Proof.
intros Hstep; induction fuel as [|fuel IH]; intros start Hfuel; simpl.
- rewrite skipn_all2 by lia. repeat split; [constructor | lia | congruence].
- destruct (Nat.ltb_spec start (List.length l)) as [Hlt|Hge].
  + destruct (IH (start + step)) as (C & F & L1 & L2); [lia|].
    cbn zeta in *. cbn [map List.concat List.length].
    set (rest := range_from fuel (start + step) (List.length l) step) in *.
    assert (Hs : slice start (start + step) l = firstn step (skipn start l)).
    { unfold slice; f_equal; lia. }
    repeat split.
    * rewrite C, Hs.
      replace (start + step) with (step + start) by lia.
      rewrite <- skipn_skipn. apply firstn_skipn.
    * constructor; [|exact F].
      rewrite Hs, length_firstn, length_skipn; lia.
    * nia.
    * intros _. destruct rest as [|i rest'] eqn:Er.
      -- simpl; lia.
      -- specialize (L2 ltac:(discriminate)). simpl in *. nia.
  + rewrite skipn_all2 by lia. repeat split; [constructor | simpl; lia | congruence].
Qed.

(** X15: for a positive batch size the batches of [fetch_pubmed_details]
    are the identifiers in order, cut into pieces that are not empty and
    have at most [batch_size] elements; their number is the length of the
    list divided by [batch_size], rounded up. *)
Theorem batches_cover (pmids : list string) (batch_size : nat) :
  1 <= batch_size ->
  List.concat (batches pmids batch_size) = pmids /\
  Forall (fun b => 1 <= List.length b <= batch_size) (batches pmids batch_size) /\
  List.length pmids <= batch_size * List.length (batches pmids batch_size) /\
  (pmids <> [] ->
   batch_size * (List.length (batches pmids batch_size) - 1) < List.length pmids).
Proof.
intro H.
destruct (range_from_batches pmids batch_size H (List.length pmids) 0)
  as (C & F & L1 & L2); [lia|]. cbn zeta in *.
unfold batches, range_step. rewrite length_map.
split; [exact C|]. split; [apply Forall_map; exact F|].
split; [lia|]. intro Hne.
destruct pmids as [|x l]; [congruence|].
rewrite Nat.sub_0_r in L2. apply L2. simpl.
destruct (Nat.ltb_spec 0 (S (List.length l))); [discriminate | lia].
Qed.

Lemma batches_cover_witness :
  List.concat (batches ["31"; "32"; "33"; "34"; "35"] 2) = ["31"; "32"; "33"; "34"; "35"] /\
  List.length (batches ["31"; "32"; "33"; "34"; "35"] 2) = 3.
Proof.
split; [apply (proj1 (batches_cover ["31"; "32"; "33"; "34"; "35"] 2 ltac:(lia)))|].
reflexivity.
Defined.

Section WithXmlParser.

Variable fromstring : string -> element + exn.

Lemma article_loop (l : list element) (pubs : list pub) :
  fold_left add_article l pubs =
  (pubs ++ flat_map (fun article =>
                       match Parser.parse_pubmed_article article with
                       | Some pub => [pub]
                       | None => []
                       end) l)%list.
Proof.
revert pubs; induction l as [|a l IH]; intro pubs; simpl.
- rewrite app_nil_r; reflexivity.
- rewrite IH; unfold add_article.
  destruct (Parser.parse_pubmed_article a); simpl.
  + rewrite <- app_assoc; reflexivity.
  + reflexivity.
Qed.

Lemma article_events_quiet (l : list element) :
  requests (article_events l) = 0 /\ total_sleep (article_events l) = 0 /\
  warnings (article_events l) = List.length (filter lacks_citation l).
Proof.
unfold article_events, lacks_citation, Parser.parse_warning, requests.
induction l as [|a l (IH1 & IH2 & IH3)]; [auto|].
cbn [flat_map filter].
destruct (find_desc "MedlineCitation" a); simpl; auto.
Qed.

Lemma extends_logged (evs : list event) (w : World) :
  requests evs = 0 -> extends w (logged evs w) evs.
Proof. intro H; unfold extends, logged; simpl; rewrite H; repeat split; lia. Qed.

(** One call of the parser: its result is that of [parse_pubmed_article]
    and its warning, if any, is recorded. *)
Lemma parse_pubmed_article_io_run (article : element) (w : World) :
  parse_pubmed_article_io article w =
  (inl (Parser.parse_pubmed_article article), logged (article_events [article]) w).
Proof.
unfold parse_pubmed_article_io, article_events; cbn [flat_map].
unfold Parser.parse_warning, Parser.parse_pubmed_article.
destruct w as [n c t].
destruct (find_desc "MedlineCitation" article) as [medline|];
  unfold logged, bind, print_stderr, ret, log; simpl; rewrite ?app_nil_r; reflexivity.
Qed.

(** The inner loop: the records of the articles that parse are appended,
    and the warnings of the others are recorded. *)
Lemma parse_all_run (l : list element) :
  forall (pubs : list pub) (r : Run),
    parse_all pubs l r =
    (inl (fold_left add_article l pubs),
     mkRun (logged (article_events l) (world r)) (pauses r)).
Proof.
induction l as [|a l IH]; intros pubs r.
- destruct r as [[n c t] ps]; unfold logged; simpl; rewrite app_nil_r; reflexivity.
- cbn [parse_all fold_left]; unfold dbind, lift.
  rewrite parse_pubmed_article_io_run.
  change (match Parser.parse_pubmed_article a with
          | Some pub => (pubs ++ [pub])%list
          | None => pubs
          end) with (add_article pubs a).
  rewrite IH.
  assert (E : article_events (a :: l) = (article_events [a] ++ article_events l)%list)
    by (unfold article_events; cbn [flat_map]; rewrite app_nil_r; reflexivity).
  rewrite E. unfold logged; cbn [world pauses net calls trace].
  rewrite <- app_assoc; reflexivity.
Qed.

(** What one batch does, read off the result of its [fetch_url]. *)
Lemma fetch_batch_cases (pubs : list pub) (batch : list string) (r : Run) :
  fetch_batch fromstring pubs batch r =
  match fetch_url (details_url batch) 3 1 (world r) with
  | (inr e, w') => (inr e, mkRun w' (pauses r))
  | (inl None, w') => (inl pubs, mkRun w' (pauses r))
  | (inl (Some data), w') =>
      if truthy data then
        match fromstring data with
        | inr e => (inr e, mkRun w' (pauses r))
        | inl root =>
            (inl (pubs ++ parsed_articles root)%list,
             mkRun (logged (parse_events root) w') (pauses r ++ [calls w']))
        end
      else (inl pubs, mkRun w' (pauses r))
  end.
Proof.
unfold fetch_batch, dbind, lift.
destruct (fetch_url (details_url batch) 3 1 (world r)) as [[[data|]|e] w']; try reflexivity.
destruct (truthy data); [|reflexivity].
destruct (fromstring data) as [root|e]; [|reflexivity].
rewrite parse_all_run. unfold rate_limit_pause, dret; simpl.
rewrite article_loop; reflexivity.
Qed.

(** One batch: at most 3 requests, at most one pause, and the records so
    far are kept. *)
Lemma fetch_batch_total (pubs : list pub) (batch : list string) (r : Run) :
  exists res evs ps r',
    fetch_batch fromstring pubs batch r = (res, r') /\
    extends (world r) (world r') evs /\ requests evs <= 3 /\
    pauses r' = (pauses r ++ ps)%list /\ List.length ps <= 1 /\
    match res with
    | inl pubs' => exists more, pubs' = (pubs ++ more)%list
    | inr _ => True
    end.
Proof.
rewrite fetch_batch_cases. unfold fetch_url.
destruct (fetch_loop_total (details_url batch) 3 1 (seq 0 3) (world r))
  as (x & evs & w' & E & X & R). rewrite E. simpl in R.
assert (N : forall A (l : list A), l = (l ++ [])%list) by (intros; rewrite app_nil_r; reflexivity).
destruct x as [data|].
- destruct (truthy data).
  + destruct (fromstring data) as [root|e].
    * destruct (article_events_quiet (findall_desc "PubmedArticle" root)) as (Q & _).
      exists (inl (pubs ++ parsed_articles root)%list),
             (evs ++ parse_events root)%list, [calls w'].
      eexists. split; [reflexivity|].
      split; [eapply extends_trans; [exact X | apply extends_logged, Q]|].
      split; [rewrite requests_app; unfold parse_events; lia|].
      split; [reflexivity|]. split; [simpl; lia | eauto].
    * exists (inr e), evs, []; eexists.
      split; [reflexivity|]. split; [exact X|]. split; [exact R|].
      split; [apply N|]. split; [simpl; lia | exact I].
  + exists (inl pubs), evs, []; eexists.
    split; [reflexivity|]. split; [exact X|]. split; [exact R|].
    split; [apply N|]. split; [simpl; lia | exists []; apply N].
- exists (inl pubs), evs, []; eexists.
  split; [reflexivity|]. split; [exact X|]. split; [exact R|].
  split; [apply N|]. split; [simpl; lia | exists []; apply N].
Qed.

Lemma fetch_batches_total (bs : list (list string)) :
  forall (pubs : list pub) (r : Run),
  exists res evs ps r',
    fetch_batches fromstring pubs bs r = (res, r') /\
    extends (world r) (world r') evs /\
    requests evs <= 3 * List.length bs /\
    pauses r' = (pauses r ++ ps)%list /\ List.length ps <= List.length bs /\
    (bs = [] -> res = inl pubs /\ r' = r).
Proof.
induction bs as [|b bs IH]; intros pubs r.
- exists (inl pubs), [], [], r; simpl; rewrite app_nil_r.
  split; [reflexivity|]. split; [apply extends_nil|].
  unfold requests; simpl; auto.
- destruct (fetch_batch_total pubs b r) as (res & evs & ps & r1 & E & X & R & P & L & _).
  cbn [fetch_batches]; unfold dbind; rewrite E.
  destruct res as [pubs'|e].
  + destruct (IH pubs' r1) as (res' & evs' & ps' & r2 & E' & X' & R' & P' & L' & _).
    exists res', (evs ++ evs')%list, (ps ++ ps')%list, r2.
    split; [exact E'|]. split; [eapply extends_trans; eassumption|].
    split; [rewrite requests_app; simpl; lia|].
    split; [rewrite P', P, app_assoc; reflexivity|].
    split; [rewrite length_app; simpl; lia | discriminate].
  + exists (inr e), evs, ps, r1.
    split; [reflexivity|]. split; [assumption|].
    split; [simpl; lia|]. split; [assumption|]. split; [simpl; lia | discriminate].
Qed.

(** X16: [fetch_pubmed_details] with a positive batch size makes at most
    3 requests and at most one pause per batch, whatever the network
    does; for an empty list of identifiers it makes no request and
    returns the empty list; for a batch size of zero it raises the
    [ValueError] of [range] before any request. *)
Theorem fetch_pubmed_details_bounded (pmids : list string) (batch_size : nat) (r : Run) :
  (batch_size = 0 ->
   exists e, fetch_pubmed_details fromstring pmids batch_size r = (inr e, r)) /\
  (1 <= batch_size ->
   exists res evs ps r',
     fetch_pubmed_details fromstring pmids batch_size r = (res, r') /\
     extends (world r) (world r') evs /\
     requests evs <= 3 * List.length (batches pmids batch_size) /\
     pauses r' = (pauses r ++ ps)%list /\
     List.length ps <= List.length (batches pmids batch_size) /\
     (pmids = [] -> res = inl [] /\ r' = r)).
Proof.
split.
- intros ->; eexists; reflexivity.
- intro H. unfold fetch_pubmed_details.
  destruct (Nat.eqb_spec batch_size 0) as [E|_]; [lia|].
  destruct (fetch_batches_total (batches pmids batch_size) [] r)
    as (res & evs & ps & r' & E & X & R & P & L & Z).
  exists res, evs, ps, r'. repeat (split; [assumption|]).
  intros ->; apply Z; reflexivity.
Qed.

Lemma fetch_batch_dead (pubs : list pub) (batch : list string) (r : Run) :
  (forall k u, exists e, net (world r) k u = inr e) ->
  exists evs w',
    fetch_batch fromstring pubs batch r = (inl pubs, mkRun w' (pauses r)) /\
    extends (world r) w' evs /\ requests evs = 3 /\ warnings evs = 1.
Proof.
intro Hdead. rewrite fetch_batch_cases. unfold fetch_url.
destruct (fetch_loop_exhausted (details_url batch) 3 1 2 0 (world r))
  as (evs & w' & E & X & R & W & _); [lia | intros k _; apply Hdead |].
rewrite E. exists evs, w'; auto.
Qed.

Lemma fetch_batches_dead (bs : list (list string)) :
  forall (pubs : list pub) (r : Run),
    (forall k u, exists e, net (world r) k u = inr e) ->
    exists evs r',
      fetch_batches fromstring pubs bs r = (inl pubs, r') /\
      extends (world r) (world r') evs /\
      requests evs = 3 * List.length bs /\ warnings evs = List.length bs /\
      pauses r' = pauses r.
Proof.
induction bs as [|b bs IH]; intros pubs r Hdead.
- exists [], r. split; [reflexivity|]. split; [apply extends_nil | auto].
- destruct (fetch_batch_dead pubs b r Hdead) as (evs & w1 & E & X & R & W).
  destruct (IH pubs (mkRun w1 (pauses r))) as (evs' & r2 & E' & X' & R' & W' & P').
  { intros k u; simpl. destruct X as [Xn _]; rewrite Xn; apply Hdead. }
  exists (evs ++ evs')%list, r2.
  cbn [fetch_batches]; unfold dbind; rewrite E.
  split; [exact E'|]. split; [eapply extends_trans; eassumption|].
  rewrite requests_app, warnings_app, R, R', W, W'. simpl in *.
  repeat split; try lia. exact P'.
Qed.

(** X17: when every request fails, [fetch_pubmed_details] still returns:
    the empty list, after 3 requests and one warning per batch and
    without any pause between batches. *)
Theorem fetch_pubmed_details_offline (pmids : list string) (batch_size : nat) (r : Run) :
  1 <= batch_size ->
  (forall k u, exists e, net (world r) k u = inr e) ->
  exists evs r',
    fetch_pubmed_details fromstring pmids batch_size r = (inl [], r') /\
    extends (world r) (world r') evs /\
    requests evs = 3 * List.length (batches pmids batch_size) /\
    warnings evs = List.length (batches pmids batch_size) /\
    pauses r' = pauses r.
Proof.
intros H Hdead. unfold fetch_pubmed_details.
destruct (Nat.eqb_spec batch_size 0) as [E|_]; [lia|].
apply fetch_batches_dead; assumption.
Qed.

Lemma fetch_batch_at_once (pubs : list pub) (batch : list string) (r : Run)
  (body : string) (root : element) :
  net (world r) (calls (world r)) (details_url batch) = inl body ->
  truthy body = true -> fromstring body = inl root ->
  exists w',
    fetch_batch fromstring pubs batch r =
      (inl (pubs ++ parsed_articles root)%list,
       mkRun w' (pauses r ++ [S (calls (world r))])) /\
    extends (world r) w' ([Request (details_url batch)] ++ parse_events root)%list.
Proof.
intros Hn Ht Hx. rewrite fetch_batch_cases. unfold fetch_url.
destruct (attempt_once_success (details_url batch) 3 1 0 (world r) body Hn)
  as (w1 & E1 & X1).
cbn [seq fetch_loop]; unfold bind; rewrite E1; unfold ret. rewrite Ht, Hx.
destruct (article_events_quiet (findall_desc "PubmedArticle" root)) as (Q & _).
pose proof X1 as (_ & X1c & _). unfold requests in X1c; simpl in X1c.
exists (logged (parse_events root) w1). split.
- rewrite X1c. replace (calls (world r) + 1) with (S (calls (world r))) by lia.
  reflexivity.
- eapply extends_trans; [exact X1 | apply extends_logged, Q].
Qed.

Lemma fetch_batches_at_once (bs : list (list string)) :
  forall (pubs : list pub) (r : Run),
    (forall k u, exists body root,
        net (world r) k u = inl body /\ truthy body = true /\
        fromstring body = inl root) ->
    exists evs ps r',
      fetch_batches fromstring pubs bs r =
        (inl (pubs ++ answered_at_once fromstring (net (world r))
                                       (calls (world r)) bs)%list, r') /\
      extends (world r) (world r') evs /\
      requests evs = List.length bs /\ total_sleep evs = 0 /\
      warnings evs =
        unparsable_at_once fromstring (net (world r)) (calls (world r)) bs /\
      pauses r' = (pauses r ++ ps)%list /\ List.length ps = List.length bs.
Proof.
induction bs as [|b bs IH]; intros pubs r Hok.
- exists [], [], r; simpl; rewrite !app_nil_r.
  split; [reflexivity|]. split; [apply extends_nil | auto].
- destruct (Hok (calls (world r)) (details_url b)) as (body & root & Hn & Ht & Hx).
  destruct (fetch_batch_at_once pubs b r body root Hn Ht Hx) as (w1 & E & X).
  destruct (article_events_quiet (findall_desc "PubmedArticle" root)) as (Q1 & Q2 & Q3).
  fold (parse_events root) in Q1, Q2, Q3. fold (unparsable root) in Q3.
  pose proof X as (Xn & Xc & _).
  rewrite requests_app, Q1 in Xc. unfold requests in Xc; simpl in Xc.
  destruct (IH (pubs ++ parsed_articles root)%list
               (mkRun w1 (pauses r ++ [S (calls (world r))])))
    as (evs' & ps' & r2 & E' & X' & R' & T' & W' & P' & L').
  { intros k u; simpl; rewrite Xn; apply Hok. }
  simpl in E', X', P', W'.
  exists (([Request (details_url b)] ++ parse_events root) ++ evs')%list,
         (S (calls (world r)) :: ps'), r2.
  cbn [fetch_batches answered_at_once unparsable_at_once]; unfold dbind.
  rewrite E, E', Hn, Hx.
  rewrite Xn, Xc in *. rewrite <- app_assoc.
  replace (calls (world r) + 1) with (S (calls (world r))) in * by lia.
  split; [reflexivity|]. split; [eapply extends_trans; eassumption|].
  rewrite !requests_app, !total_sleep_app, !warnings_app, R', T', W', Q1, Q2, Q3.
  unfold requests; simpl. repeat split; try lia.
  rewrite P', <- app_assoc; reflexivity.
Qed.

(** X18: when every request is answered at once with a non-empty body
    that is an XML document, [fetch_pubmed_details] makes one request
    and one pause per batch and never sleeps for a retry; the only
    warnings are those of the parser, one for every [PubmedArticle]
    without [MedlineCitation]; and it returns the records of the
    articles that parse, batch after batch, each in document order. *)
Theorem fetch_pubmed_details_online (pmids : list string) (batch_size : nat) (r : Run) :
  1 <= batch_size ->
  (forall k u, exists body root,
      net (world r) k u = inl body /\ truthy body = true /\
      fromstring body = inl root) ->
  exists evs ps r',
    fetch_pubmed_details fromstring pmids batch_size r =
      (inl (answered_at_once fromstring (net (world r)) (calls (world r))
                             (batches pmids batch_size)), r') /\
    extends (world r) (world r') evs /\
    requests evs = List.length (batches pmids batch_size) /\
    total_sleep evs = 0 /\
    warnings evs =
      unparsable_at_once fromstring (net (world r)) (calls (world r))
                         (batches pmids batch_size) /\
    pauses r' = (pauses r ++ ps)%list /\
    List.length ps = List.length (batches pmids batch_size).
Proof.
intros H Hok. unfold fetch_pubmed_details.
destruct (Nat.eqb_spec batch_size 0) as [E|_]; [lia|].
apply (fetch_batches_at_once (batches pmids batch_size) [] r Hok).
Qed.

(** X19: an XML error is not caught: when the first batch is answered at
    once with a non-empty body that [ET.fromstring] rejects,
    [fetch_pubmed_details] raises that error after this one request, and
    no later batch is fetched. *)
Theorem fetch_pubmed_details_xml_error (pmids : list string) (batch_size : nat)
  (r : Run) (body : string) (e : exn) :
  1 <= batch_size -> pmids <> [] ->
  net (world r) (calls (world r)) (details_url (firstn batch_size pmids)) = inl body ->
  truthy body = true -> fromstring body = inr e ->
  exists r',
    fetch_pubmed_details fromstring pmids batch_size r = (inr e, r') /\
    extends (world r) (world r') [Request (details_url (firstn batch_size pmids))] /\
    pauses r' = pauses r.
Proof.
intros H Hne Hn Ht Hx. unfold fetch_pubmed_details.
destruct (Nat.eqb_spec batch_size 0) as [E|_]; [lia|].
assert (B : exists rest, batches pmids batch_size = firstn batch_size pmids :: rest).
{ destruct pmids as [|x l]; [congruence|].
  unfold batches, range_step; cbn [List.length range_from].
  destruct (Nat.ltb_spec 0 (S (List.length l))); [|lia].
  cbn [map]. eexists. f_equal. unfold slice; simpl. rewrite Nat.sub_0_r; reflexivity. }
destruct B as [rest ->].
cbn [fetch_batches]; unfold dbind. rewrite fetch_batch_cases. unfold fetch_url.
destruct (fetch_loop_first_success (details_url (firstn batch_size pmids)) 3 1 body 0 0 3
            (world r)) as (evs & w' & E & X & R & _);
  [lia | lia | intros j Hj; lia | rewrite Nat.add_0_r; exact Hn |].
rewrite E, Ht, Hx. exists (mkRun w' (pauses r)).
split; [reflexivity|]. split; [|reflexivity]. simpl.
revert E; cbn [seq fetch_loop]; unfold bind.
destruct (attempt_once_success (details_url (firstn batch_size pmids)) 3 1 0 (world r)
            body Hn) as (w1 & E1 & X1).
rewrite E1; unfold ret; intros [= <-]. exact X1.
Qed.

End WithXmlParser.

Lemma fetch_pubmed_details_offline_witness :
  exists evs r',
    fetch_pubmed_details toy_fromstring ["31"; "32"; "33"] 2 (mkRun dead_world []) =
      (inl [], r') /\
    extends dead_world (world r') evs /\
    requests evs = 3 * List.length (batches ["31"; "32"; "33"] 2) /\
    warnings evs = List.length (batches ["31"; "32"; "33"] 2) /\
    pauses r' = [].
Proof.
apply (fetch_pubmed_details_offline toy_fromstring ["31"; "32"; "33"] 2
         (mkRun dead_world [])); [lia|].
intros k u; eexists; reflexivity.
Defined.

Lemma fetch_pubmed_details_online_witness :
  unparsable_at_once toy_fromstring (net xml_world) 0
                     (batches ["31"; "32"; "33"] 2) = 2 /\
  exists evs ps r',
    fetch_pubmed_details toy_fromstring ["31"; "32"; "33"] 2 (mkRun xml_world []) =
      (inl (answered_at_once toy_fromstring (net xml_world) 0
                             (batches ["31"; "32"; "33"] 2)), r') /\
    extends xml_world (world r') evs /\
    requests evs = List.length (batches ["31"; "32"; "33"] 2) /\
    total_sleep evs = 0 /\
    warnings evs =
      unparsable_at_once toy_fromstring (net xml_world) 0
                         (batches ["31"; "32"; "33"] 2) /\
    pauses r' = ([] ++ ps)%list /\
    List.length ps = List.length (batches ["31"; "32"; "33"] 2).
Proof.
split; [reflexivity|].
apply (fetch_pubmed_details_online toy_fromstring ["31"; "32"; "33"] 2
         (mkRun xml_world [])); [lia|].
intros k u; do 2 eexists; repeat split; reflexivity.
Defined.

Lemma fetch_pubmed_details_xml_error_witness :
  exists r',
    fetch_pubmed_details toy_fromstring ["31"; "32"; "33"] 2 (mkRun garbage_world []) =
      (inr (Exception "syntax error"), r') /\
    extends garbage_world (world r') [Request (details_url (firstn 2 ["31"; "32"; "33"]))] /\
    pauses r' = [].
Proof.
apply (fetch_pubmed_details_xml_error toy_fromstring ["31"; "32"; "33"] 2
         (mkRun garbage_world []) "not xml" (Exception "syntax error"));
  [lia | discriminate | reflexivity | reflexivity | reflexivity].
Defined.

Lemma fetch_pubmed_details_bounded_witness :
  exists res evs ps r',
    fetch_pubmed_details toy_fromstring ["31"; "32"; "33"] 2 (mkRun xml_world []) = (res, r') /\
    extends xml_world (world r') evs /\
    requests evs <= 3 * List.length (batches ["31"; "32"; "33"] 2) /\
    pauses r' = ([] ++ ps)%list /\
    List.length ps <= List.length (batches ["31"; "32"; "33"] 2) /\
    (["31"; "32"; "33"] = [] -> res = inl [] /\ r' = mkRun xml_world []).
Proof.
apply (proj2 (fetch_pubmed_details_bounded toy_fromstring ["31"; "32"; "33"] 2
                (mkRun xml_world []))); lia.
Defined.

End DetailsExtras.

(* ================================================================== *)
(** * fetch_pubmed_ids and try_scapis_website                           *)
(* ================================================================== *)

Module WebsiteExtras.

Import Json Fetch Website MoreSpec Samples MoreSamples FetchClaims FetchExtras.

Section WithLibraries.

Variable loads : string -> json + exn.
Variable repr_container : json -> string.

(** [fetch_url] with the defaults, when the three requests fail. *)
Lemma fetch_url_default_fails (url : string) (w : World) :
  (forall k, k < 3 -> exists e, net w (calls w + k) url = inr e) ->
  exists evs w',
    fetch_url url 3 1 w = (inl None, w') /\ extends w w' evs /\ requests evs = 3.
Proof.
intro H. destruct (fetch_loop_exhausted url 3 1 2 0 w) as (evs & w' & E & X & R & _);
  [lia | exact H |]. exists evs, w'; auto.
Qed.

(** [fetch_url] with the defaults, when the first request succeeds. *)
Lemma fetch_url_default_succeeds (url : string) (w : World) (body : string) :
  net w (calls w) url = inl body ->
  exists w', fetch_url url 3 1 w = (inl (Some body), w') /\ extends w w' [Request url].
Proof.
intro H. destruct (attempt_once_success url 3 1 0 w body H) as (w' & E & X).
exists w'; split; [|exact X].
unfold fetch_url; cbn [seq fetch_loop]; unfold bind; rewrite E; reflexivity.
Qed.

(** X20: [fetch_pubmed_ids] returns the empty list, and does not raise,
    when the three requests fail, when the body is empty, and when the
    body is a JSON object without [esearchresult] or whose
    [esearchresult] is an object without [idlist]: a missing key is
    missing data, not an error. *)
Theorem fetch_pubmed_ids_no_data (query : string) (w : World) :
  ((forall k, k < 3 -> exists e, net w (calls w + k) (search_url query) = inr e) ->
   exists w', fetch_pubmed_ids loads query w = (inl (JList []), w')) /\
  (net w (calls w) (search_url query) = inl "" ->
   exists w', fetch_pubmed_ids loads query w = (inl (JList []), w')) /\
  (forall text d,
     net w (calls w) (search_url query) = inl text -> text <> "" ->
     loads text = inl (JDict d) ->
     (Dict.get "esearchresult" d = None \/
      exists e, Dict.get "esearchresult" d = Some (JDict e) /\
                Dict.get "idlist" e = None) ->
     exists w', fetch_pubmed_ids loads query w = (inl (JList []), w')).
Proof.
unfold fetch_pubmed_ids, bind; repeat split.
- intro H. destruct (fetch_url_default_fails _ w H) as (evs & w' & E & _).
  rewrite E; eexists; reflexivity.
- intro H. destruct (fetch_url_default_succeeds _ w _ H) as (w' & E & _).
  rewrite E; eexists; reflexivity.
- intros text d H Ht Hl Hd.
  destruct (fetch_url_default_succeeds _ w _ H) as (w' & E & _).
  rewrite E. apply PyStrFacts.truthy_true in Ht; rewrite Ht, Hl.
  unfold get_attr, get.
  destruct Hd as [Hd|(e & Hd & He)]; rewrite Hd; simpl.
  + eexists; reflexivity.
  + rewrite He; eexists; reflexivity.
Qed.

Lemma add_node_raised (l : list json) :
  fold_left (add_node repr_container) l None = None.
Proof. induction l as [|p l IH]; simpl; auto. Qed.

(** The second loop: the records of the nodes with a title, in order,
    unless some node is not a dict. *)
Lemma node_loop (l : list json) (acc : list web_pub) :
  fold_left (add_node repr_container) l (Some acc) =
  if forallb is_dict l
  then Some (acc ++ filter (fun pub => truthy (w_title pub))
                           (map (fun v => node_pub repr_container (entries v)) l))%list
  else None.
Proof.
revert acc; induction l as [|p l IH]; intro acc; simpl.
- rewrite app_nil_r; reflexivity.
- destruct p as [| | | | | |d]; try (simpl; apply add_node_raised).
  cbn [forallb is_dict andb map entries filter].
  match goal with
  | |- context [if truthy ?t then Some _ else Some _] => destruct (truthy t)
  end; rewrite IH.
  + destruct (forallb is_dict l); [|reflexivity].
    rewrite <- app_assoc; reflexivity.
  + reflexivity.
Qed.

Lemma collect_titles (raw : json) (pubs : list web_pub) :
  collect repr_container raw = Some pubs ->
  forall pub, In pub pubs -> truthy (w_title pub) = true.
Proof.
destruct raw as [| | | | |l|]; try discriminate. unfold collect.
rewrite node_loop. destruct (forallb is_dict l); [|discriminate].
intros [= <-] pub Hin; simpl in Hin. apply filter_In in Hin; tauto.
Qed.

Lemma parse_page_titles (text : string) (pubs : list web_pub) :
  parse_page loads repr_container text = Some pubs ->
  forall pub, In pub pubs -> truthy (w_title pub) = true.
Proof.
unfold parse_page.
destruct (loads text) as [page|]; [|discriminate].
destruct (get_attr "result" (JDict []) page) as [r|]; [|discriminate].
destruct (get_attr "data" (JDict []) r) as [res|]; [|discriminate].
destruct (probe res) as [raw|]; [|discriminate].
destruct (truthy raw); [apply collect_titles|].
intros [= <-] pub [].
Qed.

Lemma probe_loop_skip (lookup : json -> option json) (keys1 rest : list json) :
  (forall key, In key keys1 ->
     exists val, lookup key = Some val /\ probe_value val = Some None) ->
  probe_loop lookup (keys1 ++ rest)%list = probe_loop lookup rest.
Proof.
induction keys1 as [|key keys1 IH]; intro H; simpl; [reflexivity|].
destruct (H key) as (val & Hl & Hp); [simpl; auto|].
rewrite Hl, Hp. apply IH. intros key' Hk; apply H; simpl; auto.
Qed.

Lemma get_app_first (d1 d2 : list (string * json)) (k : string) :
  In k (Dict.keys d1) ->
  exists val, Dict.get k (d1 ++ d2)%list = Some val /\ In (k, val) d1.
Proof.
induction d1 as [|[k0 v0] d1 IH]; simpl; [tauto|].
destruct (String.eqb_spec k0 k) as [->|N].
- intros _; exists v0; auto.
- intros [E|H]; [congruence|]. destruct (IH H) as (val & Hg & Hin); eauto.
Qed.

Lemma get_app_fresh (d1 d2 : list (string * json)) (k : string) (v : json) :
  ~ In k (Dict.keys d1) -> Dict.get k (d1 ++ (k, v) :: d2)%list = Some v.
Proof.
induction d1 as [|[k0 v0] d1 IH]; simpl; intro H.
- rewrite String.eqb_refl; reflexivity.
- destruct (String.eqb_spec k0 k) as [->|N]; [tauto|]. apply IH; tauto.
Qed.

(** X23: the first field of the payload that has one of the three shapes
    decides: when the fields before it have none, what is returned
    depends on that field only, not on the fields after it; if it holds
    no node, nothing is returned even when a later field holds some. *)
Theorem first_shape_decides (text : string) (page r : json)
  (d1 d2 : list (string * json)) (k : string) (v raw : json) :
  loads text = inl page ->
  get_attr "result" (JDict []) page = Some r ->
  get_attr "data" (JDict []) r = Some (JDict (d1 ++ (k, v) :: d2)%list) ->
  (forall entry, In entry d1 -> probe_value (snd entry) = Some None) ->
  ~ In k (Dict.keys d1) ->
  probe_value v = Some (Some raw) ->
  parse_page loads repr_container text =
  (if truthy raw then collect repr_container raw else Some []).
Proof.
intros Hl Hr Hd Hnone Hk Hv. unfold parse_page; rewrite Hl, Hr, Hd.
assert (P : probe (JDict (d1 ++ (k, v) :: d2)%list) = Some raw).
{ unfold probe, Dict.keys. rewrite !map_app; cbn [map fst].
  rewrite probe_loop_skip.
  - cbn [probe_loop]. rewrite get_app_fresh by assumption. rewrite Hv; reflexivity.
  - intros key Hin. apply in_map_iff in Hin as [k' [<- Hin]].
    destruct (get_app_first d1 ((k, v) :: d2) k' Hin) as (val & Hg & Hv').
    exists val; split; [exact Hg|]. apply (Hnone (k', val) Hv'). }
rewrite P; reflexivity.
Qed.

(** [str(e)] for an exception of the interpreter, see [Website]. *)
Variable raised_text : string -> string.

(** X21: on a body that is no JSON, or that is JSON but not an object,
    [fetch_pubmed_ids] raises, while [try_scapis_website] returns the
    empty list. *)
Theorem bad_document_raises_or_is_skipped (query : string) (w : World) (text : string) :
  text <> "" ->
  (exists e, loads text = inr e) \/
  (exists v, loads text = inl v /\ is_dict v = false) ->
  (net w (calls w) (search_url query) = inl text ->
   exists e w', fetch_pubmed_ids loads query w = (inr e, w')) /\
  (net w (calls w) SCAPIS_PAGE_DATA = inl text ->
   exists w', try_scapis_website loads repr_container raised_text w = (inl [], w')).
Proof.
intros Ht Hbad; apply PyStrFacts.truthy_true in Ht; split; intro H;
  destruct (fetch_url_default_succeeds _ w _ H) as (w' & E & _).
- unfold fetch_pubmed_ids, bind; rewrite E, Ht.
  destruct Hbad as [[e He]|(v & Hv & Hd)].
  + rewrite He; do 2 eexists; reflexivity.
  + rewrite Hv. destruct v; try discriminate; do 2 eexists; reflexivity.
- unfold try_scapis_website, bind; rewrite E, Ht.
  assert (P : parse_page loads repr_container text = None).
  { unfold parse_page. destruct Hbad as [[e He]|(v & Hv & Hd)].
    - rewrite He; reflexivity.
    - rewrite Hv. destruct v; try discriminate; reflexivity. }
  rewrite P; unfold bind, print_stderr, ret; eexists; reflexivity.
Qed.

(** X22: [try_scapis_website] never raises and makes at most 3 requests,
    whatever the network answers and whatever the document holds, and
    every record it returns has a title that is truthy. *)
Theorem try_scapis_website_titles (w : World) :
  exists (pubs : list web_pub) (evs : list event) (w' : World),
    try_scapis_website loads repr_container raised_text w = (inl pubs, w') /\
    extends w w' evs /\ requests evs <= 3 /\
    forall pub, In pub pubs -> truthy (w_title pub) = true.
Proof.
unfold try_scapis_website, bind, fetch_url.
destruct (fetch_loop_total SCAPIS_PAGE_DATA 3 1 (seq 0 3) w)
  as (x & evs & w' & E & X & R). rewrite E. simpl in R.
assert (Z : forall pub : web_pub, In pub [] -> truthy (w_title pub) = true)
  by (intros pub []).
destruct x as [text|].
- destruct (PyStr.truthy text).
  + destruct (parse_page loads repr_container text) as [pubs|] eqn:P.
    * exists pubs, evs, w'. split; [reflexivity|]. split; [exact X|].
      split; [exact R | exact (parse_page_titles text pubs P)].
    * exists [], (evs ++ [Warn (page_warning loads raised_text text)])%list,
             (log (Warn (page_warning loads raised_text text)) w').
      split; [reflexivity|].
      split; [eapply extends_trans; [exact X | apply extends_log; reflexivity]|].
      split; [rewrite requests_app; unfold requests at 2; simpl; lia | assumption].
  + exists [], evs, w'. split; [reflexivity|]. split; [exact X|]. split; assumption.
- exists [], evs, w'. split; [reflexivity|]. split; [exact X|]. split; assumption.
Qed.

(** X24: for a page whose payload has one field with a list under
    ["nodes"], answered at the first request: when every node is an
    object, the records returned are those of the nodes whose title (or,
    failing that, name) is truthy, in the order of the nodes, and
    nothing is printed on standard error; when some node is not an
    object, nothing is returned and the warning of the handler is
    printed. *)
Theorem nodes_page (w : World) (text key : string) (nodes : list json) :
  net w (calls w) SCAPIS_PAGE_DATA = inl text -> text <> "" ->
  loads text = inl (gatsby_page key nodes) ->
  exists w',
    try_scapis_website loads repr_container raised_text w =
      (inl (if forallb is_dict nodes
            then filter (fun pub => truthy (w_title pub))
                        (map (fun v => node_pub repr_container (entries v)) nodes)
            else []), w') /\
    extends w w'
      (if forallb is_dict nodes
       then [Request SCAPIS_PAGE_DATA]
       else [Request SCAPIS_PAGE_DATA;
             Warn ("  Warning: Failed to parse SCAPIS data: " ++ raised_text text)]).
Proof.
intros Hn Ht Hl. apply PyStrFacts.truthy_true in Ht.
destruct (fetch_url_default_succeeds _ w _ Hn) as (w' & E & X).
unfold try_scapis_website, bind; rewrite E, Ht.
assert (P : parse_page loads repr_container text =
            if forallb is_dict nodes
            then Some (filter (fun pub => truthy (w_title pub))
                              (map (fun v => node_pub repr_container (entries v)) nodes))
            else None).
{ unfold parse_page; rewrite Hl. unfold gatsby_page.
  cbn [get_attr get Dict.get String.eqb Ascii.eqb Bool.eqb].
  unfold probe, Dict.keys; cbn [map fst probe_loop Dict.get].
  rewrite String.eqb_refl.
  cbn [probe_value Dict.mem String.eqb Ascii.eqb Bool.eqb orb get Dict.get].
  destruct nodes as [|n nodes]; [reflexivity|].
  cbn [truthy]. unfold collect. rewrite node_loop. reflexivity. }
rewrite P. destruct (forallb is_dict nodes).
- exists w'; split; [reflexivity | exact X].
- exists (log (Warn (page_warning loads raised_text text)) w').
  split; [reflexivity|].
  unfold page_warning; rewrite Hl.
  change [Request SCAPIS_PAGE_DATA;
          Warn ("  Warning: Failed to parse SCAPIS data: " ++ raised_text text)]
    with ([Request SCAPIS_PAGE_DATA] ++
          [Warn ("  Warning: Failed to parse SCAPIS data: " ++ raised_text text)])%list.
  eapply extends_trans; [exact X | apply extends_log; reflexivity].
Qed.

End WithLibraries.

Lemma first_shape_decides_witness :
  parse_page toy_loads toy_repr "empty first" = Some [].
Proof.
apply (first_shape_decides toy_loads toy_repr "empty first" _ _
         [("site", JDict [("title", JStr "SCAPIS")])] later_field "drafts"
         (JList []) (JList []) eq_refl eq_refl eq_refl).
- intros entry [<-|[]]; reflexivity.
- simpl; intros [H|[]]; discriminate.
- reflexivity.
Defined.

Lemma nodes_page_witness :
  (exists w',
     try_scapis_website toy_loads toy_repr toy_raised page_world =
       (inl (if forallb is_dict page_nodes
             then filter (fun pub => truthy (w_title pub))
                         (map (fun v => node_pub toy_repr (entries v)) page_nodes)
             else []), w') /\
     extends page_world w'
       (if forallb is_dict page_nodes
        then [Request SCAPIS_PAGE_DATA]
        else [Request SCAPIS_PAGE_DATA;
              Warn ("  Warning: Failed to parse SCAPIS data: " ++ toy_raised "page")])) /\
  (exists w',
     try_scapis_website toy_loads toy_repr toy_raised mixed_world = (inl [], w') /\
     extends mixed_world w'
       [Request SCAPIS_PAGE_DATA;
        Warn "  Warning: Failed to parse SCAPIS data: 'str' object has no attribute 'get'"]).
Proof.
split.
- apply (nodes_page toy_loads toy_repr toy_raised page_world "page" "allPublications"
           page_nodes); [reflexivity | discriminate | reflexivity].
- apply (nodes_page toy_loads toy_repr toy_raised mixed_world "mixed" "allPublications"
           mixed_nodes); [reflexivity | discriminate | reflexivity].
Defined.

Lemma fetch_pubmed_ids_no_data_witness :
  exists w', fetch_pubmed_ids toy_loads Website.default_query dead_world =
             (inl (JList []), w').
Proof.
apply (proj1 (fetch_pubmed_ids_no_data toy_loads Website.default_query dead_world)).
intros k _; eexists; reflexivity.
Defined.

Lemma bad_document_raises_or_is_skipped_witness :
  (exists e w', fetch_pubmed_ids toy_loads Website.default_query list_world = (inr e, w')) /\
  (exists w', try_scapis_website toy_loads toy_repr toy_raised list_world = (inl [], w')).
Proof.
destruct (bad_document_raises_or_is_skipped toy_loads toy_repr toy_raised
            Website.default_query list_world "list") as [H1 H2].
- discriminate.
- right; exists (JList []); split; reflexivity.
- split; [apply H1 | apply H2]; reflexivity.
Defined.

End WebsiteExtras.

(* ================================================================== *)
(** * Further properties of the renderer                                *)
(* ================================================================== *)

Module RendererExtras.

Import PyStr Renderer Spec Samples MoreSamples PyStrFacts SubstringFacts PrimitiveFacts
  OrderFacts RendererClaims.

(** X25: a template without any of the four placeholders is written
    unchanged; and in a template with the data placeholder once, the
    serialised data takes its place and is then itself subject to the
    three later substitutions, like the rest of the page. *)
Theorem main_inserts_data :
  (forall template data_json update_date pubs,
     contains "%%DATA%%" template = false ->
     contains "%%PUB_COUNT%%" template = false ->
     contains "%%YEAR_RANGE%%" template = false ->
     contains "%%UPDATE_DATE%%" template = false ->
     main template data_json pubs update_date = template) /\
  (forall pre post data_json update_date pubs,
     contains "%%DATA%%" (pre ++ "%%DATA%") = false ->
     contains "%%DATA%%" post = false ->
     main (pre ++ "%%DATA%%" ++ post) data_json pubs update_date =
     replace "%%UPDATE_DATE%%" update_date
       (replace "%%YEAR_RANGE%%" (year_range pubs)
          (replace "%%PUB_COUNT%%" (of_nat (List.length pubs))
             (pre ++ data_json ++ post)))).
Proof.
split.
- intros template data_json update_date pubs H1 H2 H3 H4. unfold main.
  rewrite (replace_absent "%%DATA%%") by (assumption || discriminate).
  rewrite (replace_absent "%%PUB_COUNT%%") by (assumption || discriminate).
  rewrite (replace_absent "%%YEAR_RANGE%%") by (assumption || discriminate).
  apply replace_absent; [discriminate | assumption].
- intros pre post data_json update_date pubs Hpre Hpost. unfold main.
  rewrite (replace_first "%%DATA%%") by (discriminate || exact Hpre).
  rewrite (replace_absent "%%DATA%%" data_json post) by (assumption || discriminate).
  reflexivity.
Qed.

Lemma main_inserts_data_witness :
  main ("const FULL_DATA = " ++ "%%DATA%%" ++ "; // %%PUB_COUNT%%") "[%%PUB_COUNT%%]"
       [of_year "2021"] "04 Nov 2026" =
  "const FULL_DATA = [1]; // 1".
Proof.
rewrite (proj2 main_inserts_data "const FULL_DATA = " "; // %%PUB_COUNT%%") by reflexivity.
reflexivity.
Defined.

(** The year range, by cases on the non-empty years. *)
Lemma year_range_cases (pubs : list dashboard_pub) :
  (nonempty_years pubs = [] /\ year_range pubs = "N/A") \/
  (exists lo hi,
     year_range pubs = lo ++ en_dash ++ hi /\
     In lo (nonempty_years pubs) /\ In hi (nonempty_years pubs) /\
     forall y, In y (nonempty_years pubs) -> le lo y = true /\ le y hi = true).
Proof.
unfold year_range, years.
pose proof (sorted_set_sorted (nonempty_years pubs)) as Hs.
pose proof (fun y => sorted_set_In y (nonempty_years pubs)) as Hin.
destruct (sorted_set (nonempty_years pubs)) as [|y0 l] eqn:E.
- left; split; [|reflexivity].
  destruct (nonempty_years pubs) as [|y l]; [reflexivity|].
  exfalso; apply (Hin y); simpl; auto.
- right; exists y0, (last (y0 :: l) y0). split; [reflexivity|].
  split; [apply Hin; simpl; auto|]. split; [apply Hin, last_In|].
  intros y Hy; apply Hin in Hy. split.
  + apply (sorted_head_least y0 l); assumption.
  + apply sorted_last_greatest; assumption.
Qed.

(** X26: the year range of the footer depends only on which non-empty
    year strings occur: the order of the records, repeated years and
    records without a year do not change it. *)
Theorem year_range_of_set (pubs1 pubs2 : list dashboard_pub) :
  (forall y, y <> "" ->
     ((exists p, In p pubs1 /\ d_year p = y) <->
      (exists p, In p pubs2 /\ d_year p = y))) ->
  year_range pubs1 = year_range pubs2.
Proof.
intro H.
assert (S : forall y, In y (nonempty_years pubs1) <-> In y (nonempty_years pubs2)).
{ intro y; rewrite !nonempty_years_In. split; intros [N X]; split; auto; apply (H y N), X. }
destruct (year_range_cases pubs1) as [[E1 R1]|(lo1 & hi1 & R1 & L1 & H1 & B1)];
destruct (year_range_cases pubs2) as [[E2 R2]|(lo2 & hi2 & R2 & L2 & H2 & B2)].
- congruence.
- exfalso. apply S in L2; rewrite E1 in L2; destruct L2.
- exfalso. apply S in L1; rewrite E2 in L1; destruct L1.
- rewrite R1, R2.
  assert (lo1 = lo2).
  { apply le_antisym; [apply B1, S, L2 | apply B2, S, L1]. }
  assert (hi1 = hi2).
  { apply le_antisym; [apply B2, S, H1 | apply B1, S, H2]. }
  congruence.
Qed.

Lemma year_range_of_set_witness :
  year_range [of_year "2021"; of_year "2019"; of_year ""; of_year "2021"] =
  year_range [of_year "2019"; of_year "2021"].
Proof.
apply year_range_of_set. intros y Hy; split; intros [p [Hin E]]; subst y;
  simpl in Hin; repeat (destruct Hin as [<-|Hin]; [|]); try contradiction;
  try (exfalso; apply Hy; reflexivity).
- exists (of_year "2021"); simpl; auto.
- exists (of_year "2019"); simpl; auto.
- exists (of_year "2021"); simpl; auto.
- exists (of_year "2019"); simpl; auto.
- exists (of_year "2021"); simpl; auto.
Defined.

End RendererExtras.
